(** * rm-photo: image metadata viewer (app.py)

    A shallow embedding of the pure and effectful parts of [app.py]:
    the byte-size formatter, the GPS degree/minute/second converter, the
    two metadata extractors, the full metadata dump and the render pass
    of [main], together with the properties stated about them.

    Python numbers are modelled as they are: [int] is [Z], [float] is an
    IEEE 754 binary64 value.  Every float operation is the exact rational
    result rounded to nearest, ties to even, at 53 bits of precision. *)

From Stdlib Require Import ZArith QArith Qabs Qround Qpower Qreduction.
From Stdlib Require Import Lia Lqa Bool List String Ascii DecimalString Morphisms.
From Stdlib.Strings Require Import Byte.
From Stdlib Require PrimFloat FloatOps SpecFloat.
Import ListNotations.

Set Warnings "-register-all".

Local Open Scope string_scope.
Local Open Scope Z_scope.

(** ** Python exceptions and results *)

Inductive exn : Type :=
| ZeroDivisionError
| OverflowError
| TypeError
| IndexError
| KeyError
| AttributeError
| UnicodeDecodeError
| LibraryError (msg : string).

Inductive result (A : Type) : Type :=
| Ok (a : A)
| Raise (e : exn).
Arguments Ok {A} a.
Arguments Raise {A} e.

Definition rbind {A B} (r : result A) (k : A -> result B) : result B :=
  match r with
  | Ok a => k a
  | Raise e => Raise e
  end.

Declare Scope result_scope.
Delimit Scope result_scope with result.
Notation "x <- r ;; k" := (rbind r (fun x => k))
  (at level 61, r at next level, right associativity) : result_scope.

(** ** Binary64 floating point *)

Module Float.

(** A float is a NaN, a signed infinity, a signed zero, or
    [(-1)^neg * m * 2^e]. *)
Inductive float : Type :=
| FNan
| FInf (neg : bool)
| FZero (neg : bool)
| FFin (neg : bool) (m : positive) (e : Z).

Definition prec : Z := 53.
Definition emin : Z := -1074.
Definition emax : Z := 1024.

Definition pow2 (e : Z) : Q := (2 ^ e)%Q.

Definition Qsigned (neg : bool) (q : Q) : Q := if neg then (- q)%Q else q.

(** Exact value of a finite float (0 for the special values). *)
Definition F2Q (f : float) : Q :=
  match f with
  | FFin s m e => Qsigned s (inject_Z (Zpos m) * pow2 e)
  | _ => 0%Q
  end.

Definition is_finite (f : float) : bool :=
  match f with
  | FZero _ | FFin _ _ _ => true
  | _ => false
  end.

Definition is_neg (f : float) : bool :=
  match f with
  | FInf s | FZero s | FFin s _ _ => s
  | FNan => false
  end.

Definition Fopp (f : float) : float :=
  match f with
  | FNan => FNan
  | FInf s => FInf (negb s)
  | FZero s => FZero (negb s)
  | FFin s m e => FFin (negb s) m e
  end.

(** Round a rational to the nearest integer, ties to the even one. *)
Definition rhe (x : Q) : Z :=
  let f := Qfloor x in
  match (x - inject_Z f ?= 1 # 2)%Q with
  | Lt => f
  | Gt => f + 1
  | Eq => if Z.even f then f else f + 1
  end.

(** Exponent of the unit in the last place of a positive rational [a]:
    the [e >= emin] with [2^52 <= a / 2^e < 2^53] where there is one. *)
Definition ulp_exp (a : Q) : Z :=
  let e1 := Z.log2 (Qnum a) - Z.log2 (Zpos (Qden a)) - prec in
  let e2 := if Qle_bool (pow2 (e1 + prec)) a then e1 + 1 else e1 in
  Z.max e2 emin.

(** The float [(-1)^s * M * 2^e] for a rounded mantissa [0 <= M <= 2^53];
    a mantissa that rounded up to [2^53] is renormalised. *)
Definition mk_float (s : bool) (M : Z) (e : Z) : float :=
  match M with
  | Zpos p => if (p =? 9007199254740992)%positive
              then FFin s 4503599627370496 (e + 1)
              else FFin s p e
  | _ => FZero s
  end.

(** Round to nearest even on a rational in lowest terms; [zs] is the sign
    given to an exact zero.  A result of magnitude [2^1024] or more
    overflows to an infinity. *)
Definition RN_core (zs : bool) (q : Q) : float :=
  match Qnum q with
  | 0 => FZero zs
  | _ =>
      let s := Qnum q <? 0 in
      let a := Qabs q in
      let e := ulp_exp a in
      let M := rhe (a / pow2 e) in
      if Qle_bool (pow2 emax) (inject_Z M * pow2 e) then FInf s
      else mk_float s M e
  end.

Definition RN (zs : bool) (q : Q) : float := RN_core zs (Qred q).

(** Arithmetic: the exact result, rounded. *)

Definition Fadd (x y : float) : float :=
  match x, y with
  | FNan, _ | _, FNan => FNan
  | FInf sx, FInf sy => if Bool.eqb sx sy then FInf sx else FNan
  | FInf sx, _ => FInf sx
  | _, FInf sy => FInf sy
  | _, _ => RN (is_neg x && is_neg y) (F2Q x + F2Q y)
  end.

Definition Fmul (x y : float) : float :=
  let s := xorb (is_neg x) (is_neg y) in
  match x, y with
  | FNan, _ | _, FNan => FNan
  | FInf _, FZero _ | FZero _, FInf _ => FNan
  | FInf _, _ | _, FInf _ => FInf s
  | _, _ => RN s (F2Q x * F2Q y)
  end.

(** Division by a nonzero float ([/] on a zero divisor raises in Python
    before any IEEE division takes place). *)
Definition Fdiv (x y : float) : float :=
  let s := xorb (is_neg x) (is_neg y) in
  match x, y with
  | FNan, _ | _, FNan => FNan
  | FInf _, FInf _ => FNan
  | FInf _, _ => FInf s
  | _, FInf _ => FZero s
  | _, _ => RN s (F2Q x / F2Q y)
  end.

End Float.
Export Float.

(** ** Python numbers *)

(** [str(z)] for an [int]. *)
Definition str_Z (z : Z) : string := NilZero.string_of_int (Z.to_int z).

(** A number handed to [format_bytes]: an [int] or a [float]. *)
Inductive pynum : Type :=
| PInt (z : Z)
| PFloat (f : float).

(** Where Python converts or divides exactly and rounds once, a result
    beyond the range of a float is an [OverflowError], not an infinity. *)
Definition no_overflow (f : float) : result float :=
  match f with
  | FInf _ => Raise OverflowError
  | _ => Ok f
  end.

(** [float(z)]: the nearest float, or [OverflowError] beyond the range. *)
Definition float_of_int (z : Z) : result float :=
  no_overflow (RN false (inject_Z z)).

(** The exact quotient of two integers. *)
Definition ratio (n d : Z) : Q := (inject_Z n / inject_Z d)%Q.

(** [a / b] on two [int]s: the correctly rounded quotient. *)
Definition int_truediv (a b : Z) : result float :=
  if b =? 0 then Raise ZeroDivisionError
  else no_overflow (RN (xorb (a <? 0) (b <? 0)) (ratio a b)).

Definition is_zero (f : float) : bool :=
  match f with
  | FZero _ => true
  | _ => false
  end.

(** [x / y] on two [float]s. *)
Definition float_truediv (x y : float) : result float :=
  if is_zero y then Raise ZeroDivisionError else Ok (Fdiv x y).

(** [x / k] for a number [x] and an [int] [k]. *)
Definition py_truediv_int (x : pynum) (k : Z) : result float :=
  match x with
  | PInt a => int_truediv a k
  | PFloat f => (kf <- float_of_int k ;; float_truediv f kf)%result
  end.

(** [x > k] for a number [x] and an [int] [k]; the comparison is exact. *)
Definition py_gt_int (x : pynum) (k : Z) : bool :=
  match x with
  | PInt a => k <? a
  | PFloat FNan => false
  | PFloat (FInf s) => negb s
  | PFloat f => negb (Qle_bool (F2Q f) (inject_Z k))
  end.

(** Decimal digits of a natural number below 100, on two places. *)
Definition two_digits (n : Z) : string :=
  (str_Z (n / 10) ++ str_Z (n mod 10))%string.

(** The decimal text of a rational rounded to two places, ties to even:
    the digits of the magnitude behind a minus sign where [neg]. *)
Definition fixed2 (neg : bool) (q : Q) : string :=
  let N := rhe (Qabs q * 100) in
  ((if neg then "-" else "") ++ str_Z (N / 100) ++ "."
     ++ two_digits (N mod 100))%string.

(** [format(f, ".2f")]: the exact value of the float, rounded. *)
Definition format_2f (f : float) : string :=
  match f with
  | FNan => "nan"
  | FInf s => if s then "-inf" else "inf"
  | _ => fixed2 (is_neg f) (F2Q f)
  end.

(** [f"{x:.2f}"]: an [int] is converted to [float] first. *)
Definition py_format_2f (x : pynum) : result string :=
  match x with
  | PInt z => (f <- float_of_int z ;; Ok (format_2f f))%result
  | PFloat f => Ok (format_2f f)
  end.

(** [round(f, ndigits)] for [ndigits >= 0]: the decimal rounding of the
    exact value, ties to even, converted back to the nearest float. *)
Definition py_round (f : float) (ndigits : nat) : result float :=
  match f with
  | FFin s _ _ =>
      let scale := inject_Z (10 ^ Z.of_nat ndigits) in
      let N := rhe (Qabs (F2Q f) * scale) in
      no_overflow (RN s (Qsigned s (inject_Z N / scale)))
  | _ => Ok f
  end.

(** ** format_bytes *)

Definition power : Z := 1024.
Definition units : list string := ["Bytes"; "KB"; "MB"; "GB"; "TB"].

(** The [while] loop of [format_bytes]; [fuel] bounds the iterations, of
    which there are at most [len(units) - 1]. *)
Fixpoint format_bytes_loop (fuel : nat) (size : pynum) (n : nat)
  : result (pynum * nat) :=
  match fuel with
  | O => Ok (size, n)
  | S fuel' =>
      if py_gt_int size power && (n <? List.length units - 1)%nat
      then (size' <- py_truediv_int size power ;;
            format_bytes_loop fuel' (PFloat size') (S n))%result
      else Ok (size, n)
  end.

Definition format_bytes (size : pynum) : result string :=
  (sn <- format_bytes_loop (List.length units) size 0 ;;
   let '(size', n) := sn in
   txt <- py_format_2f size' ;;
   Ok (txt ++ " " ++ nth n units "")%string)%result.

(** The numbers on which no conversion to [float] overflows: every
    [float], and the [int]s up to [2^1023] in magnitude. *)
Definition in_float_range (x : pynum) : Prop :=
  match x with
  | PInt b => Z.abs b <= 2 ^ 1023
  | PFloat _ => True
  end.

(** *** What the size text is meant to be

    The byte count scaled by [1024^k], as an exact rational, and the two
    readings of the unit index: the smallest and the largest [k] of the
    ladder at which the scaled count is at most 1024. *)

Definition scaled (b : Z) (k : nat) : Q :=
  (inject_Z b / inject_Z (1024 ^ Z.of_nat k))%Q.

Definition fits (b : Z) (k : nat) : bool := Qle_bool (scaled b k) 1024.

Definition smallest_k (b : Z) : nat :=
  match find (fits b) [0; 1; 2; 3]%nat with
  | Some k => k
  | None => 4%nat
  end.

Definition largest_k (b : Z) : nat :=
  match find (fits b) [4; 3; 2; 1; 0]%nat with
  | Some k => k
  | None => 4%nat
  end.

Definition size_text (b : Z) (k : nat) : string :=
  (fixed2 (b <? 0)%Z (scaled b k) ++ " " ++ nth k units "")%string.

(** ** Metadata values *)

(** The contents of a tuple value: integers and nested tuples, as in a
    rational [(num, den)] or a sequence of rationals. *)
Inductive tval : Type :=
| TInt (z : Z)
| TTup (l : list tval).

(** A value as the code sees it: [None], [int], [str], [bytes] or a
    tuple.  A [str] is held as its UTF-8 encoding.  These are the values
    of a metadata structure as the library builds it; a [float] does not
    occur in one, and what the functions do with one is not stated here. *)
Inductive value : Type :=
| VNone
| VInt (z : Z)
| VStr (s : string)
| VBytes (b : list byte)
| VTuple (l : list tval).

Definition value_of_tval (t : tval) : value :=
  match t with
  | TInt z => VInt z
  | TTup l => VTuple l
  end.

(** *** UTF-8 *)

Definition is_cont (b : byte) : bool :=
  let n := Byte.to_N b in ((128 <=? n) && (n <? 192))%N.

(** What stands at the head of a byte sequence: a well-formed character
    of [len] bytes, an ill-formed sequence of which [skip] bytes are in
    error, or a sequence cut short by the end of the input. *)
Inductive utf8_step : Type :=
| UChar (len : nat)
| UInvalid (skip : nat)
| UTruncated.

Definition utf8_head (l : list byte) : utf8_step :=
  match l with
  | [] => UTruncated
  | b0 :: t =>
      let c := Byte.to_N b0 in
      if (c <? 128)%N then UChar 1
      else if (c <? 194)%N then UInvalid 1
      else if (c <? 224)%N then
        match t with
        | [] => UTruncated
        | b1 :: _ => if is_cont b1 then UChar 2 else UInvalid 1
        end
      else if (c <? 240)%N then
        match t with
        | [] => UTruncated
        | b1 :: t1 =>
            if negb (is_cont b1)
               || (if (Byte.to_N b1 <? 160)%N then (c =? 224)%N else (c =? 237)%N)
            then UInvalid 1
            else match t1 with
                 | [] => UTruncated
                 | b2 :: _ => if is_cont b2 then UChar 3 else UInvalid 2
                 end
        end
      else if (c <? 245)%N then
        match t with
        | [] => UTruncated
        | b1 :: t1 =>
            if negb (is_cont b1)
               || (if (Byte.to_N b1 <? 144)%N then (c =? 240)%N else (c =? 244)%N)
            then UInvalid 1
            else match t1 with
                 | [] => UTruncated
                 | b2 :: t2 =>
                     if negb (is_cont b2) then UInvalid 2
                     else match t2 with
                          | [] => UTruncated
                          | b3 :: _ => if is_cont b3 then UChar 4 else UInvalid 3
                          end
                 end
        end
      else UInvalid 1
  end.

(** The decoder; with [ignore] the bytes in error are dropped, without
    it they raise.  Every step consumes at least one byte, so a [fuel]
    of the length of the input is enough. *)
Fixpoint utf8_decode (fuel : nat) (ignore : bool) (l : list byte)
  : result (list byte) :=
  match fuel with
  | O => Ok []
  | S fuel' =>
      match l with
      | [] => Ok []
      | _ =>
          match utf8_head l with
          | UChar n =>
              (rest <- utf8_decode fuel' ignore (skipn n l) ;;
               Ok (firstn n l ++ rest)%list)%result
          | UInvalid n =>
              if ignore then utf8_decode fuel' ignore (skipn n l)
              else Raise UnicodeDecodeError
          | UTruncated =>
              if ignore then Ok [] else Raise UnicodeDecodeError
          end
      end
  end.

(** [b.decode()] *)
Definition bytes_decode (b : list byte) : result string :=
  (t <- utf8_decode (List.length b) false b ;; Ok (string_of_list_byte t))%result.

(** [b.decode(errors="ignore")] *)
Definition bytes_decode_ignore (b : list byte) : string :=
  match utf8_decode (List.length b) true b with
  | Ok t => string_of_list_byte t
  | Raise _ => ""
  end.

(** *** Text of a value *)

Definition hex_digit (n : N) : ascii :=
  nth (N.to_nat n) (list_ascii_of_string "0123456789abcdef") "0"%char.

(** One byte inside [repr(b)] for a [bytes] object quoted by [q]. *)
Definition repr_byte (q : ascii) (b : byte) : string :=
  let c := ascii_of_byte b in
  let n := Byte.to_N b in
  if Ascii.eqb c q || Ascii.eqb c "\"%char then String "\"%char (String c "")
  else if (n =? 9)%N then "\t"
  else if (n =? 10)%N then "\n"
  else if (n =? 13)%N then "\r"
  else if ((n <? 32) || (127 <=? n))%N
       then String "\"%char (String "x"%char
              (String (hex_digit (n / 16)) (String (hex_digit (n mod 16)) "")))
  else String c "".

Definition has_byte (c : ascii) (b : list byte) : bool :=
  existsb (fun x => Ascii.eqb (ascii_of_byte x) c) b.

Definition squote : ascii := "'"%char.
Definition dquote : ascii := ascii_of_nat 34.

(** [repr(b)] for a [bytes] object. *)
Definition bytes_repr (b : list byte) : string :=
  let q := if has_byte squote b && negb (has_byte dquote b)
           then dquote else squote in
  (String "b"%char (String q (concat "" (map (repr_byte q) b)))
     ++ String q "")%string.

Definition tuple_text (items : list string) : string :=
  match items with
  | [] => "()"
  | [x] => ("(" ++ x ++ ",)")%string
  | _ => ("(" ++ concat ", " items ++ ")")%string
  end.

Fixpoint tval_repr (t : tval) : string :=
  match t with
  | TInt z => str_Z z
  | TTup l => tuple_text (map tval_repr l)
  end.

(** [str(v)], the text an f-string puts for [{v}]. *)
Definition py_str (v : value) : string :=
  match v with
  | VNone => "None"
  | VInt z => str_Z z
  | VStr s => s
  | VBytes b => bytes_repr b
  | VTuple l => tuple_text (map tval_repr l)
  end.

(** A [bytes] value is decoded to text, dropping what does not decode;
    any other value is kept.  (The [except] branch of the source is
    unreachable: with [errors="ignore"] the decoder does not raise.) *)
Definition decode_if_bytes (v : value) : value :=
  match v with
  | VBytes b => VStr (bytes_decode_ignore b)
  | _ => v
  end.

(** *** Subscripts and attributes *)

(** The characters of a [str]: each lead byte with its continuation
    bytes. *)
Fixpoint utf8_chars (l : list byte) : list (list byte) :=
  match l with
  | [] => []
  | b :: t =>
      match utf8_chars t with
      | [] => [[b]]
      | c :: cs =>
          match c with
          | b1 :: _ => if is_cont b1 then (b :: c) :: cs else [b] :: c :: cs
          | [] => [b] :: cs
          end
      end
  end.

(** [l[i]] for a sequence: a negative index counts from the end. *)
Definition seq_item {A} (l : list A) (i : Z) : result A :=
  let j := if i <? 0 then i + Z.of_nat (List.length l) else i in
  if j <? 0 then Raise IndexError
  else match nth_error l (Z.to_nat j) with
       | Some x => Ok x
       | None => Raise IndexError
       end.

(** [v[i]] for a value [v] and an integer [i]. *)
Definition getitem (v : value) (i : Z) : result value :=
  match v with
  | VTuple l => (t <- seq_item l i ;; Ok (value_of_tval t))%result
  | VBytes b => (x <- seq_item b i ;; Ok (VInt (Z.of_N (Byte.to_N x))))%result
  | VStr s =>
      (c <- seq_item (utf8_chars (list_byte_of_string s)) i ;;
       Ok (VStr (string_of_list_byte c)))%result
  | VNone | VInt _ => Raise TypeError
  end.

(** [x / y] on two values: defined on numbers only. *)
Definition truediv (x y : value) : result float :=
  match x, y with
  | VInt a, VInt b => int_truediv a b
  | _, _ => Raise TypeError
  end.

(** [v.decode()]: only [bytes] has the method. *)
Definition value_decode (v : value) : result string :=
  match v with
  | VBytes b => bytes_decode b
  | _ => Raise AttributeError
  end.

(** *** Dictionaries

    A [dict] keeps its entries in insertion order, one per key. *)

Section Dict.
Context {K V : Type} (eqb : K -> K -> bool).

(** [d.get(k)]: the value under [k], if any. *)
Fixpoint dict_get (d : list (K * V)) (k : K) : option V :=
  match d with
  | [] => None
  | (k', v) :: d' => if eqb k' k then Some v else dict_get d' k
  end.

(** [d[k] = v] *)
Fixpoint dict_set (d : list (K * V)) (k : K) (v : V) : list (K * V) :=
  match d with
  | [] => [(k, v)]
  | (k', v') :: d' =>
      if eqb k' k then (k', v) :: d' else (k', v') :: dict_set d' k v
  end.

(** A literal [{k1: v1, ..., kn: vn}]: the entries are set in turn, so
    that a key written twice keeps its first place and its last value. *)
Definition dict_literal (items : list (K * V)) : list (K * V) :=
  fold_left (fun d kv => dict_set d (fst kv) (snd kv)) items [].

End Dict.

(** The metadata structure: each group is a mapping from tag id to value,
    or something else (the thumbnail is [bytes] or [None]). *)
Inductive group : Type :=
| GDict (tags : list (Z * value))
| GOther (v : value).

Definition exif_dict : Type := list (string * group).

(** [exif_dict.get(name, {})] *)
Definition exif_get (exif : exif_dict) (name : string) : group :=
  match dict_get String.eqb exif name with
  | Some g => g
  | None => GDict []
  end.

(** [g[k]] for a group *)
Definition group_getitem (g : group) (k : Z) : result value :=
  match g with
  | GDict d =>
      match dict_get Z.eqb d k with
      | Some v => Ok v
      | None => Raise KeyError
      end
  | GOther v => getitem v k
  end.

(** [g.get(k)] for a group: only a [dict] has the method. *)
Definition group_get (g : group) (k : Z) : result value :=
  match g with
  | GDict d =>
      match dict_get Z.eqb d k with
      | Some v => Ok v
      | None => Ok VNone
      end
  | GOther _ => Raise AttributeError
  end.

(** ** The page and the file system

    What the program does to the outside: the calls it makes on the
    page, in order, and the files it writes and removes. *)

Inductive st_event : Type :=
| StPageConfig
| StTitle (text : string)
| StTabs (labels : list string)
| StImage (caption : string)
| StMarkdown (text : string)
| StSubheader (text : string)
| StWrite (text : string)
| StInfo (text : string)
| StWarning (text : string) (cause : exn)
| StMap (lat lon : float).

Record world : Type := mkWorld {
  page : list st_event;
  files : string -> option (list byte)
}.

(** A computation: it ends with a value or an exception, and leaves a
    world either way. *)
Definition M (A : Type) : Type := world -> result A * world.

Definition ret {A} (a : A) : M A := fun w => (Ok a, w).

Definition bind {A B} (m : M A) (k : A -> M B) : M B :=
  fun w => match m w with
           | (Ok a, w') => k a w'
           | (Raise e, w') => (Raise e, w')
           end.

Definition lift {A} (r : result A) : M A := fun w => (r, w).

(** [try: body except <handles>: handler] *)
Definition try_except {A} (body : M A) (handles : exn -> bool)
    (handler : exn -> M A) : M A :=
  fun w => match body w with
           | (Raise e, w') => if handles e then handler e w' else (Raise e, w')
           | ok => ok
           end.

Declare Scope M_scope.
Delimit Scope M_scope with M.
Notation "x <- m ;; k" := (bind m (fun x => k))
  (at level 61, m at next level, right associativity) : M_scope.
Notation "m ;; k" := (bind m (fun _ => k))
  (at level 61, right associativity) : M_scope.

Definition emit (ev : st_event) : M unit :=
  fun w => (Ok tt, mkWorld (page w ++ [ev]) (files w)).

(** [with open(path, "wb") as f: f.write(data)].  The file system may
    refuse: [refusal path data old], for the content [old] that was at
    [path], is [None] when the write goes through, and otherwise the
    exception raised and what the attempt leaves at [path] (the old
    content, nothing, or a part of [data]). *)
Definition write_file
    (refusal : string -> list byte -> option (list byte)
               -> option (exn * option (list byte)))
    (path : string) (data : list byte) : M unit :=
  fun w =>
    match refusal path data (files w path) with
    | None =>
        (Ok tt, mkWorld (page w)
                  (fun p => if String.eqb p path then Some data else files w p))
    | Some (e, remains) =>
        (Raise e, mkWorld (page w)
                    (fun p => if String.eqb p path then remains else files w p))
    end.

(** What is read back from [path]. *)
Definition file_content (path : string) : M (list byte) :=
  fun w => match files w path with
           | Some data => (Ok data, w)
           | None => (Raise (LibraryError "FileNotFoundError"), w)
           end.

(** [os.remove(path)] *)
Definition os_remove (path : string) : M unit :=
  fun w => match files w path with
           | Some _ => (Ok tt, mkWorld (page w)
                                 (fun p => if String.eqb p path then None else files w p))
           | None => (Raise (LibraryError "FileNotFoundError"), w)
           end.

(** [for x in xs: body x] *)
Fixpoint for_each {A} (xs : list A) (body : A -> M unit) : M unit :=
  match xs with
  | [] => ret tt
  | x :: xs' => (body x ;; for_each xs' body)%M
  end.

(** ** get_decimal_from_dms *)

(** The first four lines of the [try] body: the three quotients and
    their sum, [decimal]. *)
Definition dms_sum (dms : value) : result float :=
  (d0 <- getitem dms 0 ;; n0 <- getitem d0 0 ;;
   d0' <- getitem dms 0 ;; m0 <- getitem d0' 1 ;;
   degrees <- truediv n0 m0 ;;
   d1 <- getitem dms 1 ;; n1 <- getitem d1 0 ;;
   d1' <- getitem dms 1 ;; m1 <- getitem d1' 1 ;;
   minutes <- truediv n1 m1 ;;
   d2 <- getitem dms 2 ;; n2 <- getitem d2 0 ;;
   d2' <- getitem dms 2 ;; m2 <- getitem d2' 1 ;;
   seconds <- truediv n2 m2 ;;
   min60 <- py_truediv_int (PFloat minutes) 60 ;;
   let partial := Fadd degrees min60 in
   sec3600 <- py_truediv_int (PFloat seconds) 3600 ;;
   Ok (Fadd partial sec3600))%result.

(** The whole [try] body: the sum, negated for a southern or western
    reference, and rounded. *)
Definition dms_arith (dms : value) (ref : string) : result float :=
  (decimal <- dms_sum dms ;;
   decimal' <- (if existsb (String.eqb ref) ["S"; "W"]
                then (neg1 <- float_of_int (-1) ;; Ok (Fmul decimal neg1))
                else Ok decimal) ;;
   py_round decimal' 8)%result.

Definition get_decimal_from_dms (dms : value) (ref : string) : M (option float) :=
  try_except
    (r <- lift (dms_arith dms ref) ;; ret (Some r))%M
    (fun _ => true)
    (fun e => (emit (StWarning "Failed to convert GPS to decimal: " e) ;; ret None)%M).

(** *** The exact coordinate

    A well-formed triple of rationals, the rational it stands for, and
    the size of its terms. *)

Definition dms_triple (n0 d0 n1 d1 n2 d2 : Z) : value :=
  VTuple [ TTup [TInt n0; TInt d0]; TTup [TInt n1; TInt d1];
           TTup [TInt n2; TInt d2] ].

Definition exact_decimal (n0 d0 n1 d1 n2 d2 : Z) : Q :=
  (ratio n0 d0 + ratio n1 d1 / 60 + ratio n2 d2 / 3600)%Q.

Definition magnitude (n0 d0 n1 d1 n2 d2 : Z) : Q :=
  (Qabs (ratio n0 d0) + Qabs (ratio n1 d1) / 60 + Qabs (ratio n2 d2) / 3600)%Q.

(** The sign the reference gives: south and west are negative. *)
Definition hemisphere (ref : string) (q : Q) : Q :=
  if existsb (String.eqb ref) ["S"; "W"] then (- q)%Q else q.

(** ** extract_gps_coords *)

(** The tag numbers of [piexif.GPSIFD] and [piexif.ImageIFD] that the
    code names.  The library is not part of the sources: the numbers are
    a parameter of the functions that use them. *)
Record piexif_ids : Type := mkIds {
  ImageIFD_Make : Z;
  ImageIFD_Model : Z;
  ImageIFD_Orientation : Z;
  ImageIFD_XResolution : Z;
  ImageIFD_YResolution : Z;
  ImageIFD_ResolutionUnit : Z;
  ImageIFD_Software : Z;
  GPSIFD_GPSLatitudeRef : Z;
  GPSIFD_GPSLatitude : Z;
  GPSIFD_GPSLongitudeRef : Z;
  GPSIFD_GPSLongitude : Z
}.

Definition is_KeyError (e : exn) : bool :=
  match e with
  | KeyError => true
  | _ => false
  end.

Definition extract_gps_coords (ids : piexif_ids) (exif : exif_dict)
  : M (option float * option float) :=
  let gps := exif_get exif "GPS" in
  try_except
    (lat_dms <- lift (group_getitem gps (GPSIFD_GPSLatitude ids)) ;;
     lat_ref <- lift (group_getitem gps (GPSIFD_GPSLatitudeRef ids)) ;;
     lat_ref' <- lift (value_decode lat_ref) ;;
     lat <- get_decimal_from_dms lat_dms lat_ref' ;;
     lon_dms <- lift (group_getitem gps (GPSIFD_GPSLongitude ids)) ;;
     lon_ref <- lift (group_getitem gps (GPSIFD_GPSLongitudeRef ids)) ;;
     lon_ref' <- lift (value_decode lon_ref) ;;
     lon <- get_decimal_from_dms lon_dms lon_ref' ;;
     ret (lat, lon))%M
    is_KeyError
    (fun _ => ret (None, None)).

(** ** get_primary_exif_values *)

(** [tag_map]: the seven tags of the primary group and their labels. *)
Definition tag_map (ids : piexif_ids) : list (Z * string) :=
  dict_literal Z.eqb
    [ (ImageIFD_Make ids, "Make"); (ImageIFD_Model ids, "Model");
      (ImageIFD_Orientation ids, "Orientation");
      (ImageIFD_XResolution ids, "XResolution");
      (ImageIFD_YResolution ids, "YResolution");
      (ImageIFD_ResolutionUnit ids, "ResolutionUnit");
      (ImageIFD_Software ids, "Software") ].

(** The loop over [tag_map.items()], with [primary_info] as it grows. *)
Fixpoint primary_loop (ifd : group) (items : list (Z * string))
    (primary_info : list (string * value)) : result (list (string * value)) :=
  match items with
  | [] => Ok primary_info
  | (tag_id, label) :: items' =>
      (v <- group_get ifd tag_id ;;
       primary_loop ifd items'
         (dict_set String.eqb primary_info label (decode_if_bytes v)))%result
  end.

Definition get_primary_exif_values (ids : piexif_ids) (exif : exif_dict)
  : result (list (string * value)) :=
  primary_loop (exif_get exif "0th") (tag_map ids) [].

(** What the record holds for a tag of the primary group: the value
    found, decoded, or [None]. *)
Definition primary_value (ifd : list (Z * value)) (tag_id : Z) : value :=
  match dict_get Z.eqb ifd tag_id with
  | Some v => decode_if_bytes v
  | None => VNone
  end.

(** ** display_all_exif *)

(** [piexif.TAGS]: for each group name, the known tag ids and their
    names.  The table belongs to the library; the code only looks names
    up in it. *)
Definition tag_table : Type := list (string * list (Z * string)).

Definition tag_label (defs : list (Z * string)) (tag : Z) : string :=
  match dict_get Z.eqb defs tag with
  | Some name => name
  | None => ("Tag " ++ str_Z tag)%string
  end.

Definition is_truthy_group (g : group) : bool :=
  match g with
  | GDict [] => false
  | GDict _ => true
  | GOther VNone => false
  | GOther (VInt z) => negb (z =? 0)
  | GOther (VStr s) => negb (String.eqb s EmptyString)
  | GOther (VBytes []) => false
  | GOther (VBytes _) => true
  | GOther (VTuple []) => false
  | GOther (VTuple _) => true
  end.

Definition display_group (TAGS : tag_table) (entry : string * group) : M unit :=
  let '(ifd_name, tag_data) := entry in
  match tag_data with
  | GOther _ => ret tt
  | GDict [] => ret tt
  | GDict tags =>
      (emit (StSubheader (ifd_name ++ " EXIF")) ;;
       let tag_definitions :=
         match dict_get String.eqb TAGS ifd_name with
         | Some defs => defs
         | None => []
         end in
       for_each tags (fun tv =>
         let '(tag, v) := tv in
         emit (StWrite ("**" ++ tag_label tag_definitions tag ++ ":** "
                          ++ py_str (decode_if_bytes v)))))%M
  end.

Definition display_all_exif (TAGS : tag_table) (exif : exif_dict) : M unit :=
  for_each exif (display_group TAGS).

(** *** What the dump is meant to show

    A group is shown when it is a mapping and not empty; a shown group
    gives its heading and one line for each of its tags. *)

Definition is_shown (g : group) : bool :=
  match g with
  | GDict (_ :: _) => true
  | _ => false
  end.

(** The name the static table has for a tag id of a group, where it has
    one. *)
Definition table_name (TAGS : tag_table) (ifd_name : string) (tag : Z) : option string :=
  match find (fun g => String.eqb (fst g) ifd_name) TAGS with
  | Some g => option_map snd (find (fun d => Z.eqb (fst d) tag) (snd g))
  | None => None
  end.

(** The label of a line: the name from the table, or [Tag <id>] for an
    id the table does not know. *)
Definition shown_name (TAGS : tag_table) (ifd_name : string) (tag : Z) : string :=
  match table_name TAGS ifd_name tag with
  | Some name => name
  | None => "Tag " ++ str_Z tag
  end.

(** The text of a value on the page: a byte sequence as the text it
    decodes to, what does not decode being left out; any other value as
    [str] prints it. *)
Definition shown_text (v : value) : string :=
  match v with
  | VBytes b => bytes_decode_ignore b
  | VNone => "None"
  | VInt z => str_Z z
  | VStr s => s
  | VTuple l => tuple_text (map tval_repr l)
  end.

Definition tag_line (TAGS : tag_table) (ifd_name : string) (tv : Z * value) : st_event :=
  StWrite ("**" ++ shown_name TAGS ifd_name (fst tv) ++ ":** " ++ shown_text (snd tv)).

Definition group_tags (g : group) : list (Z * value) :=
  match g with
  | GDict tags => tags
  | GOther _ => []
  end.

Definition group_block (TAGS : tag_table) (entry : string * group) : list st_event :=
  if is_shown (snd entry)
  then StSubheader (fst entry ++ " EXIF")
         :: map (tag_line TAGS (fst entry)) (group_tags (snd entry))
  else [].


(** ** main *)

(** What [PIL.Image.open] gives: the attributes the page shows and the
    embedded metadata payload, where there is one. *)
Record image : Type := mkImage {
  img_format : string;
  img_width : Z;
  img_height : Z;
  img_mode : string;
  img_exif : option (list byte)
}.

(** The libraries and the operating system, as far as [main] uses them.
    Each call that can fail in the source can fail here. *)
Record platform : Type := mkPlatform {
  ids : piexif_ids;
  Image_open : list byte -> result image;
  st_image : image -> result unit;
  piexif_load : list byte -> result exif_dict;
  TAGS : tag_table;
  mtime_text : string -> string;
  float_str : float -> string;
  fs_write : string -> list byte -> option (list byte)
             -> option (exn * option (list byte))
}.

Record upload : Type := mkUpload {
  up_name : string;
  up_data : list byte
}.

Definition temp_path : string := "temp_image.jpg".

Definition show_primary (entry : string * value) : M unit :=
  let '(label, v) := entry in
  match v with
  | VNone => ret tt
  | _ => emit (StWrite ("**" ++ label ++ ":** " ++ py_str v))
  end.

Definition main (P : platform) (uploaded_file : option upload) : M unit :=
  (emit StPageConfig ;;
   emit (StTitle "📷 Image Info & GPS Mapper") ;;
   match uploaded_file with
   | None => ret tt
   | Some up =>
       write_file (fs_write P) temp_path (up_data up) ;;
       data <- file_content temp_path ;;
       image <- lift (Image_open P data) ;;
       exif <- lift (piexif_load P (match img_exif image with
                                    | Some payload => payload
                                    | None => []
                                    end)) ;;
       emit (StTabs ["🧭 Summary"; "📑 More Metadata"]) ;;
       lift (st_image P image) ;;
       emit (StImage "Uploaded Image") ;;
       emit (StMarkdown "### 🗂️ Basic Info") ;;
       emit (StWrite ("**File Name:** " ++ up_name up)) ;;
       size <- lift (format_bytes (PInt (Z.of_nat (List.length data)))) ;;
       emit (StWrite ("**Size:** " ++ size)) ;;
       emit (StWrite ("**Modified:** " ++ mtime_text P temp_path)) ;;
       emit (StWrite ("**Format:** " ++ img_format image)) ;;
       emit (StWrite ("**Dimensions:** " ++ str_Z (img_width image) ++ " × "
                        ++ str_Z (img_height image))) ;;
       emit (StWrite ("**Mode:** " ++ img_mode image)) ;;
       emit (StMarkdown "### 📸 Camera Info") ;;
       primary <- lift (get_primary_exif_values (ids P) exif) ;;
       for_each primary show_primary ;;
       emit (StMarkdown "### 🗺️ GPS Map") ;;
       coords <- extract_gps_coords (ids P) exif ;;
       match coords with
       | (Some lat, Some lon) =>
           emit (StWrite ("**Latitude:** " ++ float_str P lat)) ;;
           emit (StWrite ("**Longitude:** " ++ float_str P lon)) ;;
           emit (StMap lat lon)
       | _ => emit (StInfo "No GPS data found in this image.")
       end ;;
       emit (StMarkdown "### 🧬 Full EXIF Metadata") ;;
       (if existsb is_truthy_group (map snd exif)
        then display_all_exif (TAGS P) exif
        else emit (StWrite "No EXIF data found.")) ;;
       os_remove temp_path
   end)%M.

(** ** Notions used in the statements *)

(** The unit roundoff of binary64, and half the smallest positive float. *)
Definition u53 : Q := pow2 (-53).
Definition eta : Q := pow2 (-1075).

(** A float of at most 53 significant bits, within the exponent range. *)
Definition representable (f : float) : Prop :=
  match f with
  | FFin _ m e =>
      Zpos m < 2 ^ 53 /\ emin <= e /\ (inject_Z (Zpos m) * pow2 e < pow2 emax)%Q
  | _ => True
  end.

(** A finite float of sign [neg] that holds the rational [q] exactly. *)
Definition holds (f : float) (neg : bool) (q : Q) : Prop :=
  is_finite f = true /\ is_neg f = neg /\ (F2Q f == q)%Q.

(** A finite float within [eps] of [x]. *)
Definition near (f : float) (x eps : Q) : Prop :=
  is_finite f = true /\ (x - eps <= F2Q f)%Q /\ (F2Q f <= x + eps)%Q.

(** Half a unit of the eighth decimal place. *)
Definition half_unit8 : Q := 1 # 200000000.

(** [float(-1)] *)
Definition neg_one : float := FFin true 4503599627370496 (-52).

Definition rmap {A B} (g : A -> B) (r : result A) : result B :=
  match r with
  | Ok a => Ok (g a)
  | Raise e => Raise e
  end.

(** A float as the standard library's specification of binary64 writes it. *)
Definition to_spec (f : Float.float) : SpecFloat.spec_float :=
  match f with
  | FNan => SpecFloat.S754_nan
  | FInf s => SpecFloat.S754_infinity s
  | FZero s => SpecFloat.S754_zero s
  | FFin s m e => SpecFloat.S754_finite s m e
  end.

(** The seven tag numbers that [tag_map] names, and what it is for
    numbers to be pairwise different, as the library's are. *)
Definition camera_tags (ids : piexif_ids) : list Z :=
  [ ImageIFD_Make ids; ImageIFD_Model ids; ImageIFD_Orientation ids;
    ImageIFD_XResolution ids; ImageIFD_YResolution ids;
    ImageIFD_ResolutionUnit ids; ImageIFD_Software ids ].

Fixpoint distinct (l : list Z) : bool :=
  match l with
  | [] => true
  | x :: t => negb (existsb (Z.eqb x) t) && distinct t
  end.

(** The world after the warning of [get_decimal_from_dms]. *)
Definition warned (w : world) (e : exn) : world :=
  mkWorld (page w ++ [StWarning "Failed to convert GPS to decimal: " e]) (files w).

(** An empty page and no files. *)
Definition w0 : world := mkWorld [] (fun _ => None).

(** The numbers the TIFF and EXIF standards give the eleven tags; the
    concrete inputs below are written with them. *)
Definition exif_ids : piexif_ids := mkIds 271 272 274 282 283 296 305 1 2 3 4.

(** What [piexif.load] gives for an image without metadata. *)
Definition empty_exif : exif_dict :=
  [ ("0th", GDict []); ("Exif", GDict []); ("GPS", GDict []); ("Interop", GDict []);
    ("1st", GDict []); ("thumbnail", GOther VNone) ].

Definition all_missing : list (string * value) :=
  [ ("Make", VNone); ("Model", VNone); ("Orientation", VNone);
    ("XResolution", VNone); ("YResolution", VNone);
    ("ResolutionUnit", VNone); ("Software", VNone) ].

(** A GPS group with a latitude and no longitude. *)
Definition latitude_only : exif_dict :=
  [ ("GPS", GDict [ (1, VBytes [x4e]%byte); (2, dms_triple 40 1 26 1 0 1) ]) ].

(** The same, with a latitude reference that is no UTF-8. *)
Definition undecodable_reference : exif_dict :=
  [ ("GPS", GDict [ (1, VBytes [xff]%byte); (2, dms_triple 40 1 26 1 0 1) ]) ].

(** Libraries that cannot identify the upload as an image. *)
Definition unreadable_platform : platform :=
  mkPlatform exif_ids
             (fun _ => Raise (LibraryError "UnidentifiedImageError"))
             (fun _ => Ok tt)
             (fun _ => Ok empty_exif)
             []
             (fun _ => "2026-01-01 00:00:00")
             (fun _ => "0.0")
             (fun _ _ _ => None).

(** A text file under the name of a photograph. *)
Definition text_upload : upload :=
  mkUpload "notes.jpg" [x68; x65; x6c; x6c; x6f]%byte.

(** ** Further notions *)

(** A float that is a number: finite, or an infinity. *)
Definition is_number (f : float) : bool :=
  match f with
  | FNan => false
  | _ => true
  end.

(** A float that is a number and not negative. *)
Definition nonneg (f : float) : Prop :=
  is_number f = true /\ is_neg f = false /\ (0 <= F2Q f)%Q.

(** The coordinate on the other side of the equator or of the prime
    meridian; a failed conversion stays failed. *)
Definition negated (r : option float) : option float := option_map Fopp r.


(** A computation that leaves the file at [p] as it was, however it ends. *)
Definition spares (p : string) {A} (m : M A) : Prop :=
  forall w, files (snd (m w)) p = files w p.

(** What has become of the temporary file at the end of a pass that had
    written [data] to it: gone after a normal end, still there with the
    upload after an exception. *)
Definition removed_iff_normal (data : list byte) (out : result unit * world) : Prop :=
  match fst out with
  | Ok _ => files (snd out) temp_path = None
  | Raise _ => files (snd out) temp_path = Some data
  end.

(** 40 degrees 26 minutes north, 79 degrees 58 minutes west. *)
Definition pittsburgh_exif : exif_dict :=
  [ ("GPS", GDict [ (1, VBytes [x4e]%byte); (2, dms_triple 40 1 26 1 0 1);
                    (3, VBytes [x57]%byte); (4, dms_triple 79 1 58 1 0 1) ]) ].

(** A GPS group whose latitude reference is a [str], not [bytes]. *)
Definition text_reference : exif_dict :=
  [ ("GPS", GDict [ (1, VStr "N"); (2, dms_triple 40 1 26 1 0 1) ]) ].

(** A primary group that is no mapping. *)
Definition primary_not_mapping : exif_dict := [ ("0th", GOther (VBytes [])) ].

(** A primary group with the maker as bytes and the orientation as a
    number. *)
Definition canon_exif : exif_dict :=
  [ ("0th", GDict [ (271, VBytes [x43; x61; x6e; x6f; x6e]%byte); (274, VInt 1) ]) ].

(** A structure whose only content is a thumbnail. *)
Definition thumbnail_only : exif_dict :=
  [ ("0th", GDict []); ("Exif", GDict []); ("GPS", GDict []); ("Interop", GDict []);
    ("1st", GDict []); ("thumbnail", GOther (VBytes [xff; xd8]%byte)) ].

(** The seven labels, and what the camera section is meant to show for
    a primary group: for each of the seven tags in turn, a line with the
    label and the text of the value where the group has the tag with a
    value other than [None], and nothing where it has not. *)
Definition camera_labels : list string :=
  [ "Make"; "Model"; "Orientation"; "XResolution"; "YResolution";
    "ResolutionUnit"; "Software" ].

Definition camera_lines (ids : piexif_ids) (ifd : list (Z * value)) : list st_event :=
  flat_map (fun tl =>
              match dict_get Z.eqb ifd (fst tl) with
              | None | Some VNone => []
              | Some v => [StWrite ("**" ++ snd tl ++ ":** " ++ shown_text v)]
              end)
           (combine (camera_tags ids) camera_labels).

(** What has become of the temporary file at the end of a pass with the
    upload [up] that started in the world [w].  Where the file system
    refuses the write, the pass ends in that exception and the path holds
    what the attempt left.  Where the write goes through, the file is
    gone after a normal end and holds the upload after an exception. *)
Definition temp_file_fate (P : platform) (up : upload) (w : world)
    (out : result unit * world) : Prop :=
  match fs_write P temp_path (up_data up) (files w temp_path) with
  | Some (e, remains) => fst out = Raise e /\ files (snd out) temp_path = remains
  | None => removed_iff_normal (up_data up) out
  end.

(** An image that carries no metadata, and the first bytes of a JPEG
    file under the name of a photograph. *)
Definition plain_image : image := mkImage "JPEG" 640 480 "RGB" None.

Definition photo_upload : upload :=
  mkUpload "photo.jpg" [xff; xd8; xff; xe0]%byte.

(** Libraries before such an image: the imaging library opens it and
    finds no payload; the metadata library, handed the empty byte string in
    its place, takes it for the name of a file and finds none.  (No other
    payload is met in a pass with these.) *)
Definition payload_free_platform : platform :=
  mkPlatform exif_ids
             (fun _ => Ok plain_image)
             (fun _ => Ok tt)
             (fun payload => match payload with
                             | [] => Raise (LibraryError "FileNotFoundError")
                             | _ => Raise (LibraryError "InvalidImageDataError")
                             end)
             []
             (fun _ => "2026-01-01 00:00:00")
             (fun _ => "0.0")
             (fun _ _ _ => None).

(** * Properties *)

(** ** Rounding to nearest *)

Section Rounding.
Local Open Scope Q_scope.

Lemma pow2_pos e : 0 < pow2 e.
Proof. unfold pow2. apply Qpower_0_lt. reflexivity. Qed.

Lemma pow2_add a b : pow2 (a + b) == pow2 a * pow2 b.
Proof. unfold pow2. apply Qpower_plus. discriminate. Qed.

Lemma pow2_le a b : (a <= b)%Z -> pow2 a <= pow2 b.
Proof. intros H. unfold pow2. apply Qpower_le_compat_l; [exact H | discriminate]. Qed.

Lemma pow2_Z n : (0 <= n)%Z -> pow2 n == inject_Z (2 ^ n).
Proof. intros H. unfold pow2. symmetry. apply (Zpower_Qpower 2 n H). Qed.

Lemma pow2_succ a : pow2 (a + 1) == 2 * pow2 a.
Proof. rewrite pow2_add. change (pow2 1) with 2. ring. Qed.

Lemma rhe_bounds x : inject_Z (rhe x) - (1 # 2) <= x /\ x <= inject_Z (rhe x) + (1 # 2).
Proof.
  unfold rhe.
  pose proof (Qfloor_le x) as Hlo. pose proof (Qlt_floor x) as Hhi.
  rewrite inject_Z_plus in Hhi. change (inject_Z 1) with 1 in Hhi.
  destruct (Qcompare_spec (x - inject_Z (Qfloor x)) (1 # 2)) as [E | L | G].
  - destruct (Z.even (Qfloor x)).
    + split; lra.
    + rewrite inject_Z_plus. change (inject_Z 1) with 1. split; lra.
  - split; lra.
  - rewrite inject_Z_plus. change (inject_Z 1) with 1. split; lra.
Qed.

Lemma Qabs_pos_num q : (Qnum q <> 0)%Z -> 0 < Qabs q /\ (0 < Qnum (Qabs q))%Z.
Proof.
  destruct q as [n d]. simpl. intros H. unfold Qlt. simpl. lia.
Qed.

Lemma Q_as_frac (a : Q) : a * inject_Z (Zpos (Qden a)) == inject_Z (Qnum a).
Proof.
  destruct a as [n d]. unfold Qeq, inject_Z. simpl. lia.
Qed.

Lemma Qlog2_bounds (a : Q) :
  (0 < Qnum a)%Z ->
  let l := (Z.log2 (Qnum a) - Z.log2 (Zpos (Qden a)))%Z in
  pow2 (l - 1) < a /\ a < pow2 (l + 1).
Proof.
  intros Hn l.
  pose proof (Q_as_frac a) as Hfrac.
  assert (Hd : (0 < Zpos (Qden a))%Z) by reflexivity.
  destruct (Z.log2_spec _ Hn) as [Hn1 Hn2].
  destruct (Z.log2_spec _ Hd) as [Hd1 Hd2].
  pose proof (Z.log2_nonneg (Qnum a)) as Hln.
  pose proof (Z.log2_nonneg (Zpos (Qden a))) as Hld.
  set (ln := Z.log2 (Qnum a)) in *. set (ld := Z.log2 (Zpos (Qden a))) in *.
  assert (Ha : 0 < a) by (unfold Qlt; simpl; lia).
  assert (HD : 0 < inject_Z (Zpos (Qden a))) by reflexivity.
  assert (E1 : pow2 (l - 1) * pow2 (ld + 1) == pow2 ln).
  { rewrite <- pow2_add. replace (l - 1 + (ld + 1))%Z with ln by (unfold l; lia). reflexivity. }
  assert (E2 : pow2 (l + 1) * pow2 ld == pow2 (ln + 1)).
  { rewrite <- pow2_add. replace (l + 1 + ld)%Z with (ln + 1)%Z by (unfold l; lia). reflexivity. }
  rewrite (pow2_Z ln) in E1 by lia. rewrite (pow2_Z (ld + 1)) in E1 by lia.
  rewrite (pow2_Z (ln + 1)) in E2 by lia. rewrite (pow2_Z ld) in E2 by lia.
  assert (Q1 : inject_Z (2 ^ ln) <= inject_Z (Qnum a)) by (rewrite <- Zle_Qle; exact Hn1).
  assert (Q2 : inject_Z (Qnum a) < inject_Z (2 ^ (ln + 1))).
  { rewrite <- Zlt_Qlt. replace (ln + 1)%Z with (Z.succ ln) by lia. exact Hn2. }
  assert (Q3 : inject_Z (2 ^ ld) <= inject_Z (Zpos (Qden a))) by (rewrite <- Zle_Qle; exact Hd1).
  assert (Q4 : inject_Z (Zpos (Qden a)) < inject_Z (2 ^ (ld + 1))).
  { rewrite <- Zlt_Qlt. replace (ld + 1)%Z with (Z.succ ld) by lia. exact Hd2. }
  pose proof (pow2_pos (l - 1)) as P1. pose proof (pow2_pos (l + 1)) as P2.
  set (p1 := pow2 (l - 1)) in *. set (p2 := pow2 (l + 1)) in *.
  set (N := inject_Z (Qnum a)) in *. set (D := inject_Z (Zpos (Qden a))) in *.
  set (A := inject_Z (2 ^ ln)) in *. set (A' := inject_Z (2 ^ (ln + 1))) in *.
  set (B := inject_Z (2 ^ ld)) in *. set (B' := inject_Z (2 ^ (ld + 1))) in *.
  split.
  - destruct (Qlt_le_dec p1 a) as [|C]; [assumption|exfalso]. nra.
  - destruct (Qlt_le_dec a p2) as [|C]; [assumption|exfalso].
    assert (0 < B) by (unfold B; rewrite <- pow2_Z by lia; apply pow2_pos).
    nra.
Qed.

Lemma ulp_exp_spec a :
  (0 < Qnum a)%Z ->
  (emin <= ulp_exp a)%Z /\
  a < pow2 (ulp_exp a + 53) /\
  ((emin < ulp_exp a)%Z -> pow2 (ulp_exp a + 52) <= a).
Proof.
  intros Hn. unfold ulp_exp.
  set (e1 := (Z.log2 (Qnum a) - Z.log2 (Zpos (Qden a)) - prec)%Z).
  destruct (Qlog2_bounds a Hn) as [Hlo Hhi]. cbv zeta in Hlo, Hhi.
  replace (Z.log2 (Qnum a) - Z.log2 (Zpos (Qden a)) - 1)%Z with (e1 + 52)%Z in Hlo
    by (unfold e1, prec; lia).
  replace (Z.log2 (Qnum a) - Z.log2 (Zpos (Qden a)) + 1)%Z with (e1 + 54)%Z in Hhi
    by (unfold e1, prec; lia).
  change prec with 53%Z.
  set (e2 := if Qle_bool (pow2 (e1 + 53)) a then (e1 + 1)%Z else e1).
  assert (H2 : pow2 (e2 + 52) <= a /\ a < pow2 (e2 + 53)).
  { unfold e2. destruct (Qle_bool (pow2 (e1 + 53)) a) eqn:T.
    - apply Qle_bool_iff in T.
      replace (e1 + 1 + 52)%Z with (e1 + 53)%Z by lia.
      replace (e1 + 1 + 53)%Z with (e1 + 54)%Z by lia. split; assumption.
    - split; [apply Qlt_le_weak; exact Hlo|].
      destruct (Qlt_le_dec a (pow2 (e1 + 53))) as [|C]; [assumption|].
      apply Qle_bool_iff in C. congruence. }
  destruct H2 as [H2a H2b].
  destruct (Z.max_spec e2 emin) as [[Hc ->] | [Hc ->]].
  - split; [lia|]. split.
    + eapply Qlt_le_trans; [exact H2b|]. apply pow2_le. lia.
    + intros H; lia.
  - split; [exact Hc|]. split; [exact H2b|]. intros _; exact H2a.
Qed.

Lemma rhe_le_Z x k : x <= inject_Z k -> (rhe x <= k)%Z.
Proof.
  intros H. destruct (rhe_bounds x) as [B1 _].
  assert (L : inject_Z (rhe x) < inject_Z (k + 1)).
  { rewrite inject_Z_plus. change (inject_Z 1) with 1. lra. }
  rewrite <- Zlt_Qlt in L. lia.
Qed.

Lemma rhe_ge_Z x k : inject_Z k <= x -> (k <= rhe x)%Z.
Proof.
  intros H. destruct (rhe_bounds x) as [_ B2].
  assert (L : inject_Z k < inject_Z (rhe x + 1)).
  { rewrite inject_Z_plus. change (inject_Z 1) with 1. lra. }
  rewrite <- Zlt_Qlt in L. lia.
Qed.

Lemma rhe_comp x y : x == y -> rhe x = rhe y.
Proof.
  intros H. unfold rhe. rewrite (Qfloor_comp _ _ H).
  assert (E : x - inject_Z (Qfloor y) == y - inject_Z (Qfloor y)) by (rewrite H; reflexivity).
  rewrite E. reflexivity.
Qed.

Lemma rhe_inject z : rhe (inject_Z z) = z.
Proof.
  pose proof (rhe_le_Z (inject_Z z) z ltac:(apply Qle_refl)).
  pose proof (rhe_ge_Z (inject_Z z) z ltac:(apply Qle_refl)). lia.
Qed.

(** Rounding the mantissa at a given exponent. *)
Lemma round_at a e :
  0 <= a ->
  let M := rhe (a / pow2 e) in
  (0 <= M)%Z /\
  a - pow2 e * (1 # 2) <= inject_Z M * pow2 e /\
  inject_Z M * pow2 e <= a + pow2 e * (1 # 2).
Proof.
  intros Ha M. pose proof (pow2_pos e) as P.
  assert (Hx : a / pow2 e * pow2 e == a) by (field; lra).
  destruct (rhe_bounds (a / pow2 e)) as [B1 B2]. fold M in B1, B2.
  assert (X0 : 0 <= a / pow2 e).
  { apply Qle_shift_div_l; [exact P|]. lra. }
  split.
  - apply (rhe_ge_Z _ 0). exact X0.
  - set (x := a / pow2 e) in *. set (p := pow2 e) in *. split; nra.
Qed.

#[global] Instance Qsigned_comp : Proper (eq ==> Qeq ==> Qeq) Qsigned.
Proof. intros s s' <- x y H. destruct s; unfold Qsigned; rewrite H; reflexivity. Qed.

Lemma Qsigned_abs q : q == Qsigned (Qnum q <? 0)%Z (Qabs q).
Proof.
  destruct q as [n d]. unfold Qsigned, Qabs. simpl.
  destruct (Z.ltb_spec n 0); unfold Qeq, Qopp; simpl; lia.
Qed.

Lemma Qsigned_diff s x y : Qabs (Qsigned s x - Qsigned s y) == Qabs (x - y).
Proof.
  destruct s; unfold Qsigned; [|reflexivity].
  rewrite <- (Qabs_opp (x - y)). apply Qabs_wd. ring.
Qed.

Lemma mk_float_spec s M e :
  (0 <= M)%Z ->
  is_finite (mk_float s M e) = true /\
  is_neg (mk_float s M e) = s /\
  F2Q (mk_float s M e) == Qsigned s (inject_Z M * pow2 e).
Proof.
  intros HM. destruct M as [|p|p]; [| |lia].
  - simpl. repeat split. destruct s; simpl; ring.
  - unfold mk_float. destruct (Pos.eqb_spec p 9007199254740992) as [->|_].
    + repeat split. unfold F2Q.
      assert (E : inject_Z 9007199254740992 == 2 * inject_Z 4503599627370496) by reflexivity.
      destruct s; unfold Qsigned; rewrite pow2_succ, E; ring.
    + repeat split.
Qed.

Lemma RN_core_spec zs q :
  (Qnum q <> 0)%Z ->
  let M := rhe (Qabs q / pow2 (ulp_exp (Qabs q))) in
  inject_Z M * pow2 (ulp_exp (Qabs q)) < pow2 emax ->
  is_finite (RN_core zs q) = true /\
  is_neg (RN_core zs q) = (Qnum q <? 0)%Z /\
  F2Q (RN_core zs q) == Qsigned (Qnum q <? 0)%Z (inject_Z M * pow2 (ulp_exp (Qabs q))).
Proof.
  intros Hn M Hov.
  destruct (Qabs_pos_num q Hn) as [Ha _].
  destruct (round_at (Qabs q) (ulp_exp (Qabs q)) (Qlt_le_weak _ _ Ha)) as [M0 _].
  fold M in M0.
  assert (R : RN_core zs q = mk_float (Qnum q <? 0)%Z M (ulp_exp (Qabs q))).
  { unfold RN_core. fold M.
    destruct (Qle_bool (pow2 emax) (inject_Z M * pow2 (ulp_exp (Qabs q)))) eqn:T.
    - apply Qle_bool_iff in T. exfalso. lra.
    - destruct (Qnum q); [congruence|reflexivity|reflexivity]. }
  rewrite R. apply mk_float_spec. exact M0.
Qed.

Lemma RN_core_error zs q :
  Qabs q <= pow2 1023 ->
  is_finite (RN_core zs q) = true /\
  Qabs (F2Q (RN_core zs q) - q) <= Qabs q * u53 + eta.
Proof.
  intros HB.
  assert (U : 0 < u53) by apply pow2_pos.
  assert (Et : 0 < eta) by apply pow2_pos.
  destruct (Z.eq_dec (Qnum q) 0) as [Z0|Hn].
  - unfold RN_core. rewrite Z0. split; [reflexivity|]. simpl F2Q.
    assert (E : q == 0) by (destruct q; simpl in Z0; subst; reflexivity).
    rewrite E. setoid_replace (0 - 0) with 0 by ring. simpl. nra.
  - destruct (Qabs_pos_num q Hn) as [Ha Han].
    destruct (ulp_exp_spec _ Han) as (E1 & E2 & E3).
    destruct (round_at (Qabs q) (ulp_exp (Qabs q)) (Qlt_le_weak _ _ Ha)) as (M0 & R1 & R2).
    set (e := ulp_exp (Qabs q)) in *. set (a := Qabs q) in *.
    set (M := rhe (a / pow2 e)) in *.
    assert (Hulp : pow2 e * (1 # 2) <= a * u53 + eta).
    { destruct (Z.eq_dec e emin) as [->|Hne].
      - assert (K : pow2 emin * (1 # 2) == eta) by reflexivity.
        rewrite K. nra.
      - specialize (E3 ltac:(lia)).
        assert (K : pow2 e * (1 # 2) == pow2 (e + 52) * u53).
        { unfold u53. rewrite pow2_add.
          assert (K' : pow2 52 * pow2 (-53) == 1 # 2) by reflexivity.
          rewrite <- Qmult_assoc, K'. reflexivity. }
        rewrite K. nra. }
    assert (Hov : inject_Z M * pow2 e < pow2 emax).
    { assert (K : pow2 1023 + (pow2 1023 * u53 + eta) < pow2 emax) by reflexivity.
      nra. }
    destruct (RN_core_spec zs q Hn Hov) as (F1 & F2 & F3).
    split; [exact F1|].
    assert (EQ : F2Q (RN_core zs q) - q ==
                 Qsigned (Qnum q <? 0)%Z (inject_Z M * pow2 e) - Qsigned (Qnum q <? 0)%Z a).
    { apply Qplus_comp; [exact F3|]. apply Qopp_comp. apply Qsigned_abs. }
    rewrite EQ, Qsigned_diff. apply Qabs_Qle_condition. split; lra.
Qed.

Lemma RN_comp zs q q' : q == q' -> RN zs q = RN zs q'.
Proof. intros H. unfold RN. rewrite (Qred_complete _ _ H). reflexivity. Qed.

Lemma RN_error zs q :
  Qabs q <= pow2 1023 ->
  is_finite (RN zs q) = true /\
  Qabs (F2Q (RN zs q) - q) <= Qabs q * u53 + eta.
Proof.
  intros HB. unfold RN.
  assert (EA : Qabs (Qred q) == Qabs q) by (apply Qabs_wd, Qred_correct).
  assert (HB' : Qabs (Qred q) <= pow2 1023) by (rewrite EA; exact HB).
  destruct (RN_core_error zs (Qred q) HB') as [F E].
  split; [exact F|].
  assert (EQ : Qabs (F2Q (RN_core zs (Qred q)) - q) ==
               Qabs (F2Q (RN_core zs (Qred q)) - Qred q)).
  { apply Qabs_wd. apply Qplus_comp; [reflexivity|]. apply Qopp_comp.
    symmetry. apply Qred_correct. }
  rewrite EQ, <- EA. exact E.
Qed.

Lemma mk_float_opp s M e : Fopp (mk_float s M e) = mk_float (negb s) M e.
Proof.
  destruct M as [|p|p]; unfold mk_float; try reflexivity.
  destruct (p =? 9007199254740992)%positive; reflexivity.
Qed.

Lemma RN_core_opp zs q : RN_core (negb zs) (- q) = Fopp (RN_core zs q).
Proof.
  destruct q as [n d]. unfold RN_core, Qopp, Qabs. cbn [Qnum Qden].
  rewrite Z.abs_opp.
  destruct n as [|p|p]; [reflexivity| |]; cbn [Z.opp Z.ltb Z.compare];
    match goal with |- (if ?c then _ else _) = _ => destruct c end;
    cbn [Fopp negb]; try reflexivity; symmetry; apply mk_float_opp.
Qed.

Lemma RN_opp zs q : RN (negb zs) (- q) = Fopp (RN zs q).
Proof. unfold RN. rewrite Qred_opp. apply RN_core_opp. Qed.

Lemma mk_float_representable s M e :
  (0 <= M <= 2 ^ 53)%Z -> (emin <= e)%Z ->
  inject_Z M * pow2 e < pow2 emax ->
  representable (mk_float s M e).
Proof.
  intros HM He Hov. destruct M as [|p|p]; [exact I| |lia].
  unfold mk_float. destruct (Pos.eqb_spec p 9007199254740992) as [->|Hne].
  - unfold representable. split; [reflexivity|]. split; [lia|].
    assert (E : inject_Z 4503599627370496 * pow2 (e + 1)
                == inject_Z 9007199254740992 * pow2 e).
    { rewrite pow2_succ.
      assert (E' : inject_Z 9007199254740992 == 2 * inject_Z 4503599627370496) by reflexivity.
      rewrite E'. ring. }
    rewrite E. exact Hov.
  - unfold representable. split; [|split; [exact He|exact Hov]].
    assert (Zpos p <> 2 ^ 53)%Z by (intros C; apply Hne; change (2 ^ 53)%Z with (Zpos 9007199254740992) in C; congruence).
    lia.
Qed.

Lemma RN_core_representable zs q : representable (RN_core zs q).
Proof.
  unfold RN_core. destruct (Z.eq_dec (Qnum q) 0) as [Z0|Hn].
  - rewrite Z0. exact I.
  - destruct (Qabs_pos_num q Hn) as [Ha Han].
    destruct (ulp_exp_spec _ Han) as (E1 & E2 & E3).
    destruct (round_at (Qabs q) (ulp_exp (Qabs q)) (Qlt_le_weak _ _ Ha)) as (M0 & R1 & R2).
    set (e := ulp_exp (Qabs q)) in *. set (a := Qabs q) in *.
    set (M := rhe (a / pow2 e)) in *.
    assert (R : (match Qnum q with
                 | 0%Z => FZero zs
                 | _ => if Qle_bool (pow2 emax) (inject_Z M * pow2 e)
                        then FInf (Qnum q <? 0)%Z else mk_float (Qnum q <? 0)%Z M e
                 end) = if Qle_bool (pow2 emax) (inject_Z M * pow2 e)
                        then FInf (Qnum q <? 0)%Z else mk_float (Qnum q <? 0)%Z M e).
    { destruct (Qnum q); [congruence|reflexivity|reflexivity]. }
    rewrite R. destruct (Qle_bool (pow2 emax) (inject_Z M * pow2 e)) eqn:T; [exact I|].
    apply mk_float_representable; [split; [exact M0|] | exact E1 | ].
    + apply rhe_le_Z. apply Qle_shift_div_r; [apply pow2_pos|].
      assert (K : pow2 (e + 53) == inject_Z (2 ^ 53) * pow2 e).
      { rewrite pow2_add. change (pow2 53) with (inject_Z (2 ^ 53)). ring. }
      rewrite <- K. apply Qlt_le_weak. exact E2.
    + destruct (Qlt_le_dec (inject_Z M * pow2 e) (pow2 emax)) as [|C]; [assumption|].
      apply Qle_bool_iff in C. congruence.
Qed.

Lemma RN_representable zs q : representable (RN zs q).
Proof. apply RN_core_representable. Qed.

Lemma pow2_lt_inv a b : pow2 a < pow2 b -> (a < b)%Z.
Proof. intros H. unfold pow2 in H. apply (Qpower_lt_compat_l_inv 2); [exact H|reflexivity]. Qed.

Lemma Qnum_sign q : (Qnum q <? 0)%Z = true <-> q < 0.
Proof.
  destruct q as [n d]. unfold Qlt. simpl. rewrite Z.ltb_lt. lia.
Qed.

Lemma RN_core_exact zs q s m k :
  (0 < m < 2 ^ 53)%Z -> (emin <= k)%Z ->
  q == Qsigned s (inject_Z m * pow2 k) ->
  inject_Z m * pow2 k < pow2 emax ->
  is_finite (RN_core zs q) = true /\
  is_neg (RN_core zs q) = s /\
  F2Q (RN_core zs q) == q.
Proof.
  intros Hm Hk Hq Hov.
  pose proof (pow2_pos k) as Pk.
  assert (Hm' : 0 < inject_Z m) by (change 0 with (inject_Z 0); rewrite <- Zlt_Qlt; lia).
  assert (Hv : 0 < inject_Z m * pow2 k) by nra.
  assert (Hs : (Qnum q <? 0)%Z = s).
  { destruct s; unfold Qsigned in Hq.
    - apply Qnum_sign. lra.
    - destruct (Qnum q <? 0)%Z eqn:T; [|reflexivity]. apply Qnum_sign in T. lra. }
  assert (Hn : (Qnum q <> 0)%Z).
  { intros C. assert (q == 0) by (destruct q; simpl in C; subst; reflexivity).
    destruct s; unfold Qsigned in Hq; lra. }
  assert (Ha : Qabs q == inject_Z m * pow2 k).
  { destruct s; unfold Qsigned in Hq.
    - rewrite Qabs_neg by lra. lra.
    - rewrite Qabs_pos by lra. lra. }
  destruct (Qabs_pos_num q Hn) as [_ Han].
  destruct (ulp_exp_spec _ Han) as (E1 & E2 & E3).
  set (e := ulp_exp (Qabs q)) in *.
  assert (Hek : (e <= k)%Z).
  { destruct (Z.eq_dec e emin) as [->|Hne]; [exact Hk|].
    specialize (E3 ltac:(lia)).
    assert (L : pow2 (e + 52) < pow2 (k + 53)).
    { eapply Qle_lt_trans; [exact E3|]. rewrite Ha, (pow2_add k 53).
      change (pow2 53) with (inject_Z (2 ^ 53)).
      assert (inject_Z m < inject_Z (2 ^ 53)) by (rewrite <- Zlt_Qlt; lia). nra. }
    apply pow2_lt_inv in L. lia. }
  assert (Hx : Qabs q / pow2 e == inject_Z (m * 2 ^ (k - e))).
  { rewrite Ha, inject_Z_mult, <- (pow2_Z (k - e)) by lia.
    replace k with ((k - e) + e)%Z at 1 by lia. rewrite pow2_add.
    field. pose proof (pow2_pos e). lra. }
  assert (HM : rhe (Qabs q / pow2 e) = (m * 2 ^ (k - e))%Z).
  { rewrite (rhe_comp _ _ Hx). apply rhe_inject. }
  assert (HV : inject_Z (rhe (Qabs q / pow2 e)) * pow2 e == inject_Z m * pow2 k).
  { rewrite HM, inject_Z_mult, <- (pow2_Z (k - e)) by lia.
    rewrite <- Qmult_assoc, <- pow2_add. replace (k - e + e)%Z with k by lia. reflexivity. }
  assert (Hov' : inject_Z (rhe (Qabs q / pow2 (ulp_exp (Qabs q)))) * pow2 (ulp_exp (Qabs q)) < pow2 emax).
  { fold e. rewrite HV. exact Hov. }
  destruct (RN_core_spec zs q Hn Hov') as (F1 & F2 & F3).
  split; [exact F1|]. split; [rewrite F2; exact Hs|].
  rewrite F3. fold e. rewrite Hs.
  destruct s; unfold Qsigned in *; rewrite HV; lra.
Qed.

Lemma RN_exact zs q s m k :
  (0 < m < 2 ^ 53)%Z -> (emin <= k)%Z ->
  q == Qsigned s (inject_Z m * pow2 k) ->
  inject_Z m * pow2 k < pow2 emax ->
  is_finite (RN zs q) = true /\
  is_neg (RN zs q) = s /\
  F2Q (RN zs q) == q.
Proof.
  intros Hm Hk Hq Hov. unfold RN.
  assert (Hq' : Qred q == Qsigned s (inject_Z m * pow2 k)) by (rewrite Qred_correct; exact Hq).
  destruct (RN_core_exact zs (Qred q) s m k Hm Hk Hq' Hov) as (F1 & F2 & F3).
  split; [exact F1|]. split; [exact F2|]. rewrite F3. apply Qred_correct.
Qed.

End Rounding.

(** ** Agreement with the hardware

    The kernel's primitive floats are the binary64 of the processor.  On
    these operations the model and the processor agree. *)

Module Hardware.
Import PrimFloat.

Example hardware_div :
  to_spec (Fdiv (RN false 1) (RN false 3)) = FloatOps.Prim2SF (1 / 3)%float.
Proof. vm_compute. reflexivity. Qed.

Example hardware_add :
  to_spec (Fadd (RN false (1 # 10)) (RN false (2 # 10))) = FloatOps.Prim2SF (1 / 10 + 2 / 10)%float.
Proof. vm_compute. reflexivity. Qed.

Example hardware_mul :
  to_spec (Fmul (RN false (inject_Z 79 + (58 # 60))) neg_one)
  = FloatOps.Prim2SF ((79 + 58 / 60) * -1)%float.
Proof. vm_compute. reflexivity. Qed.

Example hardware_dms :
  (r <- dms_sum (dms_triple 40 1 26 1 0 1) ;; Ok (to_spec r))%result
  = Ok (FloatOps.Prim2SF (40 / 1 + 26 / 1 / 60 + 0 / 1 / 3600)%float).
Proof. vm_compute. reflexivity. Qed.

Example hardware_subnormal :
  to_spec (Fdiv (RN false (1 # 2 ^ 1022)) (RN false 3))
  = FloatOps.Prim2SF (0x1p-1022 / 3)%float.
Proof. vm_compute. reflexivity. Qed.

Example hardware_overflow :
  to_spec (Fmul (RN false (inject_Z (2 ^ 1023))) (RN false 2))
  = FloatOps.Prim2SF (0x1p+1023 * 2)%float.
Proof. vm_compute. reflexivity. Qed.

Example hardware_tie :
  to_spec (Fadd (RN false (inject_Z (2 ^ 53))) (RN false 1))
  = FloatOps.Prim2SF (0x1p+53 + 1)%float.
Proof. vm_compute. reflexivity. Qed.
End Hardware.

(** ** The size formatter *)

Section SizeFormatter.
Local Open Scope Q_scope.

Lemma finite_not_overflow (f : float) :
  is_finite f = true -> no_overflow f = Ok f.
Proof. destruct f; simpl; intros H; try reflexivity; discriminate. Qed.

Lemma float_of_int_exact b :
  (Z.abs b < 2 ^ 53)%Z ->
  exists f, float_of_int b = Ok f /\ is_finite f = true /\
            is_neg f = (b <? 0)%Z /\ F2Q f == inject_Z b.
Proof.
  intros Hb. unfold float_of_int.
  destruct (Z.eq_dec b 0) as [->|Hn].
  - exists (FZero false). repeat split; reflexivity.
  - destruct (RN_exact false (inject_Z b) (b <? 0)%Z (Z.abs b) 0) as (F1 & F2 & F3).
    + lia.
    + unfold emin. lia.
    + change (pow2 0) with 1. rewrite Qmult_1_r.
      destruct (Z.ltb_spec b 0); unfold Qsigned.
      * rewrite Z.abs_neq by lia. rewrite inject_Z_opp. ring.
      * rewrite Z.abs_eq by lia. reflexivity.
    + change (pow2 0) with 1. rewrite Qmult_1_r.
      apply Qlt_trans with (inject_Z (2 ^ 53)); [rewrite <- Zlt_Qlt; lia|reflexivity].
    + exists (RN false (inject_Z b)). rewrite (finite_not_overflow _ F1). auto.
Qed.

Lemma scaled_pow2 b j : scaled b j == inject_Z b * pow2 (- (10 * Z.of_nat j)).
Proof.
  unfold scaled.
  assert (E : inject_Z (1024 ^ Z.of_nat j) == pow2 (10 * Z.of_nat j)).
  { rewrite pow2_Z by lia. replace (1024 ^ Z.of_nat j)%Z with (2 ^ (10 * Z.of_nat j))%Z.
    - reflexivity.
    - rewrite Z.pow_mul_r by lia. reflexivity. }
  rewrite E. unfold pow2. rewrite Qpower_opp. reflexivity.
Qed.

Lemma fits_spec b j : fits b j = (b <=? 1024 ^ (Z.of_nat j + 1))%Z.
Proof.
  unfold fits.
  assert (P : 0 < inject_Z (1024 ^ Z.of_nat j)).
  { change 0 with (inject_Z 0). rewrite <- Zlt_Qlt. apply Z.pow_pos_nonneg; lia. }
  assert (E : inject_Z (1024 ^ (Z.of_nat j + 1)) == 1024 * inject_Z (1024 ^ Z.of_nat j)).
  { rewrite Z.pow_add_r by lia. rewrite inject_Z_mult. change (inject_Z (1024 ^ 1)) with 1024. ring. }
  apply eq_true_iff_eq. rewrite Qle_bool_iff, Z.leb_le, Zle_Qle, E. unfold scaled.
  split; intros H.
  - apply (Qmult_le_compat_r _ _ (inject_Z (1024 ^ Z.of_nat j))) in H; [|lra].
    assert (K : inject_Z b / inject_Z (1024 ^ Z.of_nat j) * inject_Z (1024 ^ Z.of_nat j) == inject_Z b) by (field; lra).
    rewrite K in H. exact H.
  - apply Qle_shift_div_r; [exact P|exact H].
Qed.

Lemma int_truediv_1024_exact b :
  (0 < b < 2 ^ 53)%Z ->
  exists f, int_truediv b 1024 = Ok f /\ holds f false (scaled b 1).
Proof.
  intros Hb. unfold int_truediv. change (1024 =? 0)%Z with false. cbv iota.
  replace (xorb (b <? 0)%Z (1024 <? 0)%Z) with false
    by (destruct (Z.ltb_spec b 0); [lia|reflexivity]).
  destruct (RN_exact false (ratio b 1024) false b (-10)) as (F1 & F2 & F3).
  - exact Hb.
  - unfold emin. lia.
  - unfold Qsigned. change (pow2 (-10)) with (/ inject_Z 1024). reflexivity.
  - apply Qlt_trans with (inject_Z (2 ^ 53) * pow2 (-10)); [|reflexivity].
    assert (inject_Z b < inject_Z (2 ^ 53)) by (rewrite <- Zlt_Qlt; lia).
    pose proof (pow2_pos (-10)). nra.
  - eexists. rewrite (finite_not_overflow _ F1). split; [reflexivity|].
    split; [exact F1|]. split; [exact F2|]. rewrite F3. reflexivity.
Qed.

Lemma float_div_1024 (f : float) :
  py_truediv_int (PFloat f) 1024 = Ok (Fdiv f (FFin false 4503599627370496 (-42))).
Proof. reflexivity. Qed.

Lemma float_div_1024_exact f b j :
  (0 < b < 2 ^ 53)%Z -> (j <= 3)%nat ->
  holds f false (scaled b j) ->
  exists f', py_truediv_int (PFloat f) 1024 = Ok f' /\ holds f' false (scaled b (S j)).
Proof.
  intros Hb Hj (H1 & H2 & H3). rewrite float_div_1024. eexists. split; [reflexivity|].
  assert (E : Fdiv f (FFin false 4503599627370496 (-42))
              = RN false (F2Q f / F2Q (FFin false 4503599627370496 (-42)))).
  { destruct f; try discriminate; simpl in H2; subst; reflexivity. }
  rewrite E.
  assert (K : F2Q (FFin false 4503599627370496 (-42)) == 1024) by reflexivity.
  destruct (RN_exact false (F2Q f / F2Q (FFin false 4503599627370496 (-42))) false b
              (- (10 * Z.of_nat (S j)))) as (F1 & F2 & F3).
  - exact Hb.
  - unfold emin. lia.
  - unfold Qsigned. rewrite K, H3, !scaled_pow2.
    replace (- (10 * Z.of_nat (S j)))%Z with (- (10 * Z.of_nat j) + -10)%Z by lia.
    rewrite pow2_add. change (pow2 (-10)) with (/ 1024). field.
  - apply Qlt_trans with (inject_Z (2 ^ 53) * 1); [|reflexivity].
    assert (inject_Z b < inject_Z (2 ^ 53)) by (rewrite <- Zlt_Qlt; lia).
    assert (0 < inject_Z b) by (change 0 with (inject_Z 0); rewrite <- Zlt_Qlt; lia).
    assert (pow2 (- (10 * Z.of_nat (S j))) <= 1).
    { change 1 with (pow2 0). apply pow2_le. lia. }
    pose proof (pow2_pos (- (10 * Z.of_nat (S j)))). nra.
  - split; [exact F1|]. split; [exact F2|]. rewrite F3, K, H3, !scaled_pow2.
    replace (- (10 * Z.of_nat (S j)))%Z with (- (10 * Z.of_nat j) + -10)%Z by lia.
    rewrite pow2_add. change (pow2 (-10)) with (/ 1024). field.
Qed.

Lemma float_gt_1024 f b j :
  holds f false (scaled b j) ->
  py_gt_int (PFloat f) power = negb (b <=? 1024 ^ (Z.of_nat j + 1))%Z.
Proof.
  intros (H1 & H2 & H3). rewrite <- fits_spec. unfold fits.
  rewrite <- H3. destruct f; try discriminate; reflexivity.
Qed.

Lemma loop_step fuel size n :
  format_bytes_loop (S fuel) size n =
  if py_gt_int size power && (n <? 4)%nat
  then (size' <- py_truediv_int size power ;;
        format_bytes_loop fuel (PFloat size') (S n))%result
  else Ok (size, n).
Proof. reflexivity. Qed.

(** The fuel of the loop is enough: more changes nothing. *)
Lemma format_bytes_loop_fuel fuel : forall extra size n,
  (4 - n < fuel)%nat ->
  format_bytes_loop (fuel + extra) size n = format_bytes_loop fuel size n.
Proof.
  induction fuel as [|fuel IH]; intros extra size n Hn; [lia|].
  change (S fuel + extra)%nat with (S (fuel + extra)). rewrite !loop_step.
  destruct (Nat.ltb_spec n 4) as [L|L].
  - destruct (py_gt_int size power); cbn [andb]; [|reflexivity].
    destruct (py_truediv_int size power) as [f|e]; cbn [rbind]; [|reflexivity].
    apply IH. lia.
  - rewrite andb_false_r. reflexivity.
Qed.

Lemma fixed2_comp neg q q' : q == q' -> fixed2 neg q = fixed2 neg q'.
Proof.
  intros H. unfold fixed2.
  assert (E : rhe (Qabs q * 100) = rhe (Qabs q' * 100)).
  { apply rhe_comp. rewrite H. reflexivity. }
  rewrite E. reflexivity.
Qed.

Lemma format_holds f neg q :
  holds f neg q -> py_format_2f (PFloat f) = Ok (fixed2 neg q).
Proof.
  intros (H1 & H2 & H3). unfold py_format_2f, format_2f.
  destruct f; try discriminate; simpl in H2; subst;
    (erewrite fixed2_comp; [reflexivity|exact H3]).
Qed.

Lemma smallest_k_spec b :
  smallest_k b =
  if (b <=? 1024 ^ 1)%Z then 0%nat
  else if (b <=? 1024 ^ 2)%Z then 1%nat
  else if (b <=? 1024 ^ 3)%Z then 2%nat
  else if (b <=? 1024 ^ 4)%Z then 3%nat
  else 4%nat.
Proof.
  unfold smallest_k, find. rewrite !fits_spec.
  change (Z.of_nat 0 + 1)%Z with 1%Z. change (Z.of_nat 1 + 1)%Z with 2%Z.
  change (Z.of_nat 2 + 1)%Z with 3%Z. change (Z.of_nat 3 + 1)%Z with 4%Z.
  repeat match goal with |- context [(b <=? ?c)%Z] => destruct (b <=? c)%Z end; reflexivity.
Qed.

Ltac loop_float_step H :=
  rewrite loop_step, (float_gt_1024 _ _ _ H);
  cbn [Z.of_nat Pos.of_succ_nat Pos.succ Z.add Pos.add].

(** C4 (amended).  For every byte count [0 <= b < 2^53], [format_bytes]
    returns the exact quotient [b / 1024^k] to two decimal places, ties to
    even, followed by the unit at position [k] of the ladder, where [k] is
    the smallest index at which the scaled count is at most 1024, or 4
    where there is none. *)
Theorem format_bytes_smallest_scale b :
  (0 <= b < 2 ^ 53)%Z ->
  format_bytes (PInt b) = Ok (size_text b (smallest_k b)).
Proof.
  intros Hb. unfold format_bytes, size_text. rewrite smallest_k_spec.
  replace (b <? 0)%Z with false by (symmetry; apply Z.ltb_ge; lia).
  change (List.length units) with 5%nat.
  rewrite loop_step. unfold py_gt_int at 1. unfold power at 1.
  change (1024 ^ 1)%Z with 1024%Z.
  destruct (Z.leb_spec b 1024) as [L0|L0].
  - replace (1024 <? b)%Z with false by (symmetry; apply Z.ltb_ge; lia).
    cbn [andb rbind].
    destruct (float_of_int_exact b ltac:(lia)) as (f & E & H1 & H2 & H3).
    unfold py_format_2f. rewrite E. cbn [rbind].
    replace (b <? 0)%Z with false in H2 by (symmetry; apply Z.ltb_ge; lia).
    assert (Hh : holds f false (scaled b 0)).
    { split; [exact H1|]. split; [exact H2|]. rewrite H3. unfold scaled.
      change (inject_Z (1024 ^ Z.of_nat 0)) with 1. field. }
    pose proof (format_holds _ _ _ Hh) as Fm. unfold py_format_2f in Fm.
    injection Fm as ->. reflexivity.
  - replace (1024 <? b)%Z with true by (symmetry; apply Z.ltb_lt; lia).
    cbn [andb Nat.ltb Nat.leb].
    destruct (int_truediv_1024_exact b ltac:(lia)) as (f1 & E1 & Hh1).
    unfold py_truediv_int at 1. unfold power at 1. rewrite E1. cbn [rbind].
    loop_float_step Hh1. change (Z.pos (2))%Z with 2%Z.
    destruct (Z.leb_spec b (1024 ^ 2)) as [L1|L1].
    { cbn [negb andb rbind]. rewrite (format_holds _ _ _ Hh1). reflexivity. }
    cbn [negb andb Nat.ltb Nat.leb]. unfold power at 1.
    destruct (float_div_1024_exact f1 b 1 ltac:(lia) ltac:(lia) Hh1) as (f2 & E2 & Hh2).
    rewrite E2. cbn [rbind].
    loop_float_step Hh2.
    destruct (Z.leb_spec b (1024 ^ 3)) as [L2|L2].
    { cbn [negb andb rbind]. rewrite (format_holds _ _ _ Hh2). reflexivity. }
    cbn [negb andb Nat.ltb Nat.leb]. unfold power at 1.
    destruct (float_div_1024_exact f2 b 2 ltac:(lia) ltac:(lia) Hh2) as (f3 & E3 & Hh3).
    rewrite E3. cbn [rbind].
    loop_float_step Hh3.
    destruct (Z.leb_spec b (1024 ^ 4)) as [L3|L3].
    { cbn [negb andb rbind]. rewrite (format_holds _ _ _ Hh3). reflexivity. }
    cbn [negb andb Nat.ltb Nat.leb]. unfold power at 1.
    destruct (float_div_1024_exact f3 b 3 ltac:(lia) ltac:(lia) Hh3) as (f4 & E4 & Hh4).
    rewrite E4. cbn [rbind].
    rewrite loop_step. cbn [Nat.ltb Nat.leb]. rewrite andb_false_r.
    cbn [rbind]. rewrite (format_holds _ _ _ Hh4). reflexivity.
Qed.

Local Open Scope string_scope.

Lemma string_app_assoc (a b c : string) : (a ++ b) ++ c = a ++ (b ++ c).
Proof. induction a as [|x a IH]; simpl; [reflexivity|]. rewrite IH. reflexivity. Qed.

Lemma str_Z_sign b :
  (if (b <? 0)%Z then "-" else "") ++ str_Z (Z.abs b) = str_Z b.
Proof. destruct b; reflexivity. Qed.

Lemma fixed2_integer neg b :
  fixed2 neg (inject_Z b) = (if neg then "-" else "") ++ str_Z (Z.abs b) ++ ".00".
Proof.
  unfold fixed2.
  assert (E : (Qabs (inject_Z b) * 100 == inject_Z (Z.abs b * 100))%Q).
  { rewrite inject_Z_mult. unfold inject_Z, Qabs. simpl. reflexivity. }
  rewrite (rhe_comp _ _ E), rhe_inject.
  rewrite Z.div_mul by lia. rewrite Z.mod_mul by lia. reflexivity.
Qed.

Lemma loop_float_total fuel : forall f n,
  exists f' n', format_bytes_loop fuel (PFloat f) n = Ok (PFloat f', n').
Proof.
  induction fuel as [|fuel IH]; intros f n.
  - exists f, n. reflexivity.
  - rewrite loop_step.
    destruct (py_gt_int (PFloat f) power && (n <? 4)%nat).
    + unfold power. rewrite float_div_1024. cbn [rbind]. apply IH.
    + exists f, n. reflexivity.
Qed.

Lemma Zabs_Qabs_le b k :
  (Z.abs b <= 2 ^ k)%Z -> (0 <= k)%Z -> (Qabs (inject_Z b) <= pow2 k)%Q.
Proof.
  intros H Hk. rewrite pow2_Z by lia.
  assert (E : (Qabs (inject_Z b) == inject_Z (Z.abs b))%Q) by reflexivity.
  rewrite E, <- Zle_Qle. exact H.
Qed.

Lemma format_bytes_total x :
  in_float_range x -> exists s, format_bytes x = Ok s.
Proof.
  intros Hx. unfold format_bytes. change (List.length units) with 5%nat.
  destruct x as [b|f].
  - simpl in Hx. rewrite loop_step. unfold py_gt_int, power.
    destruct (Z.ltb_spec 1024 b) as [L|L]; cbn [andb Nat.ltb Nat.leb rbind].
    + unfold py_truediv_int, int_truediv. change (1024 =? 0)%Z with false. cbv iota.
      destruct (RN_error (xorb (b <? 0)%Z (1024 <? 0)%Z) (ratio b 1024)) as [F _].
      { assert (E : (Qabs (ratio b 1024) == Qabs (inject_Z b) * (1 # 1024))%Q).
        { unfold ratio, Qdiv. rewrite Qabs_Qmult. reflexivity. }
        rewrite E. pose proof (Zabs_Qabs_le b 1023 Hx ltac:(lia)) as Q1.
        pose proof (Qabs_nonneg (inject_Z b)). lra. }
      rewrite (finite_not_overflow _ F). cbn [rbind].
      destruct (loop_float_total 4 (RN (xorb (b <? 0)%Z (1024 <? 0)%Z) (ratio b 1024)) 1)
        as (f' & n' & E).
      rewrite E. cbn [rbind]. eexists. reflexivity.
    + unfold py_format_2f, float_of_int.
      destruct (RN_error false (inject_Z b)) as [F _].
      { apply Zabs_Qabs_le; [exact Hx|lia]. }
      rewrite (finite_not_overflow _ F). cbn [rbind]. eexists. reflexivity.
  - destruct (loop_float_total 5 f 0) as (f' & n' & E). rewrite E. cbn [rbind].
    eexists. reflexivity.
Qed.

(** C8 (amended).  For an integer count [-2^53 <= b <= 0] the loop of
    [format_bytes] divides nothing and the result is the digits of [b],
    [.00] and the unit Bytes.  [format_bytes] returns a string for every
    float and for every integer of magnitude at most [2^1023]. *)
Theorem format_bytes_nonpositive (b : Z) (x : pynum) :
  (- 2 ^ 53 <= b <= 0)%Z ->
  in_float_range x ->
  format_bytes_loop (List.length units) (PInt b) 0 = Ok (PInt b, 0%nat) /\
  format_bytes (PInt b) = Ok (str_Z b ++ ".00 Bytes") /\
  exists s, format_bytes x = Ok s.
Proof.
  intros Hb Hx.
  assert (L : format_bytes_loop (List.length units) (PInt b) 0 = Ok (PInt b, 0%nat)).
  { change (List.length units) with 5%nat. rewrite loop_step. unfold py_gt_int, power.
    replace (1024 <? b)%Z with false by (symmetry; apply Z.ltb_ge; lia). reflexivity. }
  split; [exact L|]. split; [|apply format_bytes_total; exact Hx].
  unfold format_bytes. rewrite L. cbn [rbind].
  destruct (Z.eq_dec b (- 2 ^ 53)) as [->|Hne]; [reflexivity|].
  destruct (float_of_int_exact b ltac:(lia)) as (f & E & H1 & H2 & H3).
  unfold py_format_2f. rewrite E. cbn [rbind].
  assert (Fm : format_2f f = fixed2 (b <? 0)%Z (inject_Z b)).
  { unfold format_2f. destruct f; try discriminate; simpl in H2; subst;
      apply fixed2_comp; exact H3. }
  rewrite Fm, fixed2_integer. cbn [nth units].
  rewrite <- (str_Z_sign b), !string_app_assoc. reflexivity.
Qed.

Example format_bytes_megabytes : format_bytes (PInt 2464153) = Ok "2.35 MB".
Proof. vm_compute. reflexivity. Qed.

Example format_bytes_boundary : format_bytes (PInt 1024) = Ok "1024.00 Bytes".
Proof. vm_compute. reflexivity. Qed.

Example format_bytes_infinite : format_bytes (PFloat (FInf false)) = Ok "inf TB".
Proof. vm_compute. reflexivity. Qed.

(** The amended C4 at a count of 2464153 bytes. *)
Lemma format_bytes_smallest_scale_witness :
  format_bytes (PInt 2464153) = Ok (size_text 2464153 (smallest_k 2464153)).
Proof. apply (format_bytes_smallest_scale 2464153). lia. Defined.

(** C4 as stated fails.  With the largest index at which the scaled
    count is at most 1024, a count of 0 would read [0.00 TB]; the code
    gives [0.00 Bytes].  And from [2^53] on the quotient is no longer
    exact: at 9007215747415409 bytes the code prints 8192.01 where the
    exact quotient rounds to 8192.02. *)
Lemma format_bytes_scale_counterexample :
  format_bytes (PInt 0) = Ok "0.00 Bytes" /\
  size_text 0 (largest_k 0) = "0.00 TB" /\
  format_bytes (PInt 0) <> Ok (size_text 0 (largest_k 0)) /\
  format_bytes (PInt 9007215747415409) = Ok "8192.01 TB" /\
  size_text 9007215747415409 (smallest_k 9007215747415409) = "8192.02 TB" /\
  size_text 9007215747415409 (largest_k 9007215747415409) = "8192.02 TB".
Proof.
  split; [vm_compute; reflexivity|]. split; [vm_compute; reflexivity|].
  split; [vm_compute; intros C; discriminate C|].
  repeat split; vm_compute; reflexivity.
Qed.

(** The amended C8 at the count -5 and the float NaN. *)
Lemma format_bytes_nonpositive_witness :
  format_bytes_loop (List.length units) (PInt (-5)) 0 = Ok (PInt (-5), 0%nat) /\
  format_bytes (PInt (-5)) = Ok (str_Z (-5) ++ ".00 Bytes") /\
  exists s, format_bytes (PFloat FNan) = Ok s.
Proof. apply (format_bytes_nonpositive (-5) (PFloat FNan)); [lia|exact I]. Defined.

(** C8 as stated fails.  An integer of 401 digits makes the division
    raise [OverflowError]; and [-(2^53 + 1)] is printed as the float
    nearest to it, which is [-2^53]. *)
Lemma format_bytes_error_counterexample :
  format_bytes (PInt (10 ^ 400)) = Raise OverflowError /\
  format_bytes (PInt (- (2 ^ 53 + 1))) = Ok "-9007199254740992.00 Bytes" /\
  str_Z (- (2 ^ 53 + 1)) ++ ".00 Bytes" = "-9007199254740993.00 Bytes".
Proof. repeat split; vm_compute; reflexivity. Qed.

End SizeFormatter.

(** ** The coordinate converter *)

Section CoordinateConverter.
Local Open Scope Q_scope.

Lemma RN_near zs q B :
  - B <= q -> q <= B -> B <= pow2 1023 ->
  near (RN zs q) q (B * u53 + eta).
Proof.
  intros H1 H2 HB.
  assert (HA : Qabs q <= B) by (apply Qabs_Qle_condition; split; assumption).
  destruct (RN_error zs q) as [F E]; [lra|].
  assert (U : 0 < u53) by apply pow2_pos.
  apply Qabs_diff_Qle_condition in E. unfold near. split; [exact F|].
  split; nra.
Qed.

Lemma Fadd_finite x y :
  is_finite x = true -> is_finite y = true ->
  Fadd x y = RN (is_neg x && is_neg y) (F2Q x + F2Q y).
Proof. destruct x, y; try discriminate; reflexivity. Qed.

Lemma Fmul_finite x y :
  is_finite x = true -> is_finite y = true ->
  Fmul x y = RN (xorb (is_neg x) (is_neg y)) (F2Q x * F2Q y).
Proof. destruct x, y; try discriminate; reflexivity. Qed.

Lemma Fdiv_finite x y :
  is_finite x = true -> is_finite y = true ->
  Fdiv x y = RN (xorb (is_neg x) (is_neg y)) (F2Q x / F2Q y).
Proof. destruct x, y; try discriminate; reflexivity. Qed.

Lemma int_truediv_near n d B :
  (d <> 0)%Z ->
  - B <= ratio n d -> ratio n d <= B -> B <= pow2 1023 ->
  exists f, int_truediv n d = Ok f /\ representable f /\
            near f (ratio n d) (B * u53 + eta).
Proof.
  intros Hd H1 H2 HB. unfold int_truediv.
  destruct (Z.eqb_spec d 0) as [|_]; [contradiction|].
  pose proof (RN_near (xorb (n <? 0)%Z (d <? 0)%Z) _ B H1 H2 HB) as N.
  eexists. rewrite (finite_not_overflow _ (proj1 N)).
  split; [reflexivity|]. split; [apply RN_representable|exact N].
Qed.

Lemma float_div_int_near f k B :
  (0 < k < 2 ^ 53)%Z ->
  is_finite f = true -> - B <= F2Q f -> F2Q f <= B -> B <= pow2 1023 ->
  exists f', py_truediv_int (PFloat f) k = Ok f' /\ representable f' /\
             near f' (F2Q f / inject_Z k) (B / inject_Z k * u53 + eta).
Proof.
  intros Hk Ff H1 H2 HB. unfold py_truediv_int.
  destruct (float_of_int_exact k ltac:(lia)) as (kf & E & K1 & K2 & K3).
  rewrite E. cbn [rbind]. unfold float_truediv.
  assert (Kp : 1 <= inject_Z k).
  { change 1 with (inject_Z 1). rewrite <- Zle_Qle. lia. }
  assert (Z0 : is_zero kf = false).
  { destruct kf; try reflexivity. simpl in K3. lra. }
  rewrite Z0, (Fdiv_finite _ _ Ff K1).
  assert (EQ : F2Q f / F2Q kf == F2Q f / inject_Z k) by (rewrite K3; reflexivity).
  rewrite (RN_comp _ _ _ EQ).
  assert (B0 : 0 <= B) by lra.
  assert (D : F2Q f / inject_Z k * inject_Z k == F2Q f) by (field; lra).
  assert (D' : B / inject_Z k * inject_Z k == B) by (field; lra).
  eexists. split; [reflexivity|]. split; [apply RN_representable|].
  set (y := F2Q f / inject_Z k) in *. set (kk := inject_Z k) in *. set (x := F2Q f) in *.
  set (b := B / kk) in *.
  apply RN_near.
  - destruct (Qlt_le_dec y (- b)) as [C|]; [exfalso|assumption]. nra.
  - destruct (Qlt_le_dec b y) as [C|]; [exfalso|assumption]. nra.
  - destruct (Qlt_le_dec (pow2 1023) b) as [C|]; [exfalso|assumption]. nra.
Qed.

Lemma Fadd_near f g B :
  is_finite f = true -> is_finite g = true ->
  - B <= F2Q f + F2Q g -> F2Q f + F2Q g <= B -> B <= pow2 1023 ->
  representable (Fadd f g) /\ near (Fadd f g) (F2Q f + F2Q g) (B * u53 + eta).
Proof.
  intros Ff Fg H1 H2 HB. rewrite (Fadd_finite _ _ Ff Fg).
  split; [apply RN_representable|]. apply RN_near; assumption.
Qed.

Lemma Qabs_Qsigned s p : 0 <= p -> Qabs (Qsigned s p) == p.
Proof.
  intros Hp. destruct s; unfold Qsigned.
  - rewrite Qabs_opp. apply Qabs_pos. exact Hp.
  - apply Qabs_pos. exact Hp.
Qed.

Lemma py_round8_near f B :
  is_finite f = true -> - B <= F2Q f -> F2Q f <= B ->
  B + half_unit8 <= pow2 1023 ->
  exists r, py_round f 8 = Ok r /\
            near r (F2Q f) (half_unit8 + ((B + half_unit8) * u53 + eta)).
Proof.
  intros Ff H1 H2 HB.
  assert (U : 0 < u53) by apply pow2_pos.
  assert (Et : 0 < eta) by apply pow2_pos.
  assert (Hh : 0 < half_unit8) by reflexivity.
  destruct f as [| |s|s m e]; try discriminate.
  - exists (FZero s). split; [reflexivity|]. unfold near. simpl F2Q in *.
    split; [reflexivity|]. split; nra.
  - unfold py_round. change (Z.of_nat 8) with 8%Z.
    set (p := inject_Z (Zpos m) * pow2 e).
    assert (Pp : 0 < p).
    { unfold p. pose proof (pow2_pos e).
      assert (0 < inject_Z (Zpos m)) by reflexivity. nra. }
    change (F2Q (FFin s m e)) with (Qsigned s p) in *.
    set (scale := inject_Z (10 ^ 8)).
    assert (Sc : scale == 100000000) by reflexivity.
    assert (EN : rhe (Qabs (Qsigned s p) * scale) = rhe (p * scale)).
    { apply rhe_comp. rewrite Qabs_Qsigned by lra. reflexivity. }
    rewrite EN. set (N := rhe (p * scale)).
    destruct (rhe_bounds (p * scale)) as [R1 R2]. fold N in R1, R2.
    set (y := inject_Z N / scale).
    assert (Y : y * scale == inject_Z N) by (unfold y; field; lra).
    assert (Yb : p - half_unit8 <= y /\ y <= p + half_unit8).
    { unfold half_unit8. split; nra. }
    assert (PB : p <= B) by (destruct s; unfold Qsigned in *; lra).
    assert (NR : near (RN s (Qsigned s y)) (Qsigned s y)
                      ((B + half_unit8) * u53 + eta)).
    { apply RN_near; [| |exact HB]; destruct s; unfold Qsigned; lra. }
    eexists. rewrite (finite_not_overflow _ (proj1 NR)). split; [reflexivity|].
    destruct NR as (N1 & N2 & N3). unfold near. split; [exact N1|].
    destruct s; unfold Qsigned in *; split; lra.
Qed.

Lemma float_of_int_neg_one : float_of_int (-1) = Ok neg_one.
Proof. reflexivity. Qed.

Lemma RN_zero zs q : q == 0 -> RN zs q = FZero zs.
Proof. intros H. rewrite (RN_comp zs q 0 H). reflexivity. Qed.

Lemma finite_nonzero_FFin f :
  is_finite f = true -> ~ F2Q f == 0 -> exists m e, f = FFin (is_neg f) m e.
Proof.
  destruct f; try discriminate; intros _ H.
  - exfalso. apply H. reflexivity.
  - eexists _, _. reflexivity.
Qed.

(** Multiplying by [-1.0] flips the sign and keeps the magnitude. *)
Lemma Fmul_neg_one f :
  is_finite f = true -> representable f ->
  is_finite (Fmul f neg_one) = true /\
  is_neg (Fmul f neg_one) = negb (is_neg f) /\
  F2Q (Fmul f neg_one) == - F2Q f.
Proof.
  intros Ff Rf. rewrite (Fmul_finite f neg_one Ff eq_refl).
  change (is_neg neg_one) with true. rewrite xorb_true_r.
  assert (K : F2Q neg_one == -1) by reflexivity.
  destruct f as [| |s|s m e]; try discriminate.
  - rewrite RN_zero by (simpl F2Q; ring). repeat split.
  - destruct Rf as (R1 & R2 & R3). cbn [is_neg].
    destruct (RN_exact (negb s) (F2Q (FFin s m e) * F2Q neg_one) (negb s) (Zpos m) e)
      as (F1 & F2 & F3); try assumption.
    + lia.
    + rewrite K. unfold F2Q. destruct s; unfold Qsigned; cbn [negb]; ring.
    + split; [exact F1|]. split; [exact F2|]. rewrite F3, K. ring.
Qed.

Lemma no_overflow_opp f : no_overflow (Fopp f) = rmap Fopp (no_overflow f).
Proof. destruct f; reflexivity. Qed.

Lemma py_round_neg f :
  representable f ->
  py_round (Fmul f neg_one) 8 = rmap Fopp (py_round f 8).
Proof.
  intros Rf. destruct f as [|s|s|s m e].
  - reflexivity.
  - destruct s; reflexivity.
  - assert (E : Fmul (FZero s) neg_one = FZero (negb s)).
    { rewrite (Fmul_finite (FZero s) neg_one eq_refl eq_refl). cbn [is_neg].
      change (is_neg neg_one) with true. rewrite xorb_true_r.
      apply RN_zero. simpl F2Q. ring. }
    rewrite E. reflexivity.
  - destruct (Fmul_neg_one (FFin s m e) eq_refl Rf) as (F1 & F2 & F3).
    assert (NZ : ~ F2Q (Fmul (FFin s m e) neg_one) == 0).
    { rewrite F3. unfold F2Q. pose proof (pow2_pos e).
      assert (0 < inject_Z (Zpos m)) by reflexivity.
      destruct s; unfold Qsigned; nra. }
    destruct (finite_nonzero_FFin _ F1 NZ) as (m' & e' & Eg).
    rewrite F2 in Eg. cbn [is_neg] in Eg. rewrite Eg.
    assert (V : F2Q (FFin (negb s) m' e') == - F2Q (FFin s m e)) by (rewrite <- Eg; exact F3).
    unfold py_round. change (Z.of_nat 8) with 8%Z.
    assert (EN : rhe (Qabs (F2Q (FFin (negb s) m' e')) * inject_Z (10 ^ 8))
                 = rhe (Qabs (F2Q (FFin s m e)) * inject_Z (10 ^ 8))).
    { apply rhe_comp. rewrite V, Qabs_opp. reflexivity. }
    rewrite EN. set (N := rhe (Qabs (F2Q (FFin s m e)) * inject_Z (10 ^ 8))).
    assert (EQ : Qsigned (negb s) (inject_Z N / inject_Z (10 ^ 8))
                 == - Qsigned s (inject_Z N / inject_Z (10 ^ 8))).
    { destruct s; unfold Qsigned; cbn [negb]; ring. }
    rewrite (RN_comp _ _ _ EQ), RN_opp. apply no_overflow_opp.
Qed.

Lemma dms_sum_triple n0 d0 n1 d1 n2 d2 :
  dms_sum (dms_triple n0 d0 n1 d1 n2 d2) =
  (degrees <- int_truediv n0 d0 ;;
   minutes <- int_truediv n1 d1 ;;
   seconds <- int_truediv n2 d2 ;;
   min60 <- py_truediv_int (PFloat minutes) 60 ;;
   sec3600 <- py_truediv_int (PFloat seconds) 3600 ;;
   Ok (Fadd (Fadd degrees min60) sec3600))%result.
Proof. reflexivity. Qed.

Lemma Qabs_bounds x : - Qabs x <= x /\ x <= Qabs x.
Proof. apply Qabs_Qle_condition. apply Qle_refl. Qed.

Lemma pow2_1023_split : pow2 1023 == 8388608 * pow2 1000.
Proof. reflexivity. Qed.

Lemma eta_tiny : eta <= 1 # 1000000000000000000000000000000.
Proof. unfold Qle. vm_compute. discriminate. Qed.

Lemma pow2_1000_ge : 1 <= pow2 1000.
Proof. change 1 with (pow2 0). apply pow2_le. lia. Qed.

Ltac numerals :=
  change u53 with (1 # 9007199254740992) in *;
  change (pow2 (-50)) with (1 # 1125899906842624) in *;
  change half_unit8 with (1 # 200000000) in *;
  change (inject_Z 60) with 60 in *;
  change (inject_Z 3600) with 3600 in *.

Ltac bound := numerals; lra.

Lemma dms_arith_accuracy n0 d0 n1 d1 n2 d2 ref :
  (d0 <> 0)%Z -> (d1 <> 0)%Z -> (d2 <> 0)%Z ->
  Qabs (ratio n0 d0) <= pow2 1000 ->
  Qabs (ratio n1 d1) <= pow2 1000 ->
  Qabs (ratio n2 d2) <= pow2 1000 ->
  exists d r,
    dms_sum (dms_triple n0 d0 n1 d1 n2 d2) = Ok d /\
    is_finite d = true /\
    dms_arith (dms_triple n0 d0 n1 d1 n2 d2) ref = Ok r /\
    is_finite r = true /\
    Qabs (F2Q r - hemisphere ref (exact_decimal n0 d0 n1 d1 n2 d2))
      <= (5001 # 1000000000000) + magnitude n0 d0 n1 d1 n2 d2 * pow2 (-50).
Proof.
  intros Hd0 Hd1 Hd2 HD HM HS. unfold dms_arith. rewrite dms_sum_triple.
  unfold exact_decimal, magnitude, hemisphere.
  destruct (Qabs_bounds (ratio n0 d0)) as [D1 D2].
  destruct (Qabs_bounds (ratio n1 d1)) as [M1 M2].
  destruct (Qabs_bounds (ratio n2 d2)) as [S1 S2].
  pose proof (Qabs_nonneg (ratio n0 d0)) as D0.
  pose proof (Qabs_nonneg (ratio n1 d1)) as M0.
  pose proof (Qabs_nonneg (ratio n2 d2)) as S0.
  set (x0 := ratio n0 d0) in *. set (x1 := ratio n1 d1) in *. set (x2 := ratio n2 d2) in *.
  set (D := Qabs x0) in *. set (Mi := Qabs x1) in *. set (Se := Qabs x2) in *.
  pose proof pow2_1023_split as P23. pose proof pow2_1000_ge as P1.
  pose proof eta_tiny as Et1. assert (Et0 : 0 < eta) by apply pow2_pos.
  (* the three quotients *)
  destruct (int_truediv_near n0 d0 D Hd0 D1 D2) as (fd & Ed & Rd & Fd & Nd1 & Nd2); [bound|].
  destruct (int_truediv_near n1 d1 Mi Hd1 M1 M2) as (fm & Em & Rm & Fm & Nm1 & Nm2); [bound|].
  destruct (int_truediv_near n2 d2 Se Hd2 S1 S2) as (fs & Es & Rs & Fs & Ns1 & Ns2); [bound|].
  fold x0 in Ed, Nd1, Nd2. fold x1 in Em, Nm1, Nm2. fold x2 in Es, Ns1, Ns2.
  rewrite Ed, Em, Es. cbn [rbind].
  (* minutes / 60 and seconds / 3600 *)
  destruct (float_div_int_near fm 60 (Mi + (Mi * u53 + eta)) ltac:(lia) Fm)
    as (fm60 & Em60 & Rm60 & Fm60 & Nm601 & Nm602); [bound|bound|bound|].
  destruct (float_div_int_near fs 3600 (Se + (Se * u53 + eta)) ltac:(lia) Fs)
    as (fs3600 & Es3600 & Rs3600 & Fs3600 & Ns36001 & Ns36002); [bound|bound|bound|].
  rewrite Em60, Es3600. cbn [rbind]. cbv zeta.
  numerals.
  assert (Q1 : F2Q fm / 60 == F2Q fm * (1 # 60)) by (field; discriminate).
  assert (Q2 : F2Q fs / 3600 == F2Q fs * (1 # 3600)) by (field; discriminate).
  assert (Q3 : x1 / 60 == x1 * (1 # 60)) by (field; discriminate).
  assert (Q4 : x2 / 3600 == x2 * (1 # 3600)) by (field; discriminate).
  assert (Q5 : Mi / 60 == Mi * (1 # 60)) by (field; discriminate).
  assert (Q6 : Se / 3600 == Se * (1 # 3600)) by (field; discriminate).
  set (qm := F2Q fm / 60) in *. set (qs := F2Q fs / 3600) in *.
  set (xm := x1 / 60) in *. set (xs := x2 / 3600) in *.
  set (am := Mi / 60) in *. set (as_ := Se / 3600) in *.
  assert (Q7 : (Mi + (Mi * (1 # 9007199254740992) + eta)) / 60
               == (Mi + (Mi * (1 # 9007199254740992) + eta)) * (1 # 60)) by (field; discriminate).
  assert (Q8 : (Se + (Se * (1 # 9007199254740992) + eta)) / 3600
               == (Se + (Se * (1 # 9007199254740992) + eta)) * (1 # 3600)) by (field; discriminate).
  set (bm := (Mi + (Mi * (1 # 9007199254740992) + eta)) / 60) in *.
  set (bs := (Se + (Se * (1 # 9007199254740992) + eta)) / 3600) in *.
  (* the two sums *)
  set (Bd := D + (D * (1 # 9007199254740992) + eta)).
  set (Bm := Mi + (Mi * (1 # 9007199254740992) + eta)) in *.
  set (Bs := Se + (Se * (1 # 9007199254740992) + eta)) in *.
  assert (Hfd : - Bd <= F2Q fd /\ F2Q fd <= Bd) by (unfold Bd; split; lra).
  assert (Hfm60 : - (bm + (bm * (1 # 9007199254740992) + eta)) <= F2Q fm60 /\
                  F2Q fm60 <= bm + (bm * (1 # 9007199254740992) + eta)).
  { unfold Bm in *. split; lra. }
  assert (Hfs3600 : - (bs + (bs * (1 # 9007199254740992) + eta)) <= F2Q fs3600 /\
                    F2Q fs3600 <= bs + (bs * (1 # 9007199254740992) + eta)).
  { unfold Bs in *. split; lra. }
  set (B1 := Bd + (bm + (bm * (1 # 9007199254740992) + eta))).
  destruct (Fadd_near fd fm60 B1 Fd Fm60) as (R1 & F1 & N11 & N12);
    [unfold B1; lra|unfold B1; lra|unfold B1, Bd, Bm in *; lra|].
  numerals.
  set (s1 := Fadd fd fm60) in *.
  assert (Hs1 : - (B1 + (B1 * (1 # 9007199254740992) + eta)) <= F2Q s1 /\
                F2Q s1 <= B1 + (B1 * (1 # 9007199254740992) + eta)).
  { unfold B1 in *. split; lra. }
  set (B2 := (B1 + (B1 * (1 # 9007199254740992) + eta))
             + (bs + (bs * (1 # 9007199254740992) + eta))).
  destruct (Fadd_near s1 fs3600 B2 F1 Fs3600) as (R2 & F2 & N21 & N22);
    [unfold B2; lra|unfold B2; lra|unfold B2, B1, Bd, Bm, Bs in *; lra|].
  numerals.
  set (s2 := Fadd s1 fs3600) in *.
  set (B3 := B2 + (B2 * (1 # 9007199254740992) + eta)).
  assert (Hs2 : - B3 <= F2Q s2 /\ F2Q s2 <= B3).
  { unfold B3, B2 in *. split; lra. }
  assert (HB3 : B3 + (1 # 200000000) <= pow2 1023).
  { unfold B3, B2, B1, Bd, Bm, Bs in *. lra. }
  destruct (existsb (String.eqb ref) ["S"; "W"]%string).
  - rewrite float_of_int_neg_one. cbn [rbind].
    destruct (Fmul_neg_one s2 F2 R2) as (G1 & G2 & G3).
    destruct (py_round8_near (Fmul s2 neg_one) B3 G1) as (r & Er & Fr & Nr1 & Nr2);
      [lra|lra|exact HB3|].
    numerals.
    exists s2, r. split; [reflexivity|]. split; [exact F2|].
    split; [exact Er|]. split; [exact Fr|].
    apply Qabs_diff_Qle_condition. unfold B3, B2, B1, Bd, Bm, Bs in *. split; lra.
  - destruct (py_round8_near s2 B3 F2) as (r & Er & Fr & Nr1 & Nr2);
      [lra|lra|exact HB3|].
    numerals.
    exists s2, r. split; [reflexivity|]. split; [exact F2|].
    split; [exact Er|]. split; [exact Fr|].
    apply Qabs_diff_Qle_condition. unfold B3, B2, B1, Bd, Bm, Bs in *. split; lra.
Qed.

Lemma rbind_ok {A B} (r : result A) (k : A -> result B) b :
  rbind r k = Ok b -> exists a, r = Ok a /\ k a = Ok b.
Proof. destruct r as [a|e]; simpl; intros H; [exists a; auto|discriminate]. Qed.

Lemma Fadd_representable x y : representable (Fadd x y).
Proof.
  destruct x, y; try exact I; unfold Fadd; try apply RN_representable;
    match goal with |- context [Bool.eqb ?a ?b] => destruct (Bool.eqb a b); exact I end.
Qed.

Lemma dms_sum_representable dms d : dms_sum dms = Ok d -> representable d.
Proof.
  unfold dms_sum. intros H.
  repeat (apply rbind_ok in H; destruct H as (? & _ & H)).
  injection H as <-. apply Fadd_representable.
Qed.

(** South and west: the same magnitude, negated. *)
Lemma dms_arith_negated dms ref :
  existsb (String.eqb ref) ["S"; "W"]%string = true ->
  dms_arith dms ref = rmap Fopp (dms_arith dms "N").
Proof.
  intros H. unfold dms_arith. rewrite H.
  change (existsb (String.eqb "N") ["S"; "W"]%string) with false. cbv iota.
  destruct (dms_sum dms) as [d|e] eqn:E; [|reflexivity].
  cbn [rbind]. rewrite float_of_int_neg_one. cbn [rbind].
  apply py_round_neg. eapply dms_sum_representable. exact E.
Qed.

(** Any other reference: as north. *)
Lemma dms_arith_unvalidated dms ref :
  existsb (String.eqb ref) ["S"; "W"]%string = false ->
  dms_arith dms ref = dms_arith dms "N".
Proof. intros H. unfold dms_arith. rewrite H. reflexivity. Qed.

Lemma get_decimal_spec dms ref w :
  get_decimal_from_dms dms ref w =
  match dms_arith dms ref with
  | Ok r => (Ok (Some r), w)
  | Raise e => (Ok None, warned w e)
  end.
Proof.
  unfold get_decimal_from_dms, try_except, bind, lift, ret, emit, warned.
  destruct (dms_arith dms ref); reflexivity.
Qed.

Lemma ratio_bound n d K :
  (d <> 0)%Z -> (Z.abs n <= K * Z.abs d)%Z -> Qabs (ratio n d) <= inject_Z K.
Proof.
  intros Hd H. unfold ratio, Qdiv. rewrite Qabs_Qmult, Qabs_Qinv.
  assert (E1 : Qabs (inject_Z n) == inject_Z (Z.abs n)) by reflexivity.
  assert (E2 : Qabs (inject_Z d) == inject_Z (Z.abs d)) by reflexivity.
  rewrite E1, E2.
  assert (P : 0 < inject_Z (Z.abs d)).
  { change 0 with (inject_Z 0). rewrite <- Zlt_Qlt. lia. }
  apply Qle_shift_div_r; [exact P|]. rewrite <- inject_Z_mult, <- Zle_Qle. exact H.
Qed.

(** What [round(_, 8)] returns is the float nearest to a multiple of
    [10^-8]. *)
Lemma py_round8_grid f r :
  is_finite f = true -> py_round f 8 = Ok r ->
  exists k : Z, r = RN (is_neg f) (inject_Z k / inject_Z (10 ^ 8)).
Proof.
  intros Ff H. destruct f as [| |s|s m e]; try discriminate.
  - injection H as <-. exists 0%Z. symmetry. apply RN_zero. reflexivity.
  - unfold py_round in H. change (Z.of_nat 8) with 8%Z in H.
    set (N := rhe (Qabs (F2Q (FFin s m e)) * inject_Z (10 ^ 8))) in *.
    exists (if s then (- N)%Z else N).
    assert (E : Qsigned s (inject_Z N / inject_Z (10 ^ 8))
                == inject_Z (if s then (- N)%Z else N) / inject_Z (10 ^ 8)).
    { destruct s; unfold Qsigned; [rewrite inject_Z_opp; field; discriminate|reflexivity]. }
    rewrite (RN_comp _ _ _ E) in H. cbn [is_neg].
    destruct (RN s (inject_Z (if s then (- N)%Z else N) / inject_Z (10 ^ 8))); try discriminate;
      injection H as <-; reflexivity.
Qed.

Example pittsburgh_latitude :
  fst (get_decimal_from_dms (dms_triple 40 1 26 1 0 1) "N" w0)
  = Ok (Some (FFin false 5690485778697971 (-47))).
Proof. vm_compute. reflexivity. Qed.

Example pittsburgh_longitude :
  fst (get_decimal_from_dms (dms_triple 79 1 58 1 0 1) "W" w0)
  = Ok (Some (FFin true 5627153909641760 (-46))).
Proof. vm_compute. reflexivity. Qed.

Lemma million_le_pow2 : inject_Z 1000000 <= pow2 1000.
Proof. rewrite pow2_Z by lia. rewrite <- Zle_Qle. apply Z.lt_le_incl. reflexivity. Qed.

Lemma dms_arith_grid dms ref d r :
  dms_sum dms = Ok d -> is_finite d = true -> dms_arith dms ref = Ok r ->
  exists (k : Z) (s : bool), r = RN s (inject_Z k / inject_Z (10 ^ 8)).
Proof.
  intros Hd Fd Hr. unfold dms_arith in Hr. rewrite Hd in Hr. cbn [rbind] in Hr.
  destruct (existsb (String.eqb ref) ["S"; "W"]%string).
  - rewrite float_of_int_neg_one in Hr. cbn [rbind] in Hr.
    destruct (Fmul_neg_one d Fd (dms_sum_representable _ _ Hd)) as (G1 & _).
    destruct (py_round8_grid _ _ G1 Hr) as (k & E). eauto.
  - cbn [rbind] in Hr. destruct (py_round8_grid _ _ Fd Hr) as (k & E). eauto.
Qed.

(** C1 (amended).  For a triple of rationals with nonzero denominators
    whose terms are at most one million in magnitude, and any reference,
    [get_decimal_from_dms] returns without a warning a finite float within
    [10^-8] of [degrees + minutes/60 + seconds/3600], negated when the
    reference is S or W.  The float is the one nearest to a multiple of
    [10^-8], and the result for S or W is the negation of the result for
    N. *)
Theorem gps_decimal_accuracy n0 d0 n1 d1 n2 d2 ref w :
  (d0 <> 0)%Z -> (d1 <> 0)%Z -> (d2 <> 0)%Z ->
  (Z.abs n0 <= 1000000 * Z.abs d0)%Z ->
  (Z.abs n1 <= 1000000 * Z.abs d1)%Z ->
  (Z.abs n2 <= 1000000 * Z.abs d2)%Z ->
  exists r north,
    get_decimal_from_dms (dms_triple n0 d0 n1 d1 n2 d2) ref w = (Ok (Some r), w) /\
    is_finite r = true /\
    Qabs (F2Q r - hemisphere ref (exact_decimal n0 d0 n1 d1 n2 d2)) <= 1 # 100000000 /\
    (exists (k : Z) (s : bool), r = RN s (inject_Z k / inject_Z (10 ^ 8))) /\
    get_decimal_from_dms (dms_triple n0 d0 n1 d1 n2 d2) "N" w = (Ok (Some north), w) /\
    r = (if existsb (String.eqb ref) ["S"; "W"]%string then Fopp north else north).
Proof.
  intros Hd0 Hd1 Hd2 H0 H1 H2.
  pose proof (ratio_bound _ _ _ Hd0 H0) as B0.
  pose proof (ratio_bound _ _ _ Hd1 H1) as B1.
  pose proof (ratio_bound _ _ _ Hd2 H2) as B2.
  pose proof million_le_pow2 as MP.
  destruct (dms_arith_accuracy n0 d0 n1 d1 n2 d2 ref Hd0 Hd1 Hd2) as (d & r & Sd & Fd & Er & Fr & Ar);
    [lra|lra|lra|].
  destruct (dms_arith_accuracy n0 d0 n1 d1 n2 d2 "N" Hd0 Hd1 Hd2) as (d' & north & _ & _ & En & _);
    [lra|lra|lra|].
  exists r, north. rewrite !get_decimal_spec, Er, En.
  split; [reflexivity|]. split; [exact Fr|]. split.
  - eapply Qle_trans; [exact Ar|]. unfold magnitude.
    pose proof (Qabs_nonneg (ratio n0 d0)). pose proof (Qabs_nonneg (ratio n1 d1)).
    pose proof (Qabs_nonneg (ratio n2 d2)).
    set (a0 := Qabs (ratio n0 d0)) in *. set (a1 := Qabs (ratio n1 d1)) in *.
    set (a2 := Qabs (ratio n2 d2)) in *.
    assert (Q1 : a1 / 60 == a1 * (1 # 60)) by (field; discriminate).
    assert (Q2 : a2 / 3600 == a2 * (1 # 3600)) by (field; discriminate).
    rewrite Q1, Q2. change (inject_Z 1000000) with 1000000 in *.
    change (pow2 (-50)) with (1 # 1125899906842624). lra.
  - split; [eapply dms_arith_grid; eassumption|]. split; [reflexivity|].
    destruct (existsb (String.eqb ref) ["S"; "W"]%string) eqn:SW.
    + rewrite (dms_arith_negated _ _ SW), En in Er. injection Er as <-. reflexivity.
    + rewrite (dms_arith_unvalidated _ _ SW), En in Er. injection Er as <-. reflexivity.
Qed.

(** The amended C1 at 79 degrees 58 minutes west. *)
Lemma gps_decimal_accuracy_witness :
  exists r north,
    get_decimal_from_dms (dms_triple 79 1 58 1 0 1) "W" w0 = (Ok (Some r), w0) /\
    is_finite r = true /\
    Qabs (F2Q r - hemisphere "W" (exact_decimal 79 1 58 1 0 1)) <= 1 # 100000000 /\
    (exists (k : Z) (s : bool), r = RN s (inject_Z k / inject_Z (10 ^ 8))) /\
    get_decimal_from_dms (dms_triple 79 1 58 1 0 1) "N" w0 = (Ok (Some north), w0) /\
    r = (if existsb (String.eqb "W") ["S"; "W"]%string then Fopp north else north).
Proof. apply (gps_decimal_accuracy 79 1 58 1 0 1 "W" w0); lia. Defined.

(** C1 as stated fails.  At 4294967295 degrees and a third of a minute
    the floats are spaced [2^-21] apart, and the result is off the exact
    sum by more than [10^-8]. *)
Lemma gps_accuracy_counterexample :
  exists r,
    get_decimal_from_dms (dms_triple 4294967295 1 1 3 0 1) "N" w0 = (Ok (Some r), w0) /\
    (1 # 100000000) < Qabs (F2Q r - exact_decimal 4294967295 1 1 3 0 1).
Proof.
  eexists. split; [vm_compute; reflexivity|]. vm_compute. reflexivity.
Qed.

(** C2.  A triple with a zero denominator anywhere makes
    [get_decimal_from_dms] return [None], with a warning; so does every
    input on which the arithmetic raises; and whatever the input, no
    exception leaves the function. *)
Theorem gps_conversion_failure_is_caught n0 d0 n1 d1 n2 d2 dms ref w :
  (d0 = 0 \/ d1 = 0 \/ d2 = 0)%Z ->
  (exists e, get_decimal_from_dms (dms_triple n0 d0 n1 d1 n2 d2) ref w
             = (Ok None, warned w e)) /\
  (forall e, dms_arith dms ref = Raise e ->
             get_decimal_from_dms dms ref w = (Ok None, warned w e)) /\
  (exists r w', get_decimal_from_dms dms ref w = (Ok r, w')).
Proof.
  intros Hz. split; [|split].
  - rewrite get_decimal_spec.
    assert (R : exists e, dms_sum (dms_triple n0 d0 n1 d1 n2 d2) = Raise e).
    { rewrite dms_sum_triple. unfold int_truediv.
      destruct (Z.eqb_spec d0 0) as [|N0]; [eexists; reflexivity|].
      destruct (no_overflow _) as [f0|e0]; [|eexists; reflexivity]. cbn [rbind].
      destruct (Z.eqb_spec d1 0) as [|N1]; [eexists; reflexivity|].
      destruct (no_overflow _) as [f1|e1]; [|eexists; reflexivity]. cbn [rbind].
      destruct (Z.eqb_spec d2 0) as [|N2]; [eexists; reflexivity|].
      exfalso. lia. }
    destruct R as (e & R). exists e. unfold dms_arith. rewrite R. reflexivity.
  - intros e He. rewrite get_decimal_spec, He. reflexivity.
  - rewrite get_decimal_spec. destruct (dms_arith dms ref); eauto.
Qed.

(** C2 at a zero denominator in the minutes, and at a pair in place of
    a triple. *)
Lemma gps_conversion_failure_witness :
  (exists e, get_decimal_from_dms (dms_triple 40 1 26 0 0 1) "N" w0
             = (Ok None, warned w0 e)) /\
  (forall e, dms_arith (VTuple [TInt 40; TInt 26]) "N" = Raise e ->
             get_decimal_from_dms (VTuple [TInt 40; TInt 26]) "N" w0 = (Ok None, warned w0 e)) /\
  (exists r w', get_decimal_from_dms (VTuple [TInt 40; TInt 26]) "N" w0 = (Ok r, w')).
Proof.
  apply (gps_conversion_failure_is_caught 40 1 26 0 0 1 (VTuple [TInt 40; TInt 26]) "N" w0).
  right. left. reflexivity.
Defined.

(** C10 (amended).  For a triple of rationals with nonzero denominators
    whose terms are at most [2^1000] in magnitude, and every reference
    other than S and W, valid or not, [get_decimal_from_dms] returns
    without a warning what it returns for N: the sum
    [degrees + minutes/60 + seconds/3600] as computed in floats, not
    negated, rounded to 8 decimal places.  It differs from the exact sum
    by at most [5.001e-9 + 2^-50 * (|degrees| + |minutes|/60 +
    |seconds|/3600)]. *)
Theorem gps_reference_unvalidated n0 d0 n1 d1 n2 d2 ref w :
  (d0 <> 0)%Z -> (d1 <> 0)%Z -> (d2 <> 0)%Z ->
  (Z.abs n0 <= 2 ^ 1000 * Z.abs d0)%Z ->
  (Z.abs n1 <= 2 ^ 1000 * Z.abs d1)%Z ->
  (Z.abs n2 <= 2 ^ 1000 * Z.abs d2)%Z ->
  existsb (String.eqb ref) ["S"; "W"]%string = false ->
  exists d r,
    get_decimal_from_dms (dms_triple n0 d0 n1 d1 n2 d2) ref w = (Ok (Some r), w) /\
    get_decimal_from_dms (dms_triple n0 d0 n1 d1 n2 d2) "N" w = (Ok (Some r), w) /\
    dms_sum (dms_triple n0 d0 n1 d1 n2 d2) = Ok d /\
    py_round d 8 = Ok r /\
    is_finite r = true /\
    Qabs (F2Q r - exact_decimal n0 d0 n1 d1 n2 d2)
      <= (5001 # 1000000000000) + magnitude n0 d0 n1 d1 n2 d2 * pow2 (-50).
Proof.
  intros Hd0 Hd1 Hd2 H0 H1 H2 SW.
  pose proof (ratio_bound _ _ _ Hd0 H0) as B0.
  pose proof (ratio_bound _ _ _ Hd1 H1) as B1.
  pose proof (ratio_bound _ _ _ Hd2 H2) as B2.
  rewrite <- pow2_Z in B0, B1, B2 by lia.
  destruct (dms_arith_accuracy n0 d0 n1 d1 n2 d2 ref Hd0 Hd1 Hd2 B0 B1 B2)
    as (d & r & Sd & Fd & Er & Fr & Ar).
  exists d, r. rewrite !get_decimal_spec, <- (dms_arith_unvalidated _ _ SW), Er.
  split; [reflexivity|]. split; [reflexivity|]. split; [exact Sd|]. split.
  - unfold dms_arith in Er. rewrite Sd, SW in Er. exact Er.
  - split; [exact Fr|]. unfold hemisphere in Ar. rewrite SW in Ar. exact Ar.
Qed.

(** The amended C10 at the reference X. *)
Lemma gps_reference_unvalidated_witness :
  exists d r,
    get_decimal_from_dms (dms_triple 40 1 26 1 0 1) "X" w0 = (Ok (Some r), w0) /\
    get_decimal_from_dms (dms_triple 40 1 26 1 0 1) "N" w0 = (Ok (Some r), w0) /\
    dms_sum (dms_triple 40 1 26 1 0 1) = Ok d /\
    py_round d 8 = Ok r /\
    is_finite r = true /\
    Qabs (F2Q r - exact_decimal 40 1 26 1 0 1)
      <= (5001 # 1000000000000) + magnitude 40 1 26 1 0 1 * pow2 (-50).
Proof.
  apply (gps_reference_unvalidated 40 1 26 1 0 1 "X" w0);
    try (intro C; discriminate C); try reflexivity;
    apply Z.lt_le_incl; reflexivity.
Defined.

(** C10 as stated fails.  A numerator of 401 digits over denominator 1
    is a valid rational, but its quotient is beyond the range of a float:
    the division raises and the result is [None]. *)
Lemma gps_overflow_counterexample :
  get_decimal_from_dms (dms_triple (10 ^ 400) 1 0 1 0 1) "N" w0
  = (Ok None, warned w0 OverflowError).
Proof. vm_compute. reflexivity. Qed.

End CoordinateConverter.

(** ** The metadata extractor and the dump *)

Section Metadata.

(** *** Decoding *)

Lemma utf8_head_char l n : utf8_head l = UChar n -> (1 <= n <= List.length l)%nat.
Proof.
  unfold utf8_head. intros H.
  repeat match type of H with
         | (match ?l with [] => _ | _ :: _ => _ end) = _ => destruct l; cbn [List.length]
         | (if ?c then _ else _) = _ => destruct c
         | (let _ := _ in _) = _ => cbv zeta in H
         end; try discriminate H; injection H as <-; lia.
Qed.

Lemma utf8_head_invalid l n :
  l <> [] -> utf8_head l = UInvalid n -> (1 <= n <= List.length l)%nat.
Proof.
  unfold utf8_head. intros Hl H.
  repeat match type of H with
         | (match ?l with [] => _ | _ :: _ => _ end) = _ => destruct l; cbn [List.length]
         | (if ?c then _ else _) = _ => destruct c
         | (let _ := _ in _) = _ => cbv zeta in H
         end; try discriminate H; try congruence; injection H as <-; lia.
Qed.

(** The fuel of the decoder is enough: more changes nothing. *)
Lemma utf8_decode_fuel ignore f1 : forall f2 l,
  (List.length l <= f1)%nat -> (List.length l <= f2)%nat ->
  utf8_decode f1 ignore l = utf8_decode f2 ignore l.
Proof.
  induction f1 as [|f1 IH]; intros f2 l H1 H2.
  - destruct l; [|simpl in H1; lia]. destruct f2; reflexivity.
  - destruct l as [|b t]; [destruct f2; reflexivity|].
    destruct f2 as [|f2]; [simpl in H2; lia|].
    cbn [utf8_decode].
    destruct (utf8_head (b :: t)) as [n|n|] eqn:E.
    + apply utf8_head_char in E.
      rewrite (IH f2 (skipn n (b :: t))); [reflexivity| |];
        rewrite length_skipn; lia.
    + apply utf8_head_invalid in E; [|discriminate].
      destruct ignore; [|reflexivity].
      apply IH; rewrite length_skipn; lia.
    + reflexivity.
Qed.

(** *** get_primary_exif_values *)

Lemma group_get_dict ifd tag :
  group_get (GDict ifd) tag
  = Ok (match dict_get Z.eqb ifd tag with Some v => v | None => VNone end).
Proof. unfold group_get. destruct (dict_get Z.eqb ifd tag); reflexivity. Qed.

Lemma decode_lookup ifd tag :
  decode_if_bytes (match dict_get Z.eqb ifd tag with Some v => v | None => VNone end)
  = primary_value ifd tag.
Proof. unfold primary_value. destruct (dict_get Z.eqb ifd tag); reflexivity. Qed.

Lemma dict_set_fresh {V} (d : list (Z * V)) k v :
  existsb (Z.eqb k) (map fst d) = false -> dict_set Z.eqb d k v = (d ++ [(k, v)])%list.
Proof.
  induction d as [|[k' v'] d IH]; cbn [map fst existsb dict_set app]; intros H.
  - reflexivity.
  - apply orb_false_elim in H. destruct H as [H1 H2].
    rewrite Z.eqb_sym, H1, (IH H2). reflexivity.
Qed.

Lemma distinct_app a k b :
  distinct (a ++ k :: b) = true ->
  existsb (Z.eqb k) a = false /\ distinct ((a ++ [k]) ++ b) = true.
Proof.
  rewrite <- app_assoc. cbn [app].
  induction a as [|x a IH]; cbn [app distinct existsb]; intros H.
  - split; [reflexivity|exact H].
  - apply andb_prop in H. destruct H as [H1 H2].
    destruct (IH H2) as [I1 I2]. rewrite I1, I2, H1.
    rewrite existsb_app in H1. cbn [existsb] in H1.
    apply negb_true_iff in H1. apply orb_false_elim in H1. destruct H1 as [_ H1].
    apply orb_false_elim in H1. destruct H1 as [H1 _].
    rewrite Z.eqb_sym, H1. split; reflexivity.
Qed.

(** A literal whose keys are pairwise different is the mapping of its
    entries, in the order written. *)
Lemma dict_literal_distinct {V} (items : list (Z * V)) :
  distinct (map fst items) = true -> dict_literal Z.eqb items = items.
Proof.
  unfold dict_literal.
  assert (G : forall acc : list (Z * V),
            distinct (map fst acc ++ map fst items) = true ->
            fold_left (fun d kv => dict_set Z.eqb d (fst kv) (snd kv)) items acc
            = (acc ++ items)%list).
  { induction items as [|[k v] items IH]; intros acc H.
    - rewrite app_nil_r. reflexivity.
    - cbn [fold_left fst snd map] in *.
      destruct (distinct_app _ _ _ H) as [H1 H2].
      rewrite (dict_set_fresh _ _ _ H1).
      rewrite IH; [rewrite <- app_assoc; reflexivity|].
      rewrite map_app. exact H2. }
  intros H. apply (G [] H).
Qed.

Lemma tag_map_items ids :
  distinct (camera_tags ids) = true ->
  tag_map ids =
  [ (ImageIFD_Make ids, "Make"); (ImageIFD_Model ids, "Model");
    (ImageIFD_Orientation ids, "Orientation");
    (ImageIFD_XResolution ids, "XResolution");
    (ImageIFD_YResolution ids, "YResolution");
    (ImageIFD_ResolutionUnit ids, "ResolutionUnit");
    (ImageIFD_Software ids, "Software") ].
Proof. intros H. unfold tag_map. apply dict_literal_distinct. exact H. Qed.

Lemma primary_values_spec ids exif ifd :
  distinct (camera_tags ids) = true ->
  exif_get exif "0th" = GDict ifd ->
  get_primary_exif_values ids exif
  = Ok (map (fun tl => (snd tl, primary_value ifd (fst tl))) (tag_map ids)).
Proof.
  intros Hd H. unfold get_primary_exif_values. rewrite H.
  rewrite (tag_map_items ids Hd).
  unfold primary_loop. rewrite !group_get_dict. cbn [rbind].
  rewrite !decode_lookup. reflexivity.
Qed.

(** Each label of the table is a key of the record. *)
Lemma tag_map_lookup ids ifd tag label :
  distinct (camera_tags ids) = true ->
  In (tag, label) (tag_map ids) ->
  dict_get String.eqb
    (map (fun tl => (snd tl, primary_value ifd (fst tl))) (tag_map ids)) label
  = Some (primary_value ifd tag).
Proof.
  intros Hd HIn. rewrite (tag_map_items ids Hd) in *. simpl in HIn.
  repeat (destruct HIn as [E|HIn]; [injection E as <- <-; reflexivity|]).
  contradiction.
Qed.

(** C9.  Where the primary group is a mapping (or there is none), and
    the seven tags have seven different numbers,
    [get_primary_exif_values] returns a record with exactly the seven
    keys, in the order of the table; each holds the decoded value of its
    tag, and [None] when the tag is absent. *)
Theorem primary_record_has_seven_keys ids exif ifd :
  distinct (camera_tags ids) = true ->
  exif_get exif "0th" = GDict ifd ->
  exists r,
    get_primary_exif_values ids exif = Ok r /\
    map fst r = ["Make"; "Model"; "Orientation"; "XResolution"; "YResolution";
                 "ResolutionUnit"; "Software"] /\
    (forall tag label, In (tag, label) (tag_map ids) ->
       dict_get String.eqb r label = Some (primary_value ifd tag)) /\
    (forall tag label, In (tag, label) (tag_map ids) ->
       dict_get Z.eqb ifd tag = None -> dict_get String.eqb r label = Some VNone).
Proof.
  intros Hd H. eexists. split; [exact (primary_values_spec ids exif ifd Hd H)|].
  rewrite (tag_map_items ids Hd).
  split; [reflexivity|].
  assert (L : forall tag label,
            In (tag, label)
              [ (ImageIFD_Make ids, "Make"); (ImageIFD_Model ids, "Model");
                (ImageIFD_Orientation ids, "Orientation");
                (ImageIFD_XResolution ids, "XResolution");
                (ImageIFD_YResolution ids, "YResolution");
                (ImageIFD_ResolutionUnit ids, "ResolutionUnit");
                (ImageIFD_Software ids, "Software") ] ->
            dict_get String.eqb
              (map (fun tl => (snd tl, primary_value ifd (fst tl)))
                 [ (ImageIFD_Make ids, "Make"); (ImageIFD_Model ids, "Model");
                   (ImageIFD_Orientation ids, "Orientation");
                   (ImageIFD_XResolution ids, "XResolution");
                   (ImageIFD_YResolution ids, "YResolution");
                   (ImageIFD_ResolutionUnit ids, "ResolutionUnit");
                   (ImageIFD_Software ids, "Software") ]) label
            = Some (primary_value ifd tag)).
  { intros tag label HIn. simpl in HIn.
    repeat (destruct HIn as [E|HIn]; [injection E as <- <-; reflexivity|]).
    contradiction. }
  split; [exact L|].
  intros tag label HIn Habs. rewrite (L tag label HIn). unfold primary_value.
  rewrite Habs. reflexivity.
Qed.

(** C9 at the structure of an image without metadata. *)
Lemma primary_record_witness :
  exists r,
    get_primary_exif_values exif_ids empty_exif = Ok r /\
    map fst r = ["Make"; "Model"; "Orientation"; "XResolution"; "YResolution";
                 "ResolutionUnit"; "Software"] /\
    (forall tag label, In (tag, label) (tag_map exif_ids) ->
       dict_get String.eqb r label = Some (primary_value [] tag)) /\
    (forall tag label, In (tag, label) (tag_map exif_ids) ->
       dict_get Z.eqb (@nil (Z * value)) tag = None ->
       dict_get String.eqb r label = Some VNone).
Proof.
  apply (primary_record_has_seven_keys exif_ids empty_exif []); reflexivity.
Defined.

(** C3 (amended).  Where the primary group is a mapping (or there is
    none) and the seven tags have seven different numbers,
    [get_primary_exif_values] does not raise, and each of the seven tags
    that is absent from the group is in the record all the same, under
    its label, with the value [None], whatever else the group holds.  So
    when the group holds none of the seven camera tags the record is not
    empty: it is the seven labels, each with [None]. *)
Theorem primary_without_camera_tags ids exif ifd :
  distinct (camera_tags ids) = true ->
  exif_get exif "0th" = GDict ifd ->
  exists r,
    get_primary_exif_values ids exif = Ok r /\
    (forall tag label, In (tag, label) (combine (camera_tags ids) camera_labels) ->
       dict_get Z.eqb ifd tag = None -> dict_get String.eqb r label = Some VNone) /\
    ((forall tag label, In (tag, label) (tag_map ids) -> dict_get Z.eqb ifd tag = None) ->
     r = all_missing).
Proof.
  intros Hd H. eexists. split; [exact (primary_values_spec ids exif ifd Hd H)|]. split.
  - intros tag label HIn Habs.
    assert (HIn' : In (tag, label) (tag_map ids))
      by (rewrite (tag_map_items ids Hd); exact HIn).
    rewrite (tag_map_lookup ids ifd tag label Hd HIn').
    unfold primary_value. rewrite Habs. reflexivity.
  - intros Habs. rewrite (tag_map_items ids Hd) in *.
    unfold all_missing. cbn [map fst snd]. unfold primary_value.
    rewrite (Habs _ "Make"), (Habs _ "Model"), (Habs _ "Orientation"),
      (Habs _ "XResolution"), (Habs _ "YResolution"),
      (Habs _ "ResolutionUnit"), (Habs _ "Software")
      by (simpl; tauto).
    reflexivity.
Qed.

(** The amended C3 at a primary group with a maker and an orientation,
    and no other camera tag. *)
Lemma primary_without_camera_tags_witness :
  exists r,
    get_primary_exif_values exif_ids canon_exif = Ok r /\
    (forall tag label, In (tag, label) (combine (camera_tags exif_ids) camera_labels) ->
       dict_get Z.eqb [ (271, VBytes [x43; x61; x6e; x6f; x6e]%byte); (274, VInt 1) ] tag
       = None ->
       dict_get String.eqb r label = Some VNone) /\
    ((forall tag label, In (tag, label) (tag_map exif_ids) ->
        dict_get Z.eqb [ (271, VBytes [x43; x61; x6e; x6f; x6e]%byte); (274, VInt 1) ] tag
        = None) ->
     r = all_missing).
Proof.
  apply (primary_without_camera_tags exif_ids canon_exif
           [ (271, VBytes [x43; x61; x6e; x6f; x6e]%byte); (274, VInt 1) ]);
    reflexivity.
Defined.

Example primary_record_canon :
  get_primary_exif_values exif_ids canon_exif
  = Ok [ ("Make", VStr "Canon"); ("Model", VNone); ("Orientation", VInt 1);
         ("XResolution", VNone); ("YResolution", VNone);
         ("ResolutionUnit", VNone); ("Software", VNone) ].
Proof. reflexivity. Qed.

(** C3 as stated fails.  Without any camera tag the record is not empty:
    it has the seven keys. *)
Lemma primary_record_not_empty :
  get_primary_exif_values exif_ids empty_exif = Ok all_missing /\
  get_primary_exif_values exif_ids empty_exif <> Ok [].
Proof. split; [reflexivity|]. intros C. discriminate C. Qed.

(** *** display_all_exif *)

Lemma world_app w a b :
  mkWorld (page (mkWorld (page w ++ a) (files w)) ++ b) (files (mkWorld (page w ++ a) (files w)))
  = mkWorld (page w ++ a ++ b) (files w).
Proof. simpl. rewrite <- app_assoc. reflexivity. Qed.

Lemma world_nil w : mkWorld (page w ++ []) (files w) = w.
Proof. destruct w. simpl. rewrite app_nil_r. reflexivity. Qed.

Lemma for_each_emits {A} (xs : list A) (body : A -> M unit) (ev : A -> st_event) :
  (forall x w, body x w = (Ok tt, mkWorld (page w ++ [ev x]) (files w))) ->
  forall w, for_each xs body w = (Ok tt, mkWorld (page w ++ map ev xs) (files w)).
Proof.
  intros Hb. induction xs as [|x xs IH]; intros w.
  - simpl. unfold ret. rewrite world_nil. reflexivity.
  - cbn [for_each map]. unfold bind at 1. rewrite Hb, IH.
    rewrite world_app. reflexivity.
Qed.

(** A lookup in a mapping finds the first entry under the key. *)
Lemma dict_get_find {K V} (eqb : K -> K -> bool) (d : list (K * V)) k :
  dict_get eqb d k = option_map snd (find (fun e => eqb (fst e) k) d).
Proof.
  induction d as [|[k' v] d IH]; cbn [dict_get find fst]; [reflexivity|].
  destruct (eqb k' k); [reflexivity|exact IH].
Qed.

(** The label the code gives a tag is the one the page is meant to show. *)
Lemma tag_label_shown TAGS name tag :
  tag_label (match dict_get String.eqb TAGS name with
             | Some defs => defs
             | None => []
             end) tag
  = shown_name TAGS name tag.
Proof.
  unfold tag_label, shown_name, table_name. rewrite (dict_get_find String.eqb TAGS name).
  destruct (find (fun g => String.eqb (fst g) name) TAGS) as [[n defs]|]; cbn [option_map snd].
  - rewrite (dict_get_find Z.eqb defs tag). reflexivity.
  - reflexivity.
Qed.

(** So is the text the code gives a value. *)
Lemma decoded_text_shown v : py_str (decode_if_bytes v) = shown_text v.
Proof. destruct v; reflexivity. Qed.

Lemma display_group_spec TAGS entry w :
  display_group TAGS entry w
  = (Ok tt, mkWorld (page w ++ group_block TAGS entry) (files w)).
Proof.
  destruct entry as [name g]. unfold display_group, group_block. cbn [fst snd].
  destruct g as [[|t tags]|v]; cbn [is_shown group_tags].
  - unfold ret. rewrite world_nil. reflexivity.
  - unfold bind at 1. unfold emit at 1. cbv zeta.
    rewrite (for_each_emits (t :: tags) _ (tag_line TAGS name)).
    + rewrite world_app. reflexivity.
    + intros [tag v] w'. unfold tag_line. cbn [fst snd].
      rewrite <- tag_label_shown, <- decoded_text_shown. reflexivity.
  - unfold ret. rewrite world_nil. reflexivity.
Qed.


Example dump_of_known_and_unknown_tags :
  page (snd (display_all_exif [ ("0th", [ (271, "Make") ]) ]
               [ ("0th", GDict [ (271, VBytes [x43; x61; x6e; x6f; x6e]%byte);
                                 (50000, VInt 7) ]);
                 ("GPS", GDict []);
                 ("thumbnail", GOther (VBytes [xff; xd8]%byte)) ] w0))
  = [ StSubheader "0th EXIF"; StWrite "**Make:** Canon"; StWrite "**Tag 50000:** 7" ].
Proof. reflexivity. Qed.

(** C6 (amended).  Where the GPS group is a mapping (or there is none),
    one of the four GPS tags is absent, and the latitude reference, when
    it is there with the latitude, is a byte string that decodes,
    [extract_gps_coords] returns [(None, None)] and does not raise. *)
Theorem gps_missing_tag_gives_none ids exif gps w :
  exif_get exif "GPS" = GDict gps ->
  (dict_get Z.eqb gps (GPSIFD_GPSLatitude ids) = None \/
   dict_get Z.eqb gps (GPSIFD_GPSLatitudeRef ids) = None \/
   dict_get Z.eqb gps (GPSIFD_GPSLongitude ids) = None \/
   dict_get Z.eqb gps (GPSIFD_GPSLongitudeRef ids) = None) ->
  (forall dms v, dict_get Z.eqb gps (GPSIFD_GPSLatitude ids) = Some dms ->
                 dict_get Z.eqb gps (GPSIFD_GPSLatitudeRef ids) = Some v ->
                 exists s, value_decode v = Ok s) ->
  exists w', extract_gps_coords ids exif w = (Ok (None, None), w').
Proof.
  intros HG Habs Hdec. unfold extract_gps_coords. rewrite HG.
  unfold try_except, bind, lift, group_getitem, ret.
  destruct (dict_get Z.eqb gps (GPSIFD_GPSLatitude ids)) as [lat|] eqn:E1;
    [|eexists; reflexivity].
  destruct (dict_get Z.eqb gps (GPSIFD_GPSLatitudeRef ids)) as [latref|] eqn:E2;
    [|eexists; reflexivity].
  destruct (Hdec lat latref eq_refl eq_refl) as (s & Es). rewrite Es.
  rewrite get_decimal_spec.
  destruct (dict_get Z.eqb gps (GPSIFD_GPSLongitude ids)) as [lon|] eqn:E3;
    [|destruct (dms_arith lat s); eexists; reflexivity].
  destruct (dict_get Z.eqb gps (GPSIFD_GPSLongitudeRef ids)) as [lonref|] eqn:E4;
    [|destruct (dms_arith lat s); eexists; reflexivity].
  exfalso. destruct Habs as [C|[C|[C|C]]]; discriminate C.
Qed.

(** The amended C6 at a group with the latitude and no longitude. *)
Lemma gps_missing_tag_witness :
  exists w', extract_gps_coords exif_ids latitude_only w0 = (Ok (None, None), w').
Proof.
  apply (gps_missing_tag_gives_none exif_ids latitude_only
           [ (1, VBytes [x4e]%byte); (2, dms_triple 40 1 26 1 0 1) ] w0).
  - reflexivity.
  - right. right. left. reflexivity.
  - intros dms v _ E. injection E as <-. eexists. reflexivity.
Defined.

(** C6 as stated fails.  With the longitude absent and a latitude
    reference that is no UTF-8, the decoding error is no [KeyError] and
    leaves the function. *)
Lemma gps_missing_tag_counterexample :
  dict_get Z.eqb [ (1, VBytes [xff]%byte); (2, dms_triple 40 1 26 1 0 1) ]
           (GPSIFD_GPSLongitude exif_ids) = None /\
  extract_gps_coords exif_ids undecodable_reference w0 = (Raise UnicodeDecodeError, w0).
Proof. split; reflexivity. Qed.

End Metadata.

(** ** The render pass *)

Section RenderPass.

(** *** main *)

Lemma bind_ok {A B} (m : M A) (k : A -> M B) w b w2 :
  bind m k w = (Ok b, w2) ->
  exists a w1, m w = (Ok a, w1) /\ k a w1 = (Ok b, w2).
Proof.
  unfold bind. destruct (m w) as [[a|e] w1]; intros H; [eauto|discriminate].
Qed.

Lemma os_remove_ok path w w' :
  os_remove path w = (Ok tt, w') -> files w' path = None.
Proof.
  unfold os_remove. destruct (files w path); intros H; [|discriminate].
  injection H as <-. simpl. rewrite String.eqb_refl. reflexivity.
Qed.

(** A pass that ends normally has removed the temporary file. *)
Lemma main_removes_temp_file P up w w' :
  main P (Some up) w = (Ok tt, w') -> files w' temp_path = None.
Proof.
  unfold main. intros H.
  repeat (apply bind_ok in H; destruct H as (? & ? & _ & H)).
  eapply os_remove_ok. exact H.
Qed.

(** A pass in which the image cannot be opened ends at that call, and the
    temporary file stays. *)
Lemma main_open_failure P up w e :
  fs_write P temp_path (up_data up) (files w temp_path) = None ->
  Image_open P (up_data up) = Raise e ->
  exists w', main P (Some up) w = (Raise e, w') /\
             files w' temp_path = Some (up_data up).
Proof.
  intros Hw H. unfold main, bind, emit, write_file, file_content, lift.
  cbn [page files]. rewrite Hw. cbn [page files]. rewrite String.eqb_refl, H.
  eexists. split; [reflexivity|]. cbn [files]. rewrite String.eqb_refl. reflexivity.
Qed.

(** The same for a metadata payload that cannot be parsed. *)
Lemma main_load_failure P up w img e :
  fs_write P temp_path (up_data up) (files w temp_path) = None ->
  Image_open P (up_data up) = Ok img ->
  piexif_load P (match img_exif img with Some payload => payload | None => [] end) = Raise e ->
  exists w', main P (Some up) w = (Raise e, w') /\
             files w' temp_path = Some (up_data up).
Proof.
  intros Hw H1 H2. unfold main, bind, emit, write_file, file_content, lift.
  cbn [page files]. rewrite Hw. cbn [page files]. rewrite String.eqb_refl, H1, H2.
  eexists. split; [reflexivity|]. cbn [files]. rewrite String.eqb_refl. reflexivity.
Qed.

(** C7.  A pass whose upload the imaging library cannot open ends in
    the exception of that call, and the temporary file is still there:
    the removal at the end of the pass is not reached. *)
Theorem main_leaves_temp_file_behind :
  fst (main unreadable_platform (Some text_upload) w0)
    = Raise (LibraryError "UnidentifiedImageError") /\
  files (snd (main unreadable_platform (Some text_upload) w0)) temp_path
    = Some (up_data text_upload).
Proof. split; reflexivity. Qed.

End RenderPass.

(** ** The ladder of units *)

Section UnitLadder.
Local Open Scope Q_scope.

(** The unit index only grows, and stays within the ladder. *)
Lemma format_bytes_loop_index fuel : forall size n size' n',
  (n <= 4)%nat ->
  format_bytes_loop fuel size n = Ok (size', n') -> (n <= n' <= 4)%nat.
Proof.
  induction fuel as [|fuel IH]; intros size n size' n' Hn H.
  - injection H as _ <-. lia.
  - rewrite loop_step in H.
    destruct (py_gt_int size power); cbn [andb] in H.
    + destruct (Nat.ltb_spec n 4) as [L|L].
      * destruct (py_truediv_int size power) as [f|e]; cbn [rbind] in H; [|discriminate].
        apply IH in H; lia.
      * injection H as _ <-. lia.
    + injection H as _ <-. lia.
Qed.

(** X1.  Whenever [format_bytes] returns, for an [int] or a [float], the
    loop has stopped at an index within the ladder: the result is the
    two-decimal text of the scaled value, a space, and one of the five
    units.  The subscript [units[n]] is never out of range. *)
Theorem format_bytes_unit_in_ladder x s :
  format_bytes x = Ok s ->
  exists size n txt,
    format_bytes_loop (List.length units) x 0 = Ok (size, n) /\
    (n < List.length units)%nat /\
    py_format_2f size = Ok txt /\
    In (nth n units "") units /\
    s = (txt ++ " " ++ nth n units "")%string.
Proof.
  unfold format_bytes. intros H.
  destruct (format_bytes_loop (List.length units) x 0) as [[size n]|e] eqn:E;
    cbn [rbind] in H; [|discriminate].
  destruct (py_format_2f size) as [txt|e] eqn:F; cbn [rbind] in H; [|discriminate].
  injection H as <-.
  apply format_bytes_loop_index in E; [|lia].
  assert (L : (n < List.length units)%nat) by (change (List.length units) with 5%nat; lia).
  exists size, n, txt. repeat split; try assumption; try reflexivity.
  apply nth_In. exact L.
Qed.

(** X1 at a count of 2464153 bytes. *)
Lemma format_bytes_unit_in_ladder_witness :
  exists size n txt,
    format_bytes_loop (List.length units) (PInt 2464153) 0 = Ok (size, n) /\
    (n < List.length units)%nat /\
    py_format_2f size = Ok txt /\
    In (nth n units "") units /\
    "2.35 MB"%string = (txt ++ " " ++ nth n units "")%string.
Proof.
  apply (format_bytes_unit_in_ladder (PInt 2464153) "2.35 MB").
  vm_compute. reflexivity.
Defined.

(** Dividing a float of at least 1 by 1024 only lowers its exponent. *)
Lemma float_div_1024_scale f :
  is_finite f = true -> representable f -> 1 <= F2Q f ->
  exists f', py_truediv_int (PFloat f) 1024 = Ok f' /\
             is_finite f' = true /\ representable f' /\ F2Q f' == F2Q f * (1 # 1024).
Proof.
  intros Ff Rf H1. rewrite float_div_1024. eexists. split; [reflexivity|].
  destruct f as [| |s|s m e]; try discriminate.
  { simpl in H1. lra. }
  destruct Rf as (Rm & Re & Rv).
  assert (Pm : 0 < inject_Z (Zpos m)) by reflexivity.
  pose proof (pow2_pos e) as Pe.
  destruct s.
  { exfalso. cbn [F2Q Qsigned] in H1. nra. }
  cbn [F2Q Qsigned] in H1.
  assert (Mq : inject_Z (Zpos m) < pow2 53).
  { rewrite pow2_Z by lia. rewrite <- Zlt_Qlt. exact Rm. }
  assert (He : (-53 < e)%Z).
  { apply pow2_lt_inv.
    assert (S53 : pow2 53 * pow2 (-53) == 1) by (rewrite <- pow2_add; reflexivity).
    pose proof (pow2_pos (-53)). pose proof (pow2_pos 53). nra. }
  rewrite (Fdiv_finite (FFin false m e) (FFin false 4503599627370496 (-42)) eq_refl eq_refl).
  cbn [is_neg xorb].
  assert (K : F2Q (FFin false 4503599627370496 (-42)) == 1024) by reflexivity.
  assert (E : F2Q (FFin false m e) / F2Q (FFin false 4503599627370496 (-42))
              == Qsigned false (inject_Z (Zpos m) * pow2 (e - 10))).
  { rewrite K. cbn [F2Q Qsigned].
    replace e with ((e - 10) + 10)%Z at 1 by lia. rewrite pow2_add.
    change (pow2 10) with 1024. field. }
  destruct (RN_exact false _ false (Zpos m) (e - 10) ltac:(lia) ltac:(unfold emin; lia) E)
    as (F1 & F2 & F3).
  { apply Qle_lt_trans with (inject_Z (Zpos m) * pow2 e); [|exact Rv].
    assert (pow2 (e - 10) <= pow2 e) by (apply pow2_le; lia). nra. }
  split; [exact F1|]. split; [apply RN_representable|].
  rewrite F3, K. field.
Qed.

Lemma float_gt_power f :
  is_finite f = true -> 1024 < F2Q f -> py_gt_int (PFloat f) power = true.
Proof.
  intros Ff H. destruct f; try discriminate; cbn [py_gt_int];
    apply negb_true_iff; apply not_true_iff_false; rewrite Qle_bool_iff;
    change (inject_Z power) with 1024; lra.
Qed.

(** X2.  For every byte count above [1024^4], up to [2^1023], the loop
    divides four times and stops at the last unit: [format_bytes] returns
    a value in TB, however large (1024.00 TB and more are printed as
    such).  The value printed is the two-decimal text of a float within
    one rounding, relative [2^-53], of the exact quotient [b / 1024^4]. *)
Theorem format_bytes_terabyte_ceiling b :
  (1024 ^ 4 < b <= 2 ^ 1023)%Z ->
  exists f,
    format_bytes_loop (List.length units) (PInt b) 0 = Ok (PFloat f, 4%nat) /\
    format_bytes (PInt b) = Ok (fixed2 false (F2Q f) ++ " TB")%string /\
    Qabs (F2Q f - scaled b 4) <= scaled b 4 * u53 + eta.
Proof.
  intros [Hlo Hhi].
  assert (Bq : 1099511627777 <= inject_Z b).
  { change 1099511627777 with (inject_Z (1024 ^ 4 + 1)). rewrite <- Zle_Qle. lia. }
  assert (Bh : inject_Z b <= pow2 1023).
  { rewrite pow2_Z by lia. rewrite <- Zle_Qle. exact Hhi. }
  pose proof (pow2_pos 1023) as P1023.
  assert (Q1 : ratio b 1024 == inject_Z b * (1 # 1024)) by (unfold ratio; field).
  destruct (int_truediv_near b 1024 (ratio b 1024)) as (f1 & E1 & R1 & F1 & L1 & U1);
    [lia|lra|lra|lra|].
  pose proof eta_tiny as Et. assert (Et0 : 0 < eta) by apply pow2_pos.
  change u53 with (1 # 9007199254740992) in *.
  set (q1 := ratio b 1024) in *.
  assert (G1 : 1073741824 < F2Q f1) by lra.
  destruct (float_div_1024_scale f1 F1 R1 ltac:(lra)) as (f2 & E2 & F2 & R2 & V2).
  destruct (float_div_1024_scale f2 F2 R2 ltac:(lra)) as (f3 & E3 & F3 & R3 & V3).
  destruct (float_div_1024_scale f3 F3 R3 ltac:(lra)) as (f4 & E4 & F4 & R4 & V4).
  assert (L : format_bytes_loop (List.length units) (PInt b) 0 = Ok (PFloat f4, 4%nat)).
  { change (List.length units) with 5%nat.
    rewrite loop_step. unfold py_gt_int at 1. unfold power at 1.
    replace (1024 <? b)%Z with true by (symmetry; apply Z.ltb_lt; lia).
    cbn [andb Nat.ltb Nat.leb]. unfold py_truediv_int at 1. unfold power at 1.
    rewrite E1. cbn [rbind].
    rewrite loop_step, (float_gt_power f1 F1 ltac:(lra)). cbn [andb Nat.ltb Nat.leb].
    unfold power at 1. rewrite E2. cbn [rbind].
    rewrite loop_step, (float_gt_power f2 F2 ltac:(lra)). cbn [andb Nat.ltb Nat.leb].
    unfold power at 1. rewrite E3. cbn [rbind].
    rewrite loop_step, (float_gt_power f3 F3 ltac:(lra)). cbn [andb Nat.ltb Nat.leb].
    unfold power at 1. rewrite E4. cbn [rbind].
    rewrite loop_step. cbn [Nat.ltb Nat.leb]. rewrite andb_false_r. reflexivity. }
  exists f4. split; [exact L|]. split.
  - unfold format_bytes. rewrite L. cbn [rbind py_format_2f nth units].
    unfold format_2f. destruct f4 as [| |s|s m e]; try discriminate.
    + exfalso. simpl in V4. lra.
    + destruct s; [|reflexivity]. exfalso.
      assert (0 < F2Q (FFin true m e)) by lra.
      cbn [F2Q Qsigned] in H. pose proof (pow2_pos e).
      assert (0 < inject_Z (Zpos m)) by reflexivity. nra.
  - assert (S4 : scaled b 4 == inject_Z b * (1 # 1099511627776)).
    { unfold scaled. change (inject_Z (1024 ^ Z.of_nat 4)) with 1099511627776. field. }
    rewrite S4. apply Qabs_diff_Qle_condition. split; lra.
Qed.

(** X2 at a count of [2^60] bytes. *)
Lemma format_bytes_terabyte_ceiling_witness :
  exists f,
    format_bytes_loop (List.length units) (PInt (2 ^ 60)) 0 = Ok (PFloat f, 4%nat) /\
    format_bytes (PInt (2 ^ 60)) = Ok (fixed2 false (F2Q f) ++ " TB")%string /\
    Qabs (F2Q f - scaled (2 ^ 60) 4) <= scaled (2 ^ 60) 4 * u53 + eta.
Proof.
  apply (format_bytes_terabyte_ceiling (2 ^ 60)).
  split; [reflexivity|]. vm_compute. intros C. discriminate C.
Defined.

Example format_bytes_exbibyte : format_bytes (PInt (2 ^ 60)) = Ok "1048576.00 TB"%string.
Proof. vm_compute. reflexivity. Qed.

End UnitLadder.

(** ** Signs and infinities of a coordinate *)

Section CoordinateSigns.
Local Open Scope Q_scope.

Lemma mk_float_sign s M e :
  is_number (mk_float s M e) = true /\ is_neg (mk_float s M e) = s.
Proof.
  unfold mk_float. destruct M as [|p|p]; try (split; reflexivity).
  destruct (p =? 9007199254740992)%positive; split; reflexivity.
Qed.

(** Rounding gives a number, with the sign of what is rounded. *)
Lemma RN_sign zs q :
  is_number (RN zs q) = true /\
  (0 < q -> is_neg (RN zs q) = false) /\
  (q < 0 -> is_neg (RN zs q) = true) /\
  (q == 0 -> RN zs q = FZero zs).
Proof.
  assert (G : forall p, is_number (RN_core zs p) = true /\
                        (0 < p -> is_neg (RN_core zs p) = false) /\
                        (p < 0 -> is_neg (RN_core zs p) = true)).
  { intros p. unfold RN_core.
    destruct (Qnum p) eqn:E.
    - split; [reflexivity|]. split; intros H; exfalso; unfold Qlt in H; simpl in H; lia.
    - cbv zeta. change (Z.pos p0 <? 0)%Z with false.
      destruct (Qle_bool _ _).
      + split; [reflexivity|]. split; [reflexivity|].
        intros H. exfalso. unfold Qlt in H. simpl in H. lia.
      + destruct (mk_float_sign false (rhe (Qabs p / pow2 (ulp_exp (Qabs p)))) (ulp_exp (Qabs p)))
          as [M1 M2].
        split; [exact M1|]. split; [intros _; exact M2|].
        intros H. exfalso. unfold Qlt in H. simpl in H. lia.
    - cbv zeta. change (Z.neg p0 <? 0)%Z with true.
      destruct (Qle_bool _ _).
      + split; [reflexivity|]. split; [|reflexivity].
        intros H. exfalso. unfold Qlt in H. simpl in H. lia.
      + destruct (mk_float_sign true (rhe (Qabs p / pow2 (ulp_exp (Qabs p)))) (ulp_exp (Qabs p)))
          as [M1 M2].
        split; [exact M1|]. split; [|intros _; exact M2].
        intros H. exfalso. unfold Qlt in H. simpl in H. lia. }
  unfold RN. destruct (G (Qred q)) as (G1 & G2 & G3).
  split; [exact G1|]. split; [|split].
  - intros H. apply G2. rewrite Qred_correct. exact H.
  - intros H. apply G3. rewrite Qred_correct. exact H.
  - intros H. apply (RN_zero zs q H).
Qed.

Lemma RN_nonneg q : 0 <= q -> nonneg (RN false q).
Proof.
  intros H. destruct (RN_sign false q) as (N1 & N2 & _ & N4).
  destruct (Qlt_le_dec 0 q) as [P|Z].
  - split; [exact N1|]. split; [exact (N2 P)|].
    destruct (RN false q) as [| | |s m e]; try (simpl; lra).
    specialize (N2 P). simpl in N2. subst s. cbn [F2Q Qsigned].
    pose proof (pow2_pos e). assert (0 < inject_Z (Zpos m)) by reflexivity. nra.
  - rewrite N4 by lra. repeat split. simpl. lra.
Qed.

Lemma int_truediv_nonneg n d f :
  (0 <= n)%Z -> (0 < d)%Z -> int_truediv n d = Ok f ->
  nonneg f /\ is_finite f = true.
Proof.
  intros Hn Hd. unfold int_truediv.
  destruct (Z.eqb_spec d 0); [lia|].
  replace (xorb (n <? 0)%Z (d <? 0)%Z) with false.
  2:{ destruct (Z.ltb_spec n 0); [lia|]. destruct (Z.ltb_spec d 0); [lia|]. reflexivity. }
  assert (Q : 0 <= ratio n d).
  { unfold ratio. apply Qle_shift_div_l.
    - change 0 with (inject_Z 0). rewrite <- Zlt_Qlt. exact Hd.
    - rewrite Qmult_0_l. change 0 with (inject_Z 0). rewrite <- Zle_Qle. exact Hn. }
  pose proof (RN_nonneg _ Q) as N.
  destruct (RN false (ratio n d)) as [|s|s|s m e]; cbn [no_overflow]; intros H;
    try discriminate; injection H as <-;
    (split; [exact N|]); try reflexivity; destruct N as [C _]; discriminate C.
Qed.

Lemma float_div_nonneg f k g :
  (0 < k < 2 ^ 53)%Z -> nonneg f -> is_finite f = true ->
  py_truediv_int (PFloat f) k = Ok g -> nonneg g.
Proof.
  intros Hk (N1 & N2 & N3) Ff. unfold py_truediv_int.
  destruct (float_of_int_exact k ltac:(lia)) as (kf & E & K1 & K2 & K3).
  rewrite E. cbn [rbind]. unfold float_truediv.
  assert (Kp : 0 < inject_Z k).
  { change 0 with (inject_Z 0). rewrite <- Zlt_Qlt. lia. }
  destruct (is_zero kf); [discriminate|]. intros H. injection H as <-.
  rewrite (Fdiv_finite _ _ Ff K1), N2, K2.
  replace (k <? 0)%Z with false by (symmetry; apply Z.ltb_ge; lia).
  apply RN_nonneg. rewrite K3. apply Qle_shift_div_l; [exact Kp|]. lra.
Qed.

Lemma Fadd_nonneg x y : nonneg x -> nonneg y -> nonneg (Fadd x y).
Proof.
  intros (X1 & X2 & X3) (Y1 & Y2 & Y3).
  destruct x as [|sx|sx|sx mx ex]; try discriminate;
    destruct y as [|sy|sy|sy my ey]; try discriminate;
    cbn [is_neg] in X2, Y2; subst;
    try (repeat split; simpl; lra);
    unfold Fadd; cbn [is_neg andb]; apply RN_nonneg; lra.
Qed.

Lemma dms_sum_nonneg n0 d0 n1 d1 n2 d2 d :
  (0 <= n0)%Z -> (0 < d0)%Z -> (0 <= n1)%Z -> (0 < d1)%Z -> (0 <= n2)%Z -> (0 < d2)%Z ->
  dms_sum (dms_triple n0 d0 n1 d1 n2 d2) = Ok d -> nonneg d.
Proof.
  intros Hn0 Hd0 Hn1 Hd1 Hn2 Hd2. rewrite dms_sum_triple. intros H.
  apply rbind_ok in H. destruct H as (degrees & E0 & H).
  apply rbind_ok in H. destruct H as (minutes & E1 & H).
  apply rbind_ok in H. destruct H as (seconds & E2 & H).
  apply rbind_ok in H. destruct H as (min60 & E3 & H).
  apply rbind_ok in H. destruct H as (sec3600 & E4 & H).
  injection H as <-.
  destruct (int_truediv_nonneg _ _ _ Hn0 Hd0 E0) as [N0 F0].
  destruct (int_truediv_nonneg _ _ _ Hn1 Hd1 E1) as [N1 F1].
  destruct (int_truediv_nonneg _ _ _ Hn2 Hd2 E2) as [N2 F2].
  pose proof (float_div_nonneg _ 60 _ ltac:(lia) N1 F1 E3) as M.
  pose proof (float_div_nonneg _ 3600 _ ltac:(lia) N2 F2 E4) as S.
  apply Fadd_nonneg; [apply Fadd_nonneg|]; assumption.
Qed.

(** Rounding to decimals gives a number and keeps the sign. *)
Lemma py_round_sign f r n :
  is_number f = true -> py_round f n = Ok r ->
  is_number r = true /\ is_neg r = is_neg f.
Proof.
  intros Nf. destruct f as [|s|s|s m e]; try discriminate; cbn [py_round].
  - intros H. injection H as <-. split; reflexivity.
  - intros H. injection H as <-. split; reflexivity.
  - set (scale := inject_Z (10 ^ Z.of_nat n)).
    set (N := rhe (Qabs (F2Q (FFin s m e)) * scale)).
    assert (Sc : 0 < scale).
    { unfold scale. change 0 with (inject_Z 0). rewrite <- Zlt_Qlt.
      apply Z.pow_pos_nonneg; lia. }
    assert (HN : (0 <= N)%Z).
    { apply (rhe_ge_Z _ 0). pose proof (Qabs_nonneg (F2Q (FFin s m e))).
      change (inject_Z 0) with 0. nra. }
    assert (Y : 0 <= inject_Z N / scale).
    { apply Qle_shift_div_l; [exact Sc|]. rewrite Qmult_0_l.
      change 0 with (inject_Z 0). rewrite <- Zle_Qle. exact HN. }
    destruct (RN_sign s (Qsigned s (inject_Z N / scale))) as (R1 & R2 & R3 & R4).
    intros H.
    assert (E : r = RN s (Qsigned s (inject_Z N / scale))).
    { destruct (RN s (Qsigned s (inject_Z N / scale))); cbn [no_overflow] in H;
        try discriminate; injection H as <-; reflexivity. }
    subst r. split; [exact R1|]. cbn [is_neg].
    destruct (Qlt_le_dec 0 (inject_Z N / scale)) as [P|Z].
    + destruct s; unfold Qsigned in *; [apply R3|apply R2]; lra.
    + rewrite R4; [reflexivity|]. destruct s; unfold Qsigned; lra.
Qed.

Lemma Fmul_neg_one_sign f :
  nonneg f -> is_number (Fmul f neg_one) = true /\ is_neg (Fmul f neg_one) = true.
Proof.
  intros (N1 & N2 & N3).
  destruct f as [|s|s|s m e]; try discriminate; cbn [is_neg] in N2; subst s.
  - split; reflexivity.
  - rewrite (Fmul_finite (FZero false) neg_one eq_refl eq_refl).
    rewrite RN_zero by (simpl F2Q; ring). split; reflexivity.
  - rewrite (Fmul_finite (FFin false m e) neg_one eq_refl eq_refl).
    destruct (RN_sign (xorb (is_neg (FFin false m e)) (is_neg neg_one))
                (F2Q (FFin false m e) * F2Q neg_one)) as (R1 & _ & R3 & _).
    split; [exact R1|]. apply R3.
    assert (K : F2Q neg_one == -1) by reflexivity. rewrite K.
    cbn [F2Q Qsigned]. pose proof (pow2_pos e).
    assert (0 < inject_Z (Zpos m)) by reflexivity. nra.
Qed.

(** X3.  For a triple of rationals with numerators not negative and
    denominators positive, as the metadata stores them, whatever
    [get_decimal_from_dms] returns has the sign of the reference: negative
    (or minus zero) for S and W, and never positive; not negative for any
    other reference.  It is never a NaN. *)
Theorem gps_sign_follows_reference n0 d0 n1 d1 n2 d2 ref w r w' :
  (0 <= n0)%Z -> (0 < d0)%Z -> (0 <= n1)%Z -> (0 < d1)%Z -> (0 <= n2)%Z -> (0 < d2)%Z ->
  get_decimal_from_dms (dms_triple n0 d0 n1 d1 n2 d2) ref w = (Ok (Some r), w') ->
  is_number r = true /\
  is_neg r = existsb (String.eqb ref) ["S"; "W"]%string /\
  (if existsb (String.eqb ref) ["S"; "W"]%string then F2Q r <= 0 else 0 <= F2Q r).
Proof.
  intros Hn0 Hd0 Hn1 Hd1 Hn2 Hd2. rewrite get_decimal_spec.
  destruct (dms_arith (dms_triple n0 d0 n1 d1 n2 d2) ref) as [r'|e] eqn:A; [|discriminate].
  intros H. injection H as -> _.
  unfold dms_arith in A.
  apply rbind_ok in A. destruct A as (d & Ed & A).
  pose proof (dms_sum_nonneg _ _ _ _ _ _ _ Hn0 Hd0 Hn1 Hd1 Hn2 Hd2 Ed) as Nd.
  apply rbind_ok in A. destruct A as (d' & Ed' & A).
  assert (S : is_number r = true /\ is_neg r = existsb (String.eqb ref) ["S"; "W"]%string).
  { destruct (existsb (String.eqb ref) ["S"; "W"]%string).
    - rewrite float_of_int_neg_one in Ed'. cbn [rbind] in Ed'. injection Ed' as <-.
      destruct (Fmul_neg_one_sign d Nd) as [M1 M2].
      destruct (py_round_sign _ _ _ M1 A) as [R1 R2]. rewrite R2, M2.
      split; [exact R1|reflexivity].
    - injection Ed' as <-. destruct Nd as (D1 & D2 & _).
      destruct (py_round_sign _ _ _ D1 A) as [R1 R2]. rewrite R2, D2.
      split; [exact R1|reflexivity]. }
  destruct S as [S1 S2]. split; [exact S1|]. split; [exact S2|].
  rewrite <- S2. destruct r as [|s|s|s m e]; try (destruct s; simpl; lra); try (simpl; lra).
  cbn [is_neg F2Q]. pose proof (pow2_pos e).
  assert (0 < inject_Z (Zpos m)) by reflexivity.
  destruct s; unfold Qsigned; nra.
Qed.

(** X3 at 79 degrees 58 minutes west. *)
Lemma gps_sign_follows_reference_witness :
  is_number (FFin true 5627153909641760 (-46)) = true /\
  is_neg (FFin true 5627153909641760 (-46)) = existsb (String.eqb "W") ["S"; "W"]%string /\
  (if existsb (String.eqb "W") ["S"; "W"]%string
   then F2Q (FFin true 5627153909641760 (-46)) <= 0
   else 0 <= F2Q (FFin true 5627153909641760 (-46))).
Proof.
  apply (gps_sign_follows_reference 79 1 58 1 0 1 "W" w0
           (FFin true 5627153909641760 (-46)) w0); try lia.
  vm_compute. reflexivity.
Defined.

Lemma truediv_finite x y f :
  truediv x y = Ok f -> is_finite f = true /\ representable f.
Proof.
  destruct x; try discriminate. destruct y; try discriminate.
  cbn [truediv]. unfold int_truediv. destruct (z0 =? 0)%Z; [discriminate|].
  pose proof (RN_representable (xorb (z <? 0)%Z (z0 <? 0)%Z) (ratio z z0)) as R.
  destruct (RN_sign (xorb (z <? 0)%Z (z0 <? 0)%Z) (ratio z z0)) as (N & _).
  destruct (RN _ (ratio z z0)); cbn [no_overflow]; intros H; try discriminate;
    injection H as <-; split; try reflexivity; exact R.
Qed.

Lemma float_div_finite f k g :
  (2 <= k < 2 ^ 53)%Z -> is_finite f = true -> representable f ->
  py_truediv_int (PFloat f) k = Ok g -> is_finite g = true.
Proof.
  intros Hk Ff Rf. unfold py_truediv_int.
  destruct (float_of_int_exact k ltac:(lia)) as (kf & E & K1 & K2 & K3).
  rewrite E. cbn [rbind]. unfold float_truediv.
  destruct (is_zero kf); [discriminate|]. intros H. injection H as <-.
  rewrite (Fdiv_finite _ _ Ff K1).
  assert (Kp : 2 <= inject_Z k).
  { change 2 with (inject_Z 2). rewrite <- Zle_Qle. lia. }
  assert (B : - (2 * pow2 1023) <= F2Q f /\ F2Q f <= 2 * pow2 1023).
  { rewrite <- pow2_succ. change (1023 + 1)%Z with emax.
    pose proof (pow2_pos emax) as Pm.
    destruct f as [| |s|s m e]; try discriminate.
    - simpl. lra.
    - destruct Rf as (_ & _ & Rv). cbn [F2Q]. pose proof (pow2_pos e).
      assert (0 < inject_Z (Zpos m)) by reflexivity.
      destruct s; unfold Qsigned; split; nra. }
  pose proof (pow2_pos 1023) as P.
  apply RN_error. apply Qabs_Qle_condition.
  assert (D : F2Q f / F2Q kf * inject_Z k == F2Q f) by (rewrite K3; field; lra).
  set (y := F2Q f / F2Q kf) in *. set (kk := inject_Z k) in *. set (B0 := pow2 1023) in *.
  split.
  - destruct (Qlt_le_dec y (- B0)) as [C|]; [exfalso|assumption]. nra.
  - destruct (Qlt_le_dec B0 y) as [C|]; [exfalso|assumption]. nra.
Qed.

Lemma Fadd_number x y :
  is_number x = true -> is_finite y = true -> is_number (Fadd x y) = true.
Proof.
  intros Nx Fy. destruct x as [|sx|sx|sx mx ex]; try discriminate;
    destruct y as [|sy|sy|sy my ey]; try discriminate; try reflexivity;
    unfold Fadd; apply RN_sign.
Qed.

Lemma Fmul_number x y :
  is_number x = true -> is_finite y = true -> ~ F2Q y == 0 ->
  is_number (Fmul x y) = true.
Proof.
  intros Nx Fy Hy. destruct x as [|sx|sx|sx mx ex]; try discriminate;
    destruct y as [|sy|sy|sy my ey]; try discriminate; try reflexivity;
    try (exfalso; apply Hy; reflexivity);
    unfold Fmul; apply RN_sign.
Qed.

Lemma finite_number f : is_finite f = true -> is_number f = true.
Proof. destruct f; try discriminate; reflexivity. Qed.

(** X4.  For every input made of integers, tuples, strings, byte strings
    and [None], well-formed as a triple of rationals or not, and of any
    size and sign, a coordinate that [get_decimal_from_dms] returns is
    never a NaN: it is a finite float or, where the sum overflows, an
    infinity (which [round] lets through).  (An input with a [float] in it
    is outside the values considered: a NaN put in comes out.) *)
Theorem gps_result_is_a_number dms ref w r w' :
  get_decimal_from_dms dms ref w = (Ok (Some r), w') -> is_number r = true.
Proof.
  rewrite get_decimal_spec.
  destruct (dms_arith dms ref) as [r'|e] eqn:A; [|discriminate].
  intros H. injection H as -> _.
  unfold dms_arith in A.
  apply rbind_ok in A. destruct A as (d & Ed & A).
  apply rbind_ok in A. destruct A as (d' & Ed' & A).
  assert (Nd : is_number d = true).
  { unfold dms_sum in Ed.
    repeat match type of Ed with
           | rbind (getitem _ _) _ = Ok _ =>
               apply rbind_ok in Ed; destruct Ed as (? & _ & Ed)
           end.
    apply rbind_ok in Ed. destruct Ed as (degrees & E0 & Ed).
    repeat match type of Ed with
           | rbind (getitem _ _) _ = Ok _ =>
               apply rbind_ok in Ed; destruct Ed as (? & _ & Ed)
           end.
    apply rbind_ok in Ed. destruct Ed as (minutes & E1 & Ed).
    repeat match type of Ed with
           | rbind (getitem _ _) _ = Ok _ =>
               apply rbind_ok in Ed; destruct Ed as (? & _ & Ed)
           end.
    apply rbind_ok in Ed. destruct Ed as (seconds & E2 & Ed).
    apply rbind_ok in Ed. destruct Ed as (min60 & E3 & Ed).
    apply rbind_ok in Ed. destruct Ed as (sec3600 & E4 & Ed).
    injection Ed as <-.
    destruct (truediv_finite _ _ _ E0) as [F0 R0].
    destruct (truediv_finite _ _ _ E1) as [F1 R1].
    destruct (truediv_finite _ _ _ E2) as [F2 R2].
    pose proof (float_div_finite _ 60 _ ltac:(lia) F1 R1 E3) as M.
    pose proof (float_div_finite _ 3600 _ ltac:(lia) F2 R2 E4) as S.
    apply Fadd_number; [apply Fadd_number|]; try assumption.
    apply finite_number. exact F0. }
  assert (Nd' : is_number d' = true).
  { destruct (existsb (String.eqb ref) ["S"; "W"]%string).
    - rewrite float_of_int_neg_one in Ed'. cbn [rbind] in Ed'. injection Ed' as <-.
      apply Fmul_number; [exact Nd|reflexivity|]. intros C. discriminate C.
    - injection Ed' as <-. exact Nd. }
  exact (proj1 (py_round_sign _ _ _ Nd' A)).
Qed.

(** X4 at 40 degrees 26 minutes north. *)
Lemma gps_result_is_a_number_witness :
  is_number (FFin false 5690485778697971 (-47)) = true.
Proof.
  apply (gps_result_is_a_number (dms_triple 40 1 26 1 0 1) "N" w0
           (FFin false 5690485778697971 (-47)) w0).
  vm_compute. reflexivity.
Defined.

(** An infinity does come out: the largest float for the degrees and for
    the minutes. *)
Example gps_infinite :
  fst (get_decimal_from_dms
         (dms_triple (2 ^ 1024 - 2 ^ 971) 1 (2 ^ 1024 - 2 ^ 971) 1 0 1) "N" w0)
  = Ok (Some (FInf false)).
Proof. vm_compute. reflexivity. Qed.

Local Open Scope Z_scope.

(** X5.  For every input, well-formed or not, and bounded or not, the
    references S and W give exactly what N gives with the sign flipped:
    the same failure with the same warning, or the negated float. *)
Theorem gps_south_west_negates dms ref w :
  ref = "S"%string \/ ref = "W"%string ->
  exists north w',
    get_decimal_from_dms dms "N" w = (Ok north, w') /\
    get_decimal_from_dms dms ref w = (Ok (negated north), w').
Proof.
  intros H.
  assert (SW : existsb (String.eqb ref) ["S"; "W"]%string = true)
    by (destruct H as [-> | ->]; reflexivity).
  rewrite !get_decimal_spec, (dms_arith_negated dms ref SW).
  destruct (dms_arith dms "N") as [r|e]; cbn [rmap]; eexists _, _; split; reflexivity.
Qed.

(** X5 at 79 degrees 58 minutes, west against north. *)
Lemma gps_south_west_negates_witness :
  exists north w',
    get_decimal_from_dms (dms_triple 79 1 58 1 0 1) "N" w0 = (Ok north, w') /\
    get_decimal_from_dms (dms_triple 79 1 58 1 0 1) "W" w0 = (Ok (negated north), w').
Proof.
  apply (gps_south_west_negates (dms_triple 79 1 58 1 0 1) "W" w0).
  right. reflexivity.
Defined.

(** X6.  [get_decimal_from_dms] never touches a file, and the page tells
    the two outcomes apart: a coordinate is returned with the page as it
    was, and [None] with exactly one warning added to it. *)
Theorem gps_conversion_warns_iff_none dms ref w :
  exists r w',
    get_decimal_from_dms dms ref w = (Ok r, w') /\
    files w' = files w /\
    match r with
    | Some _ => w' = w
    | None => exists e,
        page w' = (page w ++ [StWarning "Failed to convert GPS to decimal: " e])%list
    end.
Proof.
  rewrite get_decimal_spec. destruct (dms_arith dms ref) as [r|e]; eexists _, _.
  - split; [reflexivity|]. split; reflexivity.
  - split; [reflexivity|]. split; [reflexivity|]. exists e. reflexivity.
Qed.

End CoordinateSigns.

(** ** More on the extractors *)

Section Extraction.

(** The decoder raises nothing but [UnicodeDecodeError], and nothing at
    all when told to ignore errors. *)
Lemma utf8_decode_raises fuel : forall ignore l e,
  utf8_decode fuel ignore l = Raise e -> e = UnicodeDecodeError /\ ignore = false.
Proof.
  induction fuel as [|fuel IH]; intros ignore l e H; [discriminate|].
  cbn [utf8_decode] in H. destruct l as [|b t]; [discriminate|].
  destruct (utf8_head (b :: t)) as [n|n|].
  - destruct (utf8_decode fuel ignore (skipn n (b :: t))) as [r|e'] eqn:E;
      cbn [rbind] in H; [discriminate|].
    injection H as <-. exact (IH _ _ _ E).
  - destruct ignore; [exact (IH _ _ _ H)|]. injection H as <-. split; reflexivity.
  - destruct ignore; [discriminate|]. injection H as <-. split; reflexivity.
Qed.

Lemma value_decode_raises v e :
  value_decode v = Raise e -> e = AttributeError \/ e = UnicodeDecodeError.
Proof.
  destruct v; cbn [value_decode]; intros H; try (injection H as <-; left; reflexivity).
  unfold bytes_decode in H.
  destruct (utf8_decode (List.length b) false b) as [t|e'] eqn:E; cbn [rbind] in H;
    [discriminate|].
  injection H as <-. right. exact (proj1 (utf8_decode_raises _ _ _ _ E)).
Qed.

(** [extract_gps_coords] on a GPS group that is a mapping, step by step. *)
Lemma extract_gps_mapping ids exif gps w :
  exif_get exif "GPS" = GDict gps ->
  extract_gps_coords ids exif w =
  match dict_get Z.eqb gps (GPSIFD_GPSLatitude ids),
        dict_get Z.eqb gps (GPSIFD_GPSLatitudeRef ids) with
  | Some lat, Some latref =>
      match value_decode latref with
      | Raise e => (Raise e, w)
      | Ok s1 =>
          let w1 := snd (get_decimal_from_dms lat s1 w) in
          match dict_get Z.eqb gps (GPSIFD_GPSLongitude ids),
                dict_get Z.eqb gps (GPSIFD_GPSLongitudeRef ids) with
          | Some lon, Some lonref =>
              match value_decode lonref with
              | Raise e => (Raise e, w1)
              | Ok s2 =>
                  match fst (get_decimal_from_dms lat s1 w),
                        get_decimal_from_dms lon s2 w1 with
                  | Ok r1, (Ok r2, w2) => (Ok (r1, r2), w2)
                  | Raise e, _ => (Raise e, w1)
                  | _, (Raise e, w2) => (Raise e, w2)
                  end
              end
          | _, _ => (Ok (None, None), w1)
          end
      end
  | _, _ => (Ok (None, None), w)
  end.
Proof.
  intros HG. unfold extract_gps_coords. rewrite HG.
  unfold try_except, bind, lift, group_getitem, ret.
  destruct (dict_get Z.eqb gps (GPSIFD_GPSLatitude ids)) as [lat|]; [|reflexivity].
  destruct (dict_get Z.eqb gps (GPSIFD_GPSLatitudeRef ids)) as [latref|]; [|reflexivity].
  destruct (value_decode latref) as [s1|e] eqn:D1.
  2:{ destruct (value_decode_raises _ _ D1) as [-> | ->]; reflexivity. }
  rewrite !get_decimal_spec.
  destruct (dms_arith lat s1) as [a|ea]; cbn [fst snd];
    (destruct (dict_get Z.eqb gps (GPSIFD_GPSLongitude ids)) as [lon|]; [|reflexivity]);
    (destruct (dict_get Z.eqb gps (GPSIFD_GPSLongitudeRef ids)) as [lonref|]; [|reflexivity]);
    (destruct (value_decode lonref) as [s2|e] eqn:D2;
     [|destruct (value_decode_raises _ _ D2) as [-> | ->]; reflexivity]);
    rewrite get_decimal_spec; destruct (dms_arith lon s2); reflexivity.
Qed.

(** X7.  When the GPS group holds all four tags and both references are
    byte strings that decode, [extract_gps_coords] does not raise and
    returns the pair of the two conversions, the latitude converted
    first and the longitude after it, each with its own reference.  One
    of the two may be [None] while the other is a coordinate. *)
Theorem gps_pair_of_conversions ids exif gps lat latref lon lonref s1 s2 w :
  exif_get exif "GPS" = GDict gps ->
  dict_get Z.eqb gps (GPSIFD_GPSLatitude ids) = Some lat ->
  dict_get Z.eqb gps (GPSIFD_GPSLatitudeRef ids) = Some (VBytes latref) ->
  bytes_decode latref = Ok s1 ->
  dict_get Z.eqb gps (GPSIFD_GPSLongitude ids) = Some lon ->
  dict_get Z.eqb gps (GPSIFD_GPSLongitudeRef ids) = Some (VBytes lonref) ->
  bytes_decode lonref = Ok s2 ->
  exists r1 w1 r2 w2,
    get_decimal_from_dms lat s1 w = (Ok r1, w1) /\
    get_decimal_from_dms lon s2 w1 = (Ok r2, w2) /\
    extract_gps_coords ids exif w = (Ok (r1, r2), w2).
Proof.
  intros HG E1 E2 D1 E3 E4 D2.
  rewrite (extract_gps_mapping ids exif gps w HG), E1, E2, E3, E4.
  cbn [value_decode]. rewrite D1, D2. cbv zeta.
  destruct (get_decimal_from_dms lat s1 w) as [[r1|e1] w1] eqn:G1;
    [|rewrite get_decimal_spec in G1; destruct (dms_arith lat s1); discriminate G1].
  cbn [fst snd].
  destruct (get_decimal_from_dms lon s2 w1) as [[r2|e2] w2] eqn:G2;
    [|rewrite get_decimal_spec in G2; destruct (dms_arith lon s2); discriminate G2].
  exists r1, w1, r2, w2. repeat split; assumption.
Qed.

(** X7 at 40 degrees 26 minutes north, 79 degrees 58 minutes west. *)
Lemma gps_pair_of_conversions_witness :
  exists r1 w1 r2 w2,
    get_decimal_from_dms (dms_triple 40 1 26 1 0 1) "N" w0 = (Ok r1, w1) /\
    get_decimal_from_dms (dms_triple 79 1 58 1 0 1) "W" w1 = (Ok r2, w2) /\
    extract_gps_coords exif_ids pittsburgh_exif w0 = (Ok (r1, r2), w2).
Proof.
  apply (gps_pair_of_conversions exif_ids pittsburgh_exif
           [ (1, VBytes [x4e]%byte); (2, dms_triple 40 1 26 1 0 1);
             (3, VBytes [x57]%byte); (4, dms_triple 79 1 58 1 0 1) ]
           (dms_triple 40 1 26 1 0 1) [x4e]%byte
           (dms_triple 79 1 58 1 0 1) [x57]%byte "N" "W" w0); reflexivity.
Defined.

(** Latitude 40.43333333 and longitude -79.96666667, as floats. *)
Example pittsburgh_coordinates :
  fst (extract_gps_coords exif_ids pittsburgh_exif w0)
  = Ok (Some (FFin false 5690485778697971 (-47)),
        Some (FFin true 5627153909641760 (-46))).
Proof. vm_compute. reflexivity. Qed.

(** X8.  On a GPS group that is a mapping, [extract_gps_coords] raises
    nothing but [AttributeError] (a reference that is not a byte string)
    and [UnicodeDecodeError] (a reference that does not decode); no
    [KeyError], and no error of the arithmetic, leaves it. *)
Theorem gps_extraction_errors ids exif gps w e w' :
  exif_get exif "GPS" = GDict gps ->
  extract_gps_coords ids exif w = (Raise e, w') ->
  e = AttributeError \/ e = UnicodeDecodeError.
Proof.
  intros HG. rewrite (extract_gps_mapping ids exif gps w HG).
  destruct (dict_get Z.eqb gps (GPSIFD_GPSLatitude ids)) as [lat|]; [|discriminate].
  destruct (dict_get Z.eqb gps (GPSIFD_GPSLatitudeRef ids)) as [latref|]; [|discriminate].
  destruct (value_decode latref) as [s1|e1] eqn:D1.
  2:{ intros H. injection H as <- _. exact (value_decode_raises _ _ D1). }
  cbv zeta.
  destruct (dict_get Z.eqb gps (GPSIFD_GPSLongitude ids)) as [lon|]; [|discriminate].
  destruct (dict_get Z.eqb gps (GPSIFD_GPSLongitudeRef ids)) as [lonref|]; [|discriminate].
  destruct (value_decode lonref) as [s2|e2] eqn:D2.
  2:{ intros H. injection H as <- _. exact (value_decode_raises _ _ D2). }
  rewrite !get_decimal_spec.
  destruct (dms_arith lat s1); destruct (dms_arith lon s2); discriminate.
Qed.

(** X8 at a latitude reference that is no UTF-8. *)
Lemma gps_extraction_errors_witness :
  UnicodeDecodeError = AttributeError \/ UnicodeDecodeError = UnicodeDecodeError.
Proof.
  apply (gps_extraction_errors exif_ids undecodable_reference
           [ (1, VBytes [xff]%byte); (2, dms_triple 40 1 26 1 0 1) ]
           w0 UnicodeDecodeError w0); reflexivity.
Defined.

(** X9.  When the latitude and its reference are both in the GPS group
    and the reference is not a byte string (a [str], say), the call of
    [.decode()] raises [AttributeError] out of [extract_gps_coords],
    before anything is converted or written, whatever else the group
    holds. *)
Theorem gps_reference_must_be_bytes ids exif gps lat latref w :
  exif_get exif "GPS" = GDict gps ->
  dict_get Z.eqb gps (GPSIFD_GPSLatitude ids) = Some lat ->
  dict_get Z.eqb gps (GPSIFD_GPSLatitudeRef ids) = Some latref ->
  (forall b, latref <> VBytes b) ->
  extract_gps_coords ids exif w = (Raise AttributeError, w).
Proof.
  intros HG E1 E2 Hb. rewrite (extract_gps_mapping ids exif gps w HG), E1, E2.
  destruct latref; try reflexivity. exfalso. exact (Hb _ eq_refl).
Qed.

(** X9 at the reference ['N'] held as text. *)
Lemma gps_reference_must_be_bytes_witness :
  extract_gps_coords exif_ids text_reference w0 = (Raise AttributeError, w0).
Proof.
  apply (gps_reference_must_be_bytes exif_ids text_reference
           [ (1, VStr "N"); (2, dms_triple 40 1 26 1 0 1) ]
           (dms_triple 40 1 26 1 0 1) (VStr "N") w0); try reflexivity.
  intros b C. discriminate C.
Defined.

(** *** Decoded text *)

Lemma utf8_decode_strict fuel : forall l t,
  (List.length l <= fuel)%nat ->
  utf8_decode fuel false l = Ok t -> t = l /\ utf8_decode fuel true l = Ok l.
Proof.
  induction fuel as [|fuel IH]; intros l t Hl H.
  - destruct l; [|simpl in Hl; lia]. injection H as <-. split; reflexivity.
  - destruct l as [|b r]; [injection H as <-; split; reflexivity|].
    cbn [utf8_decode] in *.
    destruct (utf8_head (b :: r)) as [n|n|] eqn:E; try discriminate.
    pose proof (utf8_head_char _ _ E) as Hn.
    destruct (utf8_decode fuel false (skipn n (b :: r))) as [rest|e] eqn:D;
      cbn [rbind] in H; [|discriminate].
    injection H as <-.
    assert (Hs : (List.length (skipn n (b :: r)) <= fuel)%nat)
      by (rewrite length_skipn; lia).
    destruct (IH _ _ Hs D) as [-> D'].
    rewrite D'. cbn [rbind]. rewrite firstn_skipn. split; reflexivity.
Qed.

(** Where the strict decoder succeeds, the lenient one gives the same
    text, and the text encodes back to the bytes. *)
Lemma bytes_decode_round_trip b s :
  bytes_decode b = Ok s ->
  s = string_of_list_byte b /\ bytes_decode_ignore b = s /\ list_byte_of_string s = b.
Proof.
  unfold bytes_decode, bytes_decode_ignore. intros H.
  destruct (utf8_decode (List.length b) false b) as [t|e] eqn:D; cbn [rbind] in H;
    [|discriminate].
  injection H as <-.
  destruct (utf8_decode_strict _ _ _ (Nat.le_refl _) D) as [-> D'].
  rewrite D'. split; [reflexivity|]. split; [reflexivity|].
  apply list_byte_of_string_of_list_byte.
Qed.

(** X10.  A camera tag whose value is a byte string of well-formed UTF-8
    comes out of [get_primary_exif_values] as that very text: the record
    holds under the label a [str] whose encoding is the bytes, nothing
    dropped and nothing changed. *)
Theorem primary_text_round_trip ids exif ifd tag label b s :
  distinct (camera_tags ids) = true ->
  exif_get exif "0th" = GDict ifd ->
  In (tag, label) (tag_map ids) ->
  dict_get Z.eqb ifd tag = Some (VBytes b) ->
  bytes_decode b = Ok s ->
  exists r,
    get_primary_exif_values ids exif = Ok r /\
    dict_get String.eqb r label = Some (VStr s) /\
    list_byte_of_string s = b.
Proof.
  intros Hd H HIn Hv Hs.
  destruct (bytes_decode_round_trip _ _ Hs) as (_ & Hi & Hb).
  eexists. split; [exact (primary_values_spec ids exif ifd Hd H)|].
  split; [|exact Hb].
  rewrite (tag_map_lookup ids ifd tag label Hd HIn).
  unfold primary_value. rewrite Hv. cbn [decode_if_bytes]. rewrite Hi. reflexivity.
Qed.

(** X10 at the maker [b'Canon']. *)
Lemma primary_text_round_trip_witness :
  exists r,
    get_primary_exif_values exif_ids canon_exif = Ok r /\
    dict_get String.eqb r "Make" = Some (VStr "Canon") /\
    list_byte_of_string "Canon" = [x43; x61; x6e; x6f; x6e]%byte.
Proof.
  apply (primary_text_round_trip exif_ids canon_exif
           [ (271, VBytes [x43; x61; x6e; x6f; x6e]%byte); (274, VInt 1) ]
           271 "Make" [x43; x61; x6e; x6f; x6e]%byte "Canon"); try reflexivity.
  simpl. left. reflexivity.
Defined.

(** A character read at the head of a sequence is read the same whatever
    follows it. *)
Lemma utf8_head_prefix l n r :
  utf8_head l = UChar n -> utf8_head (firstn n l ++ r) = UChar n.
Proof.
  intros H.
  destruct l as [|b0 [|b1 [|b2 [|b3 t]]]]; unfold utf8_head in *; cbv zeta in *;
    repeat match type of H with
           | (if ?c then _ else _) = _ => destruct c eqn:?
           end; try discriminate H; injection H as <-; cbn [firstn app];
    repeat match goal with
           | E : ?c = _ |- context [if ?c then _ else _] => rewrite E
           end; reflexivity.
Qed.

Lemma utf8_decode_valid fuel : forall l t,
  (List.length l <= fuel)%nat ->
  utf8_decode fuel true l = Ok t ->
  utf8_decode (List.length t) false t = Ok t /\ (List.length t <= List.length l)%nat.
Proof.
  induction fuel as [|fuel IH]; intros l t Hl H.
  - cbn [utf8_decode] in H. injection H as <-. split; [reflexivity|simpl; lia].
  - destruct l as [|b r]; cbn [utf8_decode] in H;
      [injection H as <-; split; [reflexivity|simpl; lia]|].
    destruct (utf8_head (b :: r)) as [n|n|] eqn:E.
    + pose proof (utf8_head_char _ _ E) as Hn.
      destruct (utf8_decode fuel true (skipn n (b :: r))) as [rest|e] eqn:D;
        cbn [rbind] in H; [|discriminate].
      injection H as <-.
      assert (Hs : (List.length (skipn n (b :: r)) <= fuel)%nat)
        by (rewrite length_skipn; lia).
      destruct (IH _ _ Hs D) as [V L]. rewrite length_skipn in L.
      assert (Lf : List.length (firstn n (b :: r)) = n) by (rewrite length_firstn; lia).
      split; [|rewrite length_app, Lf; lia].
      rewrite length_app, Lf.
      destruct n as [|n]; [lia|]. cbn [Nat.add].
      destruct (firstn (S n) (b :: r) ++ rest)%list as [|c u] eqn:Eq.
      { exfalso. apply (f_equal (@List.length byte)) in Eq.
        rewrite length_app, Lf in Eq. simpl in Eq. lia. }
      cbn [utf8_decode]. rewrite <- Eq.
      rewrite (utf8_head_prefix _ _ rest E).
      rewrite skipn_app, firstn_app, Lf, Nat.sub_diag.
      rewrite (skipn_all2 (firstn (S n) (b :: r))) by (rewrite Lf; lia).
      rewrite (firstn_all2 (firstn (S n) (b :: r))) by (rewrite Lf; lia).
      cbn [skipn firstn app]. rewrite app_nil_r.
      rewrite (utf8_decode_fuel false (n + List.length rest) (List.length rest) rest)
        by lia.
      rewrite V. reflexivity.
    + assert (Hne : b :: r <> []) by discriminate.
      pose proof (utf8_head_invalid _ _ Hne E) as Hn.
      assert (Hs : (List.length (skipn n (b :: r)) <= fuel)%nat)
        by (rewrite length_skipn; lia).
      destruct (IH _ _ Hs H) as [V L]. rewrite length_skipn in L.
      split; [exact V|lia].
    + injection H as <-. split; [reflexivity|simpl; lia].
Qed.

(** X11.  Decoding a byte string with errors ignored, as the extractor
    and the dump do, never raises, whatever the bytes (the [except]
    branch behind it is never taken).  The text it gives is well-formed:
    its encoding decodes strictly, to itself, and is no longer than the
    bytes. *)
Theorem decoded_text_is_well_formed b :
  exists t,
    utf8_decode (List.length b) true b = Ok t /\
    decode_if_bytes (VBytes b) = VStr (string_of_list_byte t) /\
    bytes_decode t = Ok (string_of_list_byte t) /\
    (List.length t <= List.length b)%nat.
Proof.
  destruct (utf8_decode (List.length b) true b) as [t|e] eqn:D.
  - destruct (utf8_decode_valid _ _ _ (Nat.le_refl _) D) as [V L].
    exists t. split; [reflexivity|]. split; [|split; [|exact L]].
    + unfold decode_if_bytes, bytes_decode_ignore. rewrite D. reflexivity.
    + unfold bytes_decode. rewrite V. reflexivity.
  - destruct (utf8_decode_raises _ _ _ _ D) as [_ C]. discriminate C.
Qed.

Example decode_drops_invalid_bytes :
  decode_if_bytes (VBytes [x43; xff; x61; xc3]%byte) = VStr "Ca".
Proof. vm_compute. reflexivity. Qed.

Lemma dict_set_cons {K V} (eqb : K -> K -> bool) (d : list (K * V)) k v :
  exists e d', dict_set eqb d k v = e :: d'.
Proof.
  destruct d as [|[k' v'] d]; cbn [dict_set]; [eauto|].
  destruct (eqb k' k); eauto.
Qed.

Lemma tag_map_cons ids : exists tl rest, tag_map ids = tl :: rest.
Proof.
  unfold tag_map, dict_literal. cbn [fold_left fst snd].
  apply dict_set_cons.
Qed.

(** X12.  When the primary group of the structure is not a mapping (a
    byte string, [None], a tuple), [get_primary_exif_values] does not
    return a record: the first lookup raises [AttributeError]. *)
Theorem primary_group_must_be_mapping ids exif v :
  exif_get exif "0th" = GOther v ->
  get_primary_exif_values ids exif = Raise AttributeError.
Proof.
  intros H. unfold get_primary_exif_values. rewrite H.
  destruct (tag_map_cons ids) as ([tag label] & rest & ->). reflexivity.
Qed.

(** X12 at a primary group that is an empty byte string. *)
Lemma primary_group_must_be_mapping_witness :
  get_primary_exif_values exif_ids primary_not_mapping = Raise AttributeError.
Proof.
  apply (primary_group_must_be_mapping exif_ids primary_not_mapping (VBytes [])).
  reflexivity.
Defined.

End Extraction.

(** ** More on the page *)

Section Page.

Lemma world_page_inv w l : mkWorld (page w ++ l) (files w) = w -> l = [].
Proof.
  destruct w as [p f]. cbn [page files]. intros H. injection H as H.
  apply (app_inv_head p). rewrite app_nil_r. exact H.
Qed.

(** The dump only adds to the page, and adds nothing exactly when no
    group is a mapping with entries. *)
Lemma display_all_exif_extends TAGS exif : forall w,
  exists l,
    display_all_exif TAGS exif w = (Ok tt, mkWorld (page w ++ l) (files w)) /\
    (l = [] <-> forallb (fun e => negb (is_shown (snd e))) exif = true).
Proof.
  unfold display_all_exif.
  induction exif as [|entry exif IH]; intros w.
  - exists []. simpl. unfold ret. rewrite world_nil. split; [reflexivity|].
    split; reflexivity.
  - cbn [for_each forallb]. unfold bind at 1. rewrite display_group_spec.
    destruct (IH (mkWorld (page w ++ group_block TAGS entry) (files w))) as (l & E & Hl).
    exists (group_block TAGS entry ++ l)%list. rewrite E, world_app.
    split; [reflexivity|].
    unfold group_block. destruct (is_shown (snd entry)); cbn [negb andb app].
    + split; discriminate.
    + exact Hl.
Qed.

Lemma falsy_not_shown g : is_truthy_group g = false -> is_shown g = false.
Proof. destruct g as [[|]|]; simpl; intros H; try reflexivity; discriminate. Qed.

(** X13.  [display_all_exif] leaves the page as it was exactly when no
    group of the structure is a mapping with entries.  In particular it
    would write nothing whenever [any(exif_dict.values())] is false, which
    is when [main] writes its notice in place of the dump: the notice
    never stands in for tags that would have been shown. *)
Theorem dump_writes_nothing_iff TAGS exif w :
  (display_all_exif TAGS exif w = (Ok tt, w)
   <-> forallb (fun e => negb (is_shown (snd e))) exif = true) /\
  (existsb is_truthy_group (map snd exif) = false ->
   display_all_exif TAGS exif w = (Ok tt, w)).
Proof.
  assert (A : display_all_exif TAGS exif w = (Ok tt, w)
              <-> forallb (fun e => negb (is_shown (snd e))) exif = true).
  { destruct (display_all_exif_extends TAGS exif w) as (l & E & Hl).
    rewrite E, <- Hl. split.
    - intros H. injection H as H. exact (world_page_inv _ _ H).
    - intros ->. rewrite world_nil. reflexivity. }
  split; [exact A|].
  intros H. apply A. clear A.
  induction exif as [|e exif IH]; cbn [map existsb forallb] in *; [reflexivity|].
  apply orb_false_elim in H. destruct H as [H1 H2].
  rewrite (falsy_not_shown _ H1), (IH H2). reflexivity.
Qed.

(** The other way round it fails: with a thumbnail and nothing else the
    test of [main] is true, and the dump writes nothing. *)
Example thumbnail_only_is_silent :
  existsb is_truthy_group (map snd thumbnail_only) = true /\
  display_all_exif [] thumbnail_only w0 = (Ok tt, w0).
Proof. split; reflexivity. Qed.






Example camera_lines_canon :
  camera_lines exif_ids [ (271, VBytes [x43; x61; x6e; x6f; x6e]%byte); (274, VInt 1) ]
  = [StWrite "**Make:** Canon"; StWrite "**Orientation:** 1"].
Proof. reflexivity. Qed.

Example camera_section_canon :
  page (snd (bind (lift (get_primary_exif_values exif_ids canon_exif))
                  (fun primary => for_each primary show_primary) w0))
  = [StWrite "**Make:** Canon"; StWrite "**Orientation:** 1"].
Proof. vm_compute. reflexivity. Qed.

End Page.

(** ** The temporary file and the whole pass *)

Section TemporaryFile.

Lemma spares_ret p {A} (a : A) : spares p (ret a).
Proof. intros w. reflexivity. Qed.

Lemma spares_lift p {A} (r : result A) : spares p (lift r).
Proof. intros w. reflexivity. Qed.

Lemma spares_emit p ev : spares p (emit ev).
Proof. intros w. reflexivity. Qed.

Lemma spares_file_content p path : spares p (file_content path).
Proof. intros w. unfold file_content. destruct (files w path); reflexivity. Qed.

Lemma spares_bind p {A B} (m : M A) (k : A -> M B) :
  spares p m -> (forall a, spares p (k a)) -> spares p (bind m k).
Proof.
  intros Hm Hk w. unfold bind. specialize (Hm w).
  destruct (m w) as [[a|e] w1]; cbn [snd] in *.
  - rewrite Hk. exact Hm.
  - exact Hm.
Qed.

Lemma spares_try p {A} (body : M A) handles (handler : exn -> M A) :
  spares p body -> (forall e, spares p (handler e)) ->
  spares p (try_except body handles handler).
Proof.
  intros Hb Hh w. unfold try_except. specialize (Hb w).
  destruct (body w) as [[a|e] w1]; cbn [snd] in *; [exact Hb|].
  destruct (handles e); cbn [snd]; [rewrite Hh|]; exact Hb.
Qed.

Lemma spares_for_each p {A} (xs : list A) (body : A -> M unit) :
  (forall x, spares p (body x)) -> spares p (for_each xs body).
Proof.
  intros Hb. induction xs as [|x xs IH]; cbn [for_each].
  - apply spares_ret.
  - apply spares_bind; [apply Hb|intros _; exact IH].
Qed.

Lemma spares_write_file p refusal path data :
  p <> path -> spares p (write_file refusal path data).
Proof.
  intros Hp w. unfold write_file.
  destruct (refusal path data (files w path)) as [[e remains]|]; cbn [snd files];
    destruct (String.eqb_spec p path); try contradiction; reflexivity.
Qed.

Lemma spares_os_remove p path : p <> path -> spares p (os_remove path).
Proof.
  intros Hp w. unfold os_remove. destruct (files w path); [|reflexivity].
  cbn [snd files]. destruct (String.eqb_spec p path); [contradiction|reflexivity].
Qed.

Ltac spares_tac :=
  repeat first
    [ apply spares_emit | apply spares_lift | apply spares_ret
    | apply spares_file_content
    | apply spares_bind; [|intro]
    | apply spares_try; [|intro]
    | apply spares_for_each; intro ].

Lemma spares_get_decimal p dms ref : spares p (get_decimal_from_dms dms ref).
Proof. unfold get_decimal_from_dms. spares_tac. Qed.

Lemma spares_extract_gps p ids exif : spares p (extract_gps_coords ids exif).
Proof.
  unfold extract_gps_coords.
  repeat first [ apply spares_get_decimal | progress spares_tac ].
Qed.

Lemma spares_show_primary p entry : spares p (show_primary entry).
Proof. destruct entry as [label v]. unfold show_primary. destruct v; spares_tac. Qed.

Lemma spares_display_group p TAGS entry : spares p (display_group TAGS entry).
Proof.
  destruct entry as [name g]. unfold display_group.
  destruct g as [[|t tags]|v]; [apply spares_ret| |apply spares_ret].
  apply spares_bind; [apply spares_emit|intros _].
  apply spares_for_each. intros [tag v]. apply spares_emit.
Qed.

Lemma spares_display_all p TAGS exif : spares p (display_all_exif TAGS exif).
Proof. unfold display_all_exif. apply spares_for_each. intro. apply spares_display_group. Qed.

Lemma spares_gps_lines p P (coords : option float * option float) :
  spares p (match coords with
            | (Some lat, Some lon) =>
                bind (emit (StWrite ("**Latitude:** " ++ float_str P lat))) (fun _ =>
                bind (emit (StWrite ("**Longitude:** " ++ float_str P lon))) (fun _ =>
                emit (StMap lat lon)))
            | _ => emit (StInfo "No GPS data found in this image.")
            end).
Proof. destruct coords as [[lat|] [lon|]]; spares_tac. Qed.

Lemma spares_detail p P exif :
  spares p (if existsb is_truthy_group (map snd exif)
            then display_all_exif (TAGS P) exif
            else emit (StWrite "No EXIF data found.")).
Proof.
  destruct (existsb is_truthy_group (map snd exif));
    [apply spares_display_all|apply spares_emit].
Qed.

Ltac spares_main :=
  repeat first
    [ apply spares_extract_gps | apply spares_gps_lines | apply spares_detail
    | apply spares_show_primary
    | apply spares_write_file; assumption
    | apply spares_os_remove; assumption
    | progress spares_tac ].

(** X15.  Whatever is uploaded or not, whatever the libraries do and
    however the pass ends, [main] leaves every file other than
    [temp_image.jpg] as it was. *)
Theorem main_spares_other_files P uploaded w p :
  p <> temp_path -> files (snd (main P uploaded w)) p = files w p.
Proof.
  intros Hp. revert w. change (spares p (main P uploaded)).
  unfold main. destruct uploaded as [up|]; spares_main.
Qed.

(** X15 at a pass that fails, and another file. *)
Lemma main_spares_other_files_witness :
  files (snd (main unreadable_platform (Some text_upload) w0)) "holiday.jpg"
  = files w0 "holiday.jpg".
Proof.
  apply (main_spares_other_files unreadable_platform (Some text_upload) w0 "holiday.jpg").
  intros C. discriminate C.
Defined.

Lemma fate_bind {A} (m : M A) (k : A -> M unit) d w :
  spares temp_path m ->
  files w temp_path = Some d ->
  (forall a w1, files w1 temp_path = Some d -> removed_iff_normal d (k a w1)) ->
  removed_iff_normal d (bind m k w).
Proof.
  intros Hm Hw Hk. unfold bind. specialize (Hm w).
  destruct (m w) as [[a|e] w1]; cbn [snd] in Hm.
  - apply Hk. rewrite Hm. exact Hw.
  - unfold removed_iff_normal. cbn [fst snd]. rewrite Hm. exact Hw.
Qed.

Lemma fate_remove d w :
  files w temp_path = Some d -> removed_iff_normal d (os_remove temp_path w).
Proof.
  intros Hw. unfold os_remove, removed_iff_normal. rewrite Hw. cbn [fst snd files].
  rewrite String.eqb_refl. reflexivity.
Qed.

Ltac fate_step :=
  apply fate_bind; [solve [spares_main] | assumption | intros ? ? ?].

Lemma bind_emit {B} ev (k : unit -> M B) w :
  bind (emit ev) k w = k tt (mkWorld (page w ++ [ev]) (files w)).
Proof. reflexivity. Qed.

Lemma bind_write_file {B} refusal path data (k : unit -> M B) w :
  bind (write_file refusal path data) k w
  = match refusal path data (files w path) with
    | None =>
        k tt (mkWorld (page w)
                (fun p => if String.eqb p path then Some data else files w p))
    | Some (e, remains) =>
        (Raise e, mkWorld (page w)
                    (fun p => if String.eqb p path then remains else files w p))
    end.
Proof.
  unfold bind, write_file.
  destruct (refusal path data (files w path)) as [[e remains]|]; reflexivity.
Qed.

(** X16.  In every pass with an upload, whatever the libraries and the
    file system do.  Where the file system refuses to write the upload,
    the pass ends in that exception, with at the path what the attempt
    left.  Where the upload is written, the temporary file is gone at the
    end exactly when the pass ends normally: a pass that ends in an
    exception, wherever it is raised after the write (opening the image,
    parsing the metadata, showing the image, the extractors), leaves
    [temp_image.jpg] behind, holding the upload. *)
Theorem main_temp_file_fate P up w :
  temp_file_fate P up w (main P (Some up) w).
Proof.
  unfold temp_file_fate, main. rewrite !bind_emit, bind_write_file.
  cbn [page files].
  destruct (fs_write P temp_path (up_data up) (files w temp_path)) as [[e remains]|].
  - cbn [fst snd files]. rewrite String.eqb_refl. split; reflexivity.
  - match goal with |- removed_iff_normal _ (_ ?w1) =>
      assert (Hw : files w1 temp_path = Some (up_data up))
        by (cbn [files]; rewrite String.eqb_refl; reflexivity);
      revert Hw; generalize w1
    end.
    intros w1 Hw.
    repeat fate_step.
    apply fate_remove. assumption.
Qed.

(** A disk that is full refuses the write after the file is opened: the
    pass ends there, with an empty file at the path. *)
Example main_on_a_full_disk :
  main (mkPlatform exif_ids (fun _ => Ok plain_image) (fun _ => Ok tt)
          (fun _ => Raise (LibraryError "FileNotFoundError")) []
          (fun _ => "2026-01-01 00:00:00") (fun _ => "0.0")
          (fun _ _ _ => Some (LibraryError "OSError", Some [])))
       (Some photo_upload) w0
  = (Raise (LibraryError "OSError"),
     mkWorld [StPageConfig; StTitle "📷 Image Info & GPS Mapper"]
             (fun p => if String.eqb p temp_path then Some [] else None)).
Proof. reflexivity. Qed.

(** X17.  For an upload that is written and that the imaging library
    opens as an image without a metadata payload: if the metadata library
    raises on the empty byte string it is handed in place of the payload
    (as it does, taking it for the name of a file), the pass ends in that
    exception.  The page shows the title and nothing of the image, and
    the temporary file stays, holding the upload. *)
Theorem main_without_exif_payload P up img e w :
  fs_write P temp_path (up_data up) (files w temp_path) = None ->
  Image_open P (up_data up) = Ok img ->
  img_exif img = None ->
  piexif_load P [] = Raise e ->
  exists w',
    main P (Some up) w = (Raise e, w') /\
    page w' = (page w ++ [StPageConfig; StTitle "📷 Image Info & GPS Mapper"])%list /\
    files w' temp_path = Some (up_data up).
Proof.
  intros Hw Hopen Hexif Hload.
  unfold main, bind, emit, write_file, file_content, lift.
  cbn [page files]. rewrite Hw. cbn [page files].
  rewrite String.eqb_refl, Hopen, Hexif, Hload.
  eexists. split; [reflexivity|]. cbn [page files]. rewrite String.eqb_refl.
  split; [|reflexivity]. rewrite <- app_assoc. reflexivity.
Qed.

(** X17 at a photograph without metadata. *)
Lemma main_without_exif_payload_witness :
  exists w',
    main payload_free_platform (Some photo_upload) w0
    = (Raise (LibraryError "FileNotFoundError"), w') /\
    page w' = (page w0 ++ [StPageConfig; StTitle "📷 Image Info & GPS Mapper"])%list /\
    files w' temp_path = Some (up_data photo_upload).
Proof.
  apply (main_without_exif_payload payload_free_platform photo_upload plain_image
           (LibraryError "FileNotFoundError") w0); reflexivity.
Defined.

End TemporaryFile.
